(** * code-nav: the Phase 1 structural graph builder

    A shallow embedding of [code_navigator/core/parser.py] (class
    [CodeParser]) together with the part of [networkx.DiGraph] it drives
    ([add_node], [add_edge]), and the properties of the graph that
    [CodeParser.parse] returns; then of [core/knowledge_store.py] and of
    the two commands of [cli.py] that save, load and count that graph.

    Python dictionaries keep insertion order and the parser relies on it
    (first match wins in import resolution), so every [dict] of the source
    is an association list with unique keys: assignment to a present key
    overwrites in place, assignment to a new key appends. *)

From Stdlib Require Import String Ascii List ZArith Bool Lia Permutation DecimalString.
Import ListNotations.
Local Open Scope string_scope.
Local Open Scope list_scope.

Set Warnings "-register-all".

(** ** Keys with a boolean equality (what Python asks of a dict key) *)

Class EqKey (K : Type) := {
  keqb : K -> K -> bool;
  keqb_spec : forall a b : K, reflect (a = b) (keqb a b)
}.

#[export] Instance string_EqKey : EqKey string :=
  {| keqb := String.eqb; keqb_spec := String.eqb_spec |}.

Definition pair_eqb {A B : Type} `{EqKey A} `{EqKey B} (p q : A * B) : bool :=
  keqb (fst p) (fst q) && keqb (snd p) (snd q).

Lemma pair_eqb_spec {A B : Type} `{EqKey A} `{EqKey B} (p q : A * B) :
  reflect (p = q) (pair_eqb p q).
Proof.
  destruct p as [a b], q as [c d]; unfold pair_eqb; simpl.
  destruct (keqb_spec a c) as [->|Hac]; simpl.
  - destruct (keqb_spec b d) as [->|Hbd]; constructor; congruence.
  - constructor; congruence.
Qed.

#[export] Instance pair_EqKey {A B : Type} `{EqKey A} `{EqKey B} : EqKey (A * B) :=
  {| keqb := pair_eqb; keqb_spec := pair_eqb_spec |}.

(** ** Insertion-ordered dictionaries *)

Section Dict.
Context {K V : Type} `{EqKey K}.

Definition dict := list (K * V).

Fixpoint dict_get (k : K) (d : dict) : option V :=
  match d with
  | [] => None
  | (k', v) :: t => if keqb k k' then Some v else dict_get k t
  end.

(** [d[k] = v] *)
Fixpoint dict_set (k : K) (v : V) (d : dict) : dict :=
  match d with
  | [] => [(k, v)]
  | (k', v') :: t =>
      if keqb k k' then (k, v) :: t else (k', v') :: dict_set k v t
  end.

Definition dict_mem (k : K) (d : dict) : bool :=
  match dict_get k d with Some _ => true | None => false end.

Definition dict_keys (d : dict) : list K := map fst d.
Definition dict_values (d : dict) : list V := map snd d.
Definition dict_items (d : dict) : list (K * V) := d.
End Dict.

Arguments dict K V : clear implicits.

(** ** Strings: the few [str] and [os.path] operations the parser uses *)

Definition is_char (c d : ascii) : bool := Ascii.eqb c d.
Arguments is_char : simpl never.

Fixpoint contains_char (c : ascii) (s : string) : bool :=
  match s with
  | EmptyString => false
  | String d t => is_char c d || contains_char c t
  end.

(** [posixpath.basename]: what follows the last slash. *)
Fixpoint basename (p : string) : string :=
  match p with
  | EmptyString => EmptyString
  | String c t =>
      if contains_char "/" t then basename t
      else if is_char "/" c then t else p
  end.

(** [s.split(".")]: the segments between dots, never an empty list. *)
Fixpoint split_dots (s : string) : list string :=
  match s with
  | EmptyString => [EmptyString]
  | String c t =>
      if is_char "." c then EmptyString :: split_dots t
      else match split_dots t with
           | seg :: segs => String c seg :: segs
           | [] => [String c EmptyString]
           end
  end.

(** [s.split(".")[0]] *)
Definition root_module (s : string) : string := hd EmptyString (split_dots s).

Definition chars (s : string) : list ascii := list_ascii_of_string s.

Fixpoint starts_with (p s : list ascii) : bool :=
  match p, s with
  | [], _ => true
  | _ :: _, [] => false
  | a :: p', b :: s' => is_char a b && starts_with p' s'
  end.

(** [s.endswith(suffix)] *)
Definition endswith (s suffix : string) : bool :=
  starts_with (rev (chars suffix)) (rev (chars s)).

(** [os.path.relpath(os.path.join(root, fname), repo_path)], where the
    directory [root] that [os.walk] reports is given relative to the
    repository ([""] for the repository itself). *)
Definition relpath_join (root fname : string) : string :=
  if String.eqb root "" then fname else (root ++ "/" ++ fname)%string.

(** Characters of a Python identifier: letters, digits, underscore, and
    the bytes of non-ASCII letters. *)
Definition ident_char (c : ascii) : bool :=
  let n := nat_of_ascii c in
  (Nat.leb 65 n && Nat.leb n 90) || (Nat.leb 97 n && Nat.leb n 122)
  || (Nat.leb 48 n && Nat.leb n 57) || Nat.eqb n 95 || Nat.leb 128 n.

Definition is_identifier (s : string) : bool :=
  forallb ident_char (chars s).

(** Python's [a or b] on an optional string: [None] and [""] are falsy. *)
Definition str_or (a : option string) (b : string) : string :=
  match a with
  | Some s => if String.eqb s "" then b else s
  | None => b
  end.

(** The file part of a declaration identifier [path::name]: what
    precedes the separator in front of the trailing name. *)
Fixpoint drop_ident (l : list ascii) : list ascii :=
  match l with
  | [] => []
  | c :: t => if ident_char c then drop_ident t else l
  end.

Definition file_prefix (id : string) : option string :=
  match drop_ident (rev (chars id)) with
  | ":"%char :: ":"%char :: p => Some (string_of_list_ascii (rev p))
  | _ => None
  end.

(** ** The syntax trees of [ast]

    One type for every [ast.AST] node, as in Python.  Only the node classes
    the parser tests for are told apart; every other class is [Other] with
    its child nodes.  [doc] is what [ast.get_docstring] returns for the
    node and [argexprs] are the nodes below [args] and [returns]. *)

Record alias := Alias { alias_name : string; alias_asname : option string }.

Inductive ast : Type :=
| Name (id : string)
| Call (func : ast) (args : list ast)
| FunctionDef (name : string) (params : list string)
              (argexprs body decorator_list : list ast)
              (lineno end_lineno : Z) (doc : option string)
| ClassDef (name : string) (bases body decorator_list : list ast)
           (lineno end_lineno : Z) (doc : option string)
| Import (names : list alias)
| ImportFrom (module : option string) (names : list alias)
| Other (children : list ast).

(** [ast.walk]: the node and all its descendants ("in no specified
    order" says the library; here parents come before children). *)
Fixpoint walk (t : ast) : list ast :=
  t :: match t with
       | Name _ => []
       | Call f args => walk f ++ flat_map walk args
       | FunctionDef _ _ ae body decs _ _ _ =>
           flat_map walk ae ++ flat_map walk body ++ flat_map walk decs
       | ClassDef _ bases body decs _ _ _ =>
           flat_map walk bases ++ flat_map walk body ++ flat_map walk decs
       | Import _ => []
       | ImportFrom _ _ => []
       | Other children => flat_map walk children
       end.

(** ** [networkx.DiGraph], as far as the parser uses it *)

(** The attribute dict of a node: one optional entry per key the parser
    ever passes to [add_node]; [None] is an absent key. *)
Record NodeAttrs := {
  a_type : option string;
  a_display_name : option string;
  a_file : option string;
  a_lineno : option Z;
  a_end_lineno : option Z;
  a_loc : option Z;
  a_params : option (list string);
  a_doc : option string
}.

Definition no_attrs : NodeAttrs :=
  {| a_type := None; a_display_name := None; a_file := None;
     a_lineno := None; a_end_lineno := None; a_loc := None;
     a_params := None; a_doc := None |}.

Definition or_old {A : Type} (new old : option A) : option A :=
  match new with Some _ => new | None => old end.

(** [old.update(new)]: the keys of [new] overwrite, the others stay. *)
Definition attrs_update (old new : NodeAttrs) : NodeAttrs :=
  {| a_type := or_old (a_type new) (a_type old);
     a_display_name := or_old (a_display_name new) (a_display_name old);
     a_file := or_old (a_file new) (a_file old);
     a_lineno := or_old (a_lineno new) (a_lineno old);
     a_end_lineno := or_old (a_end_lineno new) (a_end_lineno old);
     a_loc := or_old (a_loc new) (a_loc old);
     a_params := or_old (a_params new) (a_params old);
     a_doc := or_old (a_doc new) (a_doc old) |}.

(** Nodes by identifier, edges by (source, target): a [DiGraph] has no
    parallel edges.  Every [add_edge] of the parser passes exactly
    [label=...], so the data of an edge is its label. *)
Record DiGraph := {
  g_node : dict string NodeAttrs;
  g_adj : dict (string * string) string
}.

Definition empty_graph : DiGraph := {| g_node := []; g_adj := [] |}.

(** [add_edge] creates an end point it does not know, without attributes. *)
Definition touch_node (n : string) (nodes : dict string NodeAttrs) :=
  if dict_mem n nodes then nodes else dict_set n no_attrs nodes.

(** [self._node[n].update(attrs)], on a fresh empty dict when [n] is new. *)
Definition node_update (n : string) (attrs : NodeAttrs) (nodes : dict string NodeAttrs) :=
  let old := match dict_get n nodes with Some a => a | None => no_attrs end in
  dict_set n (attrs_update old attrs) nodes.

Definition add_node (g : DiGraph) (n : string) (attrs : NodeAttrs) : DiGraph :=
  {| g_node := node_update n attrs (g_node g); g_adj := g_adj g |}.

Definition add_edge (g : DiGraph) (u v : string) (label : string) : DiGraph :=
  {| g_node := touch_node v (touch_node u (g_node g));
     g_adj := dict_set (u, v) label (g_adj g) |}.

(** ** The parser *)

Record ParsedFile := {
  path : string;
  ast_tree : list ast;
  functions : dict string ast;
  classes : dict string ast;
  imports : dict string string;
  from_imports : dict string string
}.

Record CodeParser := {
  graph : DiGraph;
  files : dict string ParsedFile
}.

(** What the parser sees of the disk: the listing of [os.walk] and, for a
    repository-relative path, the body of the module that [open], [read]
    and [ast.parse] produce, or [None] when one of them raises. *)
Record FileSystem := {
  os_walk : list (string * list string);
  read_parse : string -> option (list ast)
}.

Definition file_attrs (rel : string) : NodeAttrs :=
  {| a_type := Some "file"; a_display_name := Some rel; a_file := None;
     a_lineno := None; a_end_lineno := None; a_loc := None;
     a_params := None; a_doc := None |}.

Definition collect_dir (root : string) (st : DiGraph * list string)
           (fname : string) : DiGraph * list string :=
  if negb (endswith fname ".py") then st
  else
    let rel := relpath_join root fname in
    (add_node (fst st) rel (file_attrs rel), snd st ++ [rel]).

(** The two nested loops of [_collect_files], from any intermediate state
    (the graph so far, [py_files] so far). *)
Definition collect_loop (walk : list (string * list string))
           (st : DiGraph * list string) : DiGraph * list string :=
  fold_left (fun st entry => fold_left (collect_dir (fst entry)) (snd entry) st) walk st.

Definition _collect_files (fs : FileSystem) (self : CodeParser)
  : CodeParser * list string :=
  let r := collect_loop (os_walk fs) (graph self, []) in
  ({| graph := fst r; files := files self |}, snd r).

Record Tables := {
  t_functions : dict string ast;
  t_classes : dict string ast;
  t_imports : dict string string;
  t_from_imports : dict string string
}.

Definition no_tables : Tables :=
  {| t_functions := []; t_classes := []; t_imports := []; t_from_imports := [] |}.

Definition index_import (imports : dict string string) (a : alias) :=
  let mod_ := root_module (alias_name a) in
  let asname := str_or (alias_asname a) mod_ in
  dict_set asname mod_ imports.

Definition index_from (mod_ : string) (from_imports : dict string string) (a : alias) :=
  let asname := str_or (alias_asname a) (alias_name a) in
  dict_set asname mod_ from_imports.

Definition index_stmt (t : Tables) (stmt : ast) : Tables :=
  match stmt with
  | FunctionDef name _ _ _ _ _ _ _ =>
      {| t_functions := dict_set name stmt (t_functions t);
         t_classes := t_classes t; t_imports := t_imports t;
         t_from_imports := t_from_imports t |}
  | ClassDef name _ _ _ _ _ _ =>
      {| t_functions := t_functions t;
         t_classes := dict_set name stmt (t_classes t);
         t_imports := t_imports t; t_from_imports := t_from_imports t |}
  | Import names =>
      {| t_functions := t_functions t; t_classes := t_classes t;
         t_imports := fold_left index_import names (t_imports t);
         t_from_imports := t_from_imports t |}
  | ImportFrom module names =>
      match module with
      | Some m =>
          if String.eqb m "" then t
          else
            let mod_ := root_module m in
            {| t_functions := t_functions t; t_classes := t_classes t;
               t_imports := t_imports t;
               t_from_imports := fold_left (index_from mod_) names (t_from_imports t) |}
      | None => t
      end
  | _ => t
  end.

Definition index_body (body : list ast) : Tables :=
  fold_left index_stmt body no_tables.

Definition make_parsed_file (rel_path : string) (tree : list ast) : ParsedFile :=
  let t := index_body tree in
  {| path := rel_path; ast_tree := tree;
     functions := t_functions t; classes := t_classes t;
     imports := t_imports t; from_imports := t_from_imports t |}.

Definition is_file_node (attrs : NodeAttrs) : bool :=
  match a_type attrs with
  | Some ty => String.eqb ty "file"
  | None => false
  end.

(** One round of the loop of [_index_files], as far as the file table
    goes, in a run in which the report of a file that fails gets written.
    The [print] of the handler and the exception it raises when standard
    output cannot encode the report are in [index_file_run] and [parse_run]
    below, which give this table, and the graph of [parse], exactly when
    every report can be written. *)
Definition index_file (fs : FileSystem) (fls : dict string ParsedFile)
           (item : string * NodeAttrs) : dict string ParsedFile :=
  let (node_id, attrs) := item in
  if negb (is_file_node attrs) then fls
  else
    let rel_path := node_id in
    match read_parse fs rel_path with
    | None => fls
    | Some tree => dict_set rel_path (make_parsed_file rel_path tree) fls
    end.

Definition _index_files (fs : FileSystem) (self : CodeParser) : CodeParser :=
  {| graph := graph self;
     files := fold_left (index_file fs) (dict_items (g_node (graph self))) (files self) |}.

Definition decl_id (rel_path name : string) : string :=
  (rel_path ++ "::" ++ name)%string.

Definition node_lineno (n : ast) : Z :=
  match n with
  | FunctionDef _ _ _ _ _ l _ _ => l
  | ClassDef _ _ _ _ l _ _ => l
  | _ => 0
  end.

Definition node_end_lineno (n : ast) : Z :=
  match n with
  | FunctionDef _ _ _ _ _ _ e _ => e
  | ClassDef _ _ _ _ _ e _ => e
  | _ => node_lineno n
  end.

Definition get_docstring (n : ast) : option string :=
  match n with
  | FunctionDef _ _ _ _ _ _ _ d => d
  | ClassDef _ _ _ _ _ _ d => d
  | _ => None
  end.

Definition node_params (n : ast) : list string :=
  match n with
  | FunctionDef _ ps _ _ _ _ _ _ => ps
  | _ => []
  end.

Definition class_attrs (rel_path cname : string) (cnode : ast) : NodeAttrs :=
  let start := node_lineno cnode in
  let end_ := node_end_lineno cnode in
  {| a_type := Some "class"; a_display_name := Some cname;
     a_file := Some rel_path; a_lineno := Some start;
     a_end_lineno := Some end_;
     a_loc := Some (Z.max 0 (end_ - start + 1));
     a_params := None;
     a_doc := Some (str_or (get_docstring cnode) "") |}.

Definition function_attrs (rel_path fname : string) (fnode : ast) : NodeAttrs :=
  let start := node_lineno fnode in
  let end_ := node_end_lineno fnode in
  {| a_type := Some "function"; a_display_name := Some (fname ++ "()")%string;
     a_file := Some rel_path; a_lineno := Some start;
     a_end_lineno := Some end_;
     a_loc := Some (Z.max 0 (end_ - start + 1));
     a_params := Some (node_params fnode);
     a_doc := Some (str_or (get_docstring fnode) "") |}.

Definition add_class (rel_path : string) (g : DiGraph) (item : string * ast) : DiGraph :=
  let (cname, cnode) := item in
  let cid := decl_id rel_path cname in
  add_edge (add_node g cid (class_attrs rel_path cname cnode)) rel_path cid "defined_in".

Definition add_function (rel_path : string) (g : DiGraph) (item : string * ast) : DiGraph :=
  let (fname, fnode) := item in
  let fid := decl_id rel_path fname in
  add_edge (add_node g fid (function_attrs rel_path fname fnode)) rel_path fid "defined_in".

(** The inner [for other_path in self.files.keys(): ... break]. *)
Definition first_match (keys : list string) (module_name : string) : option string :=
  let candidate := (module_name ++ ".py")%string in
  find (fun other_path => String.eqb (basename other_path) candidate) keys.

Definition add_import (keys : list string) (rel_path : string) (g : DiGraph)
           (module_name : string) : DiGraph :=
  match first_match keys module_name with
  | Some other_path => add_edge g rel_path other_path "file_import"
  | None => g
  end.

Definition referenced_modules (pfile : ParsedFile) : list string :=
  dict_values (imports pfile) ++ dict_values (from_imports pfile).

Definition add_file (keys : list string) (g : DiGraph)
           (item : string * ParsedFile) : DiGraph :=
  let (rel_path, pfile) := item in
  let g1 := fold_left (add_class rel_path) (dict_items (classes pfile)) g in
  let g2 := fold_left (add_function rel_path) (dict_items (functions pfile)) g1 in
  fold_left (add_import keys rel_path) (referenced_modules pfile) g2.

Definition _add_nodes_and_edges (self : CodeParser) : CodeParser :=
  {| graph := fold_left (add_file (dict_keys (files self)))
                        (dict_items (files self)) (graph self);
     files := files self |}.

Definition resolve_sub (rel_path : string) (local_functions : dict string ast)
           (caller_id : string) (g : DiGraph) (sub : ast) : DiGraph :=
  match sub with
  | Call (Name target_name) _ =>
      if dict_mem target_name local_functions then
        add_edge g caller_id (decl_id rel_path target_name) "calls"
      else g
  | _ => g
  end.

Definition resolve_function (rel_path : string) (local_functions : dict string ast)
           (g : DiGraph) (item : string * ast) : DiGraph :=
  let (fname, fnode) := item in
  let caller_id := decl_id rel_path fname in
  fold_left (resolve_sub rel_path local_functions caller_id) (walk fnode) g.

Definition resolve_file (g : DiGraph) (item : string * ParsedFile) : DiGraph :=
  let (rel_path, pfile) := item in
  let local_functions := functions pfile in
  fold_left (resolve_function rel_path local_functions) (dict_items local_functions) g.

Definition _resolve_calls_basic (self : CodeParser) : CodeParser :=
  {| graph := fold_left resolve_file (dict_items (files self)) (graph self);
     files := files self |}.

Definition new_parser : CodeParser := {| graph := empty_graph; files := [] |}.

(** The parser's state after each stage of [parse]. *)
Definition collected (fs : FileSystem) : CodeParser := fst (_collect_files fs new_parser).
Definition indexed (fs : FileSystem) : CodeParser := _index_files fs (collected fs).
Definition built (fs : FileSystem) : CodeParser := _add_nodes_and_edges (indexed fs).
Definition run_parse (fs : FileSystem) : CodeParser := _resolve_calls_basic (built fs).

Definition parse (fs : FileSystem) : DiGraph := graph (run_parse fs).

(** ** Observations on a finished run *)

Definition node_get (g : DiGraph) (id : string) : option NodeAttrs :=
  dict_get id (g_node g).

Definition edge_get (g : DiGraph) (u v : string) : option string :=
  dict_get (u, v) (g_adj g).

(** The sequence [_collect_files] returns. *)
Definition discovered (fs : FileSystem) : list string :=
  snd (_collect_files fs new_parser).

(** [ast.parse] only produces identifiers as the names of definitions. *)
Definition stmt_names_ok (stmt : ast) : bool :=
  match stmt with
  | FunctionDef name _ _ _ _ _ _ _ => is_identifier name
  | ClassDef name _ _ _ _ _ _ => is_identifier name
  | _ => true
  end.

Definition well_formed (fs : FileSystem) : bool :=
  forallb (fun rel => match read_parse fs rel with
                      | Some tree => forallb stmt_names_ok tree
                      | None => true
                      end) (discovered fs).

(** What stage 1 establishes: the graph holds exactly one bare file node
    per discovered path, and nothing else. *)
Definition collect_inv (st : DiGraph * list string) : Prop :=
  (forall id, In id (snd st) -> node_get (fst st) id = Some (file_attrs id))
  /\ (forall id a, node_get (fst st) id = Some a -> In id (snd st))
  /\ g_adj (fst st) = []
  /\ (forall id, In id (snd st) -> endswith id ".py" = true)
  /\ NoDup (dict_keys (g_node (fst st))).

(** A file is successfully analyzed when reading and parsing it raise
    nothing; such a file gets one entry in [self.files]. *)
Definition is_parsed (fs : FileSystem) (rel : string) : bool :=
  match read_parse fs rel with Some _ => true | None => false end.

Definition parsed_entry (fs : FileSystem) (rel : string) : list (string * ParsedFile) :=
  match read_parse fs rel with
  | Some tree => [(rel, make_parsed_file rel tree)]
  | None => []
  end.

(** The last top-level statement of a body that satisfies [p]: a later
    assignment to a key of a table overwrites an earlier one. *)
Fixpoint last_such (p : ast -> bool) (body : list ast) : option ast :=
  match body with
  | [] => None
  | stmt :: rest =>
      match last_such p rest with
      | Some x => Some x
      | None => if p stmt then Some stmt else None
      end
  end.

Definition is_function_named (f : string) (stmt : ast) : bool :=
  match stmt with
  | FunctionDef name _ _ _ _ _ _ _ => String.eqb f name
  | _ => false
  end.

Definition is_class_named (c : string) (stmt : ast) : bool :=
  match stmt with
  | ClassDef name _ _ _ _ _ _ => String.eqb c name
  | _ => false
  end.

(** The names a file record declares. *)
Definition declared (pf : ParsedFile) (n : string) : bool :=
  dict_mem n (classes pf) || dict_mem n (functions pf).

(** The attributes of the node [rel_path::n] once the file is added:
    those of the class of that name, overwritten by those of the function
    of that name, whichever exist. *)
Definition decl_node (rel_path : string) (pf : ParsedFile) (n : string) : option NodeAttrs :=
  let as_class :=
    match dict_get n (classes pf) with
    | Some c => Some (class_attrs rel_path n c)
    | None => None
    end in
  match dict_get n (functions pf) with
  | Some f =>
      Some (attrs_update (match as_class with Some a => a | None => no_attrs end)
                         (function_attrs rel_path n f))
  | None => as_class
  end.

(** What the loops over [classes] and [functions] do to the node table. *)
Definition decl_fold (mk : string -> ast -> NodeAttrs) (rel_path : string)
           (items : dict string ast) (nodes : dict string NodeAttrs) :=
  fold_left (fun d it => node_update (decl_id rel_path (fst it)) (mk (fst it) (snd it)) d)
            items nodes.

Definition file_nodes (nodes : dict string NodeAttrs) (item : string * ParsedFile) :=
  let (rel_path, pf) := item in
  decl_fold (function_attrs rel_path) rel_path (functions pf)
            (decl_fold (class_attrs rel_path) rel_path (classes pf) nodes).

(** The three kinds of edges, read off the file records. *)
Definition is_defined_in (fs : FileSystem) (u v : string) : Prop :=
  exists pf n, In (u, pf) (files (indexed fs)) /\ declared pf n = true /\ v = decl_id u n.

Definition is_file_import (fs : FileSystem) (u v : string) : Prop :=
  exists pf m, In (u, pf) (files (indexed fs)) /\ In m (referenced_modules pf)
               /\ first_match (dict_keys (files (indexed fs))) m = Some v.

Definition is_call (fs : FileSystem) (u v : string) : Prop :=
  exists r pf f fnode t args,
    In (r, pf) (files (indexed fs)) /\ In (f, fnode) (functions pf)
    /\ In (Call (Name t) args) (walk fnode) /\ dict_mem t (functions pf) = true
    /\ u = decl_id r f /\ v = decl_id r t.

Definition edge_spec (fs : FileSystem) (u v l : string) : Prop :=
  (l = "defined_in" /\ is_defined_in fs u v)
  \/ (l = "file_import" /\ is_file_import fs u v)
  \/ (l = "calls" /\ is_call fs u v).

Definition edges_sound (fs : FileSystem) (g : DiGraph) : Prop :=
  forall u v l, edge_get g u v = Some l -> edge_spec fs u v l.

Definition has_edge (u v : string) (g : DiGraph) : Prop := edge_get g u v <> None.

(** The order of the node table after discovery: the discovered paths,
    each at its first occurrence. *)
Definition dedup_step (acc : list string) (x : string) : list string :=
  if existsb (String.eqb x) acc then acc else acc ++ [x].

Definition dedup (l : list string) : list string := fold_left dedup_step l [].

(** The first discovered file that was analyzed and is called
    [module_name + ".py"]. *)
Definition first_analyzed_match (fs : FileSystem) (module_name : string) : option string :=
  find (fun p => is_parsed fs p && String.eqb (basename p) (module_name ++ ".py")%string)
       (discovered fs).

(** ** Sample repositories *)

(** A disk given by its listing and the parse trees of its readable,
    well-formed files; any other file fails to parse. *)
Definition disk (walk : list (string * list string)) (sources : dict string (list ast))
  : FileSystem :=
  {| os_walk := walk; read_parse := fun rel => dict_get rel sources |}.

Definition print_stmt : ast := Other [Call (Name "print") [Other []]].

Definition method (name : string) (l e : Z) : ast :=
  FunctionDef name ["self"] [] [print_stmt] [] l e None.

(** [test_repo/file1.py], [file2.py] and [file3.py]. *)
Definition file1_py : list ast :=
  [ Import [Alias "file2" None];
    FunctionDef "initialize_game" [] []
      [ print_stmt;
        Other [Call (Name "load_assets") []];
        Other [Call (Other [Name "file2"]) []] ] [] 3 6 None;
    FunctionDef "load_assets" [] [] [print_stmt] [] 8 9 None;
    ClassDef "Character" []
      [method "__init__" 12 14; method "attack" 16 17; method "move" 19 20] [] 11 20 None;
    ClassDef "Player" [Name "Character"]
      [method "attack" 23 25; method "jump" 27 28] [] 22 28 None ].

Definition file2_py : list ast :=
  [ ClassDef "Vehicle" []
      [method "__init__" 2 3; method "start_engine" 5 6; method "stop_engine" 8 9] [] 1 9 None;
    ClassDef "Car" [Name "Vehicle"]
      [method "start_engine" 12 14; method "honk" 16 17] [] 11 17 None;
    FunctionDef "setup_levels" [] [] [print_stmt] [] 19 20 None ].

Definition file3_py : list ast :=
  [ ImportFrom (Some "file1") [Alias "initialize_game" None; Alias "Player" None];
    ImportFrom (Some "file2") [Alias "Car" None];
    FunctionDef "run_game" [] [] [Other [Call (Name "initialize_game") []]] [] 4 5 None;
    FunctionDef "test_player_actions" [] []
      [ Other [Name "hero"; Call (Name "Player") [Other []; Other []]];
        Other [Call (Other [Name "hero"]) [Other []]] ] [] 7 11 None;
    FunctionDef "test_car_actions" [] []
      [ Other [Name "car"; Call (Name "Car") [Other []]];
        Other [Call (Other [Name "car"]) []] ] [] 13 17 None ].

Definition test_repo_sources : dict string (list ast) :=
  [("file1.py", file1_py); ("file2.py", file2_py); ("file3.py", file3_py)].

Definition test_repo : FileSystem :=
  disk [("", ["file1.py"; "file2.py"; "file3.py"])] test_repo_sources.

(** [main.py] imports [util]; [util.py] does not parse. *)
Definition broken_sources : dict string (list ast) :=
  [("main.py",
    [ Import [Alias "util" None];
      FunctionDef "main" [] [] [Other [Call (Other [Name "util"]) []]] [] 3 4 None ])].

Definition broken_repo : FileSystem :=
  disk [("", ["main.py"; "util.py"])] broken_sources.

(** Two files called [util.py] in different directories, listed in the
    two possible orders. *)
Definition ambiguous_sources : dict string (list ast) :=
  [("main.py", [Import [Alias "util" None]]);
   ("a/util.py", [FunctionDef "helper" [] [] [] [] 1 2 None]);
   ("b/util.py", [FunctionDef "helper" [] [] [] [] 1 2 None])].

Definition ambiguous_repo_ab : FileSystem :=
  disk [("", ["main.py"]); ("a", ["util.py"]); ("b", ["util.py"])] ambiguous_sources.

Definition ambiguous_repo_ba : FileSystem :=
  disk [("", ["main.py"]); ("b", ["util.py"]); ("a", ["util.py"])] ambiguous_sources.


(** One file importing the same module under several names. *)
Definition many_aliases_repo : FileSystem :=
  disk [("", ["app.py"; "util.py"])]
       [("app.py",
         [ Import [Alias "util" None; Alias "util.sub" (Some "u")];
           ImportFrom (Some "util") [Alias "a" None; Alias "b" (Some "c")];
           ImportFrom (Some "util.sub") [Alias "d" None] ]);
        ("util.py", [])].

(** A class and a function of the same name at top level. *)
Definition same_name_repo : FileSystem :=
  disk [("", ["m.py"])]
       [("m.py",
         [ ClassDef "foo" [] [] [] 1 2 (Some "a class");
           FunctionDef "foo" ["x"] [] [] [] 4 5 None ])].

(** [def fact(n): return n * fact(n - 1)] *)
Definition recursive_repo : FileSystem :=
  disk [("", ["m.py"])]
       [("m.py",
         [ FunctionDef "fact" ["n"] []
             [Other [Other [Name "n"; Call (Name "fact") [Other [Name "n"]]]]] [] 1 2 None ])].

(** A function calling itself by name, then redefined without the call. *)
Definition redefined_repo : FileSystem :=
  disk [("", ["m.py"])]
       [("m.py",
         [ FunctionDef "f" [] [] [Other [Call (Name "f") []]] [] 1 2 None;
           FunctionDef "f" [] [] [] [] 4 5 None ])].

(** ** Import extraction as the specification words it

    These follow the specification, not the source: the first dotted
    segment of a path, the binding each alias of a plain import and of a
    from-import contributes, and the map they make up, in which a later
    binding of a name replaces an earlier one. *)

Fixpoint spec_first_segment (s : string) : string :=
  match s with
  | EmptyString => EmptyString
  | String c t => if is_char "." c then EmptyString else String c (spec_first_segment t)
  end.

Definition spec_plain_binding (a : alias) : string * string :=
  let root := spec_first_segment (alias_name a) in
  (match alias_asname a with Some y => y | None => root end, root).

Definition spec_from_binding (x : string) (a : alias) : string * string :=
  (match alias_asname a with Some c => c | None => alias_name a end,
   spec_first_segment x).

Definition spec_plain_bindings (stmt : ast) : list (string * string) :=
  match stmt with
  | Import names => map spec_plain_binding names
  | _ => []
  end.

Definition spec_from_bindings (stmt : ast) : list (string * string) :=
  match stmt with
  | ImportFrom (Some x) names => map (spec_from_binding x) names
  | _ => []
  end.

Definition spec_lookup (k : string) (bindings : list (string * string)) : option string :=
  dict_get k (rev bindings).

(** [ast.parse] never produces an empty as-name or an empty module name. *)
Definition alias_ok (a : alias) : bool :=
  match alias_asname a with Some y => negb (String.eqb y "") | None => true end.

Definition stmt_aliases_ok (stmt : ast) : bool :=
  match stmt with
  | Import names => forallb alias_ok names
  | ImportFrom module names =>
      match module with Some x => negb (String.eqb x "") | None => true end
      && forallb alias_ok names
  | _ => true
  end.

(** Two graphs with the same nodes, attributes and labeled edges, in
    whatever order they were inserted. *)
Definition same_graph (g1 g2 : DiGraph) : Prop :=
  (forall id, node_get g1 id = node_get g2 id)
  /\ (forall u v, edge_get g1 u v = edge_get g2 u v).

(** Two runs over the same files: the same paths are discovered and each
    path reads and parses the same way. *)
Definition same_files (fs1 fs2 : FileSystem) : Prop :=
  (forall p, In p (discovered fs1) <-> In p (discovered fs2))
  /\ (forall p, read_parse fs1 p = read_parse fs2 p).

(** ** Further observations *)

(** The paths of a listing that [_collect_files] keeps, in the order of
    the listing. *)
Definition walk_paths (walk : list (string * list string)) : list string :=
  flat_map (fun entry =>
              map (relpath_join (fst entry))
                  (filter (fun fname => endswith fname ".py") (snd entry)))
           walk.

(** A node as the parser makes them: typed, labeled, and with a line count
    that is not negative. *)
Definition node_ok (a : NodeAttrs) : Prop :=
  (a_type a = Some "file" \/ a_type a = Some "class" \/ a_type a = Some "function")
  /\ a_display_name a <> None
  /\ (forall z, a_loc a = Some z -> (0 <= z)%Z).

(** A module in a package directory. *)
Definition package_repo : FileSystem :=
  disk [("", ["main.py"]); ("pkg", ["util.py"; "notes.txt"])]
       [("main.py", [ImportFrom (Some "util") [Alias "helper" None]]);
        ("pkg/util.py", [FunctionDef "helper" [] [] [] [] 1 2 None])].

(** * [knowledge_store.py] and [cli.py] *)

(** Python exceptions that leave these functions, and what a call gives:
    a value or an exception. *)
Inductive exn : Type :=
| SystemExit (msg : string)
| UnpicklingError.

Inductive result (A : Type) : Type :=
| Ok (a : A)
| Raise (e : exn).

Arguments Ok {A} a.
Arguments Raise {A} e.

(** [posixpath.join] of two components. *)
Definition path_join (a b : string) : string :=
  if starts_with (chars "/") (chars b) then b
  else if String.eqb a "" || endswith a "/" then (a ++ b)%string
  else (a ++ "/" ++ b)%string.

(** The [str()] of a natural number in an f-string. *)
Definition show_nat (n : nat) : string := NilEmpty.string_of_uint (Nat.to_uint n).

Module Store.

Record GraphStats := {
  num_nodes : nat;
  num_edges : nat;
  num_files : nat;
  num_functions : nat;
  num_classes : nat
}.

Record KnowledgeStore := {
  cache_dir : string;
  graph : option DiGraph
}.

(** What a file below the cache directory holds: the pickle of a graph, or
    bytes that [pickle.load] rejects.  [pickle.load] gives back the graph
    that [pickle.dump] wrote. *)
Inductive blob : Type :=
| Pickled (g : DiGraph)
| Unreadable.

(** The cache files, by the path string they are opened with.  This is the
    cache as [cli.py] drives it: the directory exists ([__init__] makes
    it), and the identifiers are the 16 hexadecimal digits of
    [_codebase_id_from_path], so that a path names a file directly in the
    cache directory, [open] succeeds, and two different path strings are two
    different files.  An identifier with a slash or a dot segment in it is
    outside this model: there [open] may raise, or two strings may name one
    file. *)
Definition Disk := dict string blob.

(** [KnowledgeStore(cache_dir)]; the directory it makes holds no file of
    its own. *)
Definition new (cache_dir : string) : KnowledgeStore :=
  {| cache_dir := cache_dir; graph := None |}.

Definition default_cache_dir : string := ".code_nav_cache".

Definition _cache_path (self : KnowledgeStore) (codebase_id : string) : string :=
  path_join (cache_dir self) (codebase_id ++ "_graph.pkl")%string.

Definition save_graph (self : KnowledgeStore) (disk : Disk) (codebase_id : string)
           (g : DiGraph) : KnowledgeStore * Disk :=
  let path := _cache_path self codebase_id in
  ({| cache_dir := cache_dir self; graph := Some g |}, dict_set path (Pickled g) disk).

Definition load_graph (self : KnowledgeStore) (disk : Disk) (codebase_id : string)
  : result (KnowledgeStore * option DiGraph) :=
  let path := _cache_path self codebase_id in
  match dict_get path disk with
  | None => Ok (self, None)
  | Some Unreadable => Raise UnpicklingError
  | Some (Pickled g) => Ok ({| cache_dir := cache_dir self; graph := Some g |}, Some g)
  end.

(** [a.get("type") == ty] *)
Definition has_type (ty : string) (a : NodeAttrs) : bool :=
  match a_type a with
  | Some t => String.eqb t ty
  | None => false
  end.

(** [sum(1 for _, a in g.nodes(data=True) if a.get("type") == ty)] *)
Definition count_type (ty : string) (g : DiGraph) : nat :=
  length (filter (fun item => has_type ty (snd item)) (dict_items (g_node g))).

Definition get_stats (self : KnowledgeStore) : GraphStats :=
  match graph self with
  | None =>
      {| num_nodes := 0; num_edges := 0; num_files := 0;
         num_functions := 0; num_classes := 0 |}
  | Some g =>
      {| num_nodes := length (g_node g);
         num_edges := length (g_adj g);
         num_files := count_type "file" g;
         num_functions := count_type "function" g;
         num_classes := count_type "class" g |}
  end.

End Store.

(** What [cli.py] asks of its surroundings: whether a path is a directory,
    [os.path.abspath], the hex digest of SHA-256, the view the parser has
    of the repository at an absolute path, the text of the exception for a
    file that fails to parse, and the two durations as [:.2f] prints
    them. *)
Record Env := {
  isdir : string -> bool;
  abspath : string -> string;
  sha256_hexdigest : string -> string;
  repo_view : string -> FileSystem;
  failure_text : string -> string;
  parse_seconds : string;
  save_seconds : string
}.

Definition _codebase_id_from_path (env : Env) (repo_path : string) : string :=
  let abs_path := abspath env repo_path in
  substring 0 16 (sha256_hexdigest env abs_path).

(** The lines [_index_files] prints: one per file node that fails. *)
Definition index_file_print (env : Env) (fs : FileSystem) (item : string * NodeAttrs)
  : list string :=
  let (node_id, attrs) := item in
  if negb (is_file_node attrs) then []
  else
    match read_parse fs node_id with
    | None => [("[parser] Failed to parse " ++ node_id ++ ": " ++ failure_text env node_id)%string]
    | Some _ => []
    end.

Definition parse_output (env : Env) (fs : FileSystem) : list string :=
  flat_map (index_file_print env fs) (dict_items (g_node (graph (collected fs)))).

(** [cmd_index]: the cache afterwards and the lines printed, or the
    exception; in a run in which [parse] returns (see [parse_run]). *)
Definition cmd_index (env : Env) (disk : Store.Disk) (repo_path : string)
  : result (Store.Disk * list string) :=
  if negb (isdir env repo_path) then Raise (SystemExit ("Not a directory: " ++ repo_path))
  else
    let codebase_id := _codebase_id_from_path env repo_path in
    let fs := repo_view env (abspath env repo_path) in
    let g := parse fs in
    let store := Store.new Store.default_cache_dir in
    let (store', disk') := Store.save_graph store disk codebase_id g in
    Ok (disk',
        [ ("[index] Repo: " ++ repo_path)%string;
          ("[index] Codebase id: " ++ codebase_id)%string ]
        ++ parse_output env fs
        ++ [ ("[index] Parsed graph in " ++ parse_seconds env ++ "s")%string;
             ("[index] Saved graph in " ++ save_seconds env ++ "s")%string;
             ("[index] Nodes: " ++ show_nat (length (g_node g))
              ++ ", Edges: " ++ show_nat (length (g_adj g)))%string ]).

Definition stats_lines (repo_path codebase_id : string) (stats : Store.GraphStats)
  : list string :=
  [ ("[stats] Repo: " ++ repo_path)%string;
    ("[stats] Codebase id: " ++ codebase_id)%string;
    ("[stats] Nodes:     " ++ show_nat (Store.num_nodes stats))%string;
    ("[stats] Edges:     " ++ show_nat (Store.num_edges stats))%string;
    ("[stats] Files:     " ++ show_nat (Store.num_files stats))%string;
    ("[stats] Functions: " ++ show_nat (Store.num_functions stats))%string;
    ("[stats] Classes:   " ++ show_nat (Store.num_classes stats))%string ].

(** [cmd_stats]: the lines printed, or the exception. *)
Definition cmd_stats (env : Env) (disk : Store.Disk) (repo_path : string)
  : result (list string) :=
  let codebase_id := _codebase_id_from_path env repo_path in
  let store := Store.new Store.default_cache_dir in
  match Store.load_graph store disk codebase_id with
  | Raise e => Raise e
  | Ok (store', None) => Ok ["[stats] No cached graph found. Run 'index' first."]
  | Ok (store', Some _) => Ok (stats_lines repo_path codebase_id (Store.get_stats store'))
  end.

(** The statistics of a graph held by a store. *)
Definition stats_of (g : DiGraph) : Store.GraphStats :=
  Store.get_stats {| Store.cache_dir := Store.default_cache_dir; Store.graph := Some g |}.

(** A small surrounding: every path is a directory holding the sample
    repository; the digest of a path is the path itself. *)
Definition sample_env : Env :=
  {| isdir := fun _ => true;
     abspath := fun p => ("/home/" ++ p)%string;
     sha256_hexdigest := fun s => s;
     repo_view := fun _ => test_repo;
     failure_text := fun _ => "invalid syntax";
     parse_seconds := "0.01";
     save_seconds := "0.00" |}.

(** * The report of a file that fails

    The handler of [_index_files] prints one line for a file it cannot read
    or parse, and goes on to the next file.  The [print] stands inside the
    handler and nothing guards it: it raises [UnicodeEncodeError] when
    standard output cannot encode the line, and the exception leaves
    [_index_files] and [parse].  [index_file] and [parse] above are the run
    in which every report gets written; what follows is the run together
    with its output and this exception. *)

(** Standard output, as far as [print] depends on it: the lines its
    encoding takes. *)
Record Stdout := { accepts : string -> bool }.

(** A stream encoded in ASCII ([PYTHONIOENCODING=ascii]) takes the bytes
    below 128 and nothing else. *)
Definition ascii_stdout : Stdout :=
  {| accepts := fun line => forallb (fun c => Nat.ltb (nat_of_ascii c) 128) (chars line) |}.

(** A stream that takes every line. *)
Definition lenient_stdout : Stdout := {| accepts := fun _ => true |}.

(** What a stage that prints gives: its result, or the exception of the
    [print] that failed, with the line it was given. *)
Inductive outcome (A : Type) : Type :=
| Returns (a : A)
| UnicodeEncodeError (line : string).

Arguments Returns {A} a.
Arguments UnicodeEncodeError {A} line.

(** [f"[parser] Failed to parse {rel_path}: {exc}"] *)
Definition failure_line (env : Env) (rel_path : string) : string :=
  ("[parser] Failed to parse " ++ rel_path ++ ": " ++ failure_text env rel_path)%string.

(** One round of the loop of [_index_files]: the file table and the lines
    printed so far, or the exception. *)
Definition index_file_run (out : Stdout) (env : Env) (fs : FileSystem)
           (st : dict string ParsedFile * list string) (item : string * NodeAttrs)
  : outcome (dict string ParsedFile * list string) :=
  let (node_id, attrs) := item in
  if negb (is_file_node attrs) then Returns st
  else
    let rel_path := node_id in
    match read_parse fs rel_path with
    | None =>
        let line := failure_line env rel_path in
        if accepts out line then Returns (fst st, snd st ++ [line])
        else UnicodeEncodeError line
    | Some tree =>
        Returns (dict_set rel_path (make_parsed_file rel_path tree) (fst st), snd st)
    end.

(** The loop: an exception ends it. *)
Fixpoint index_loop_run (out : Stdout) (env : Env) (fs : FileSystem)
         (items : dict string NodeAttrs) (st : dict string ParsedFile * list string)
  : outcome (dict string ParsedFile * list string) :=
  match items with
  | [] => Returns st
  | item :: rest =>
      match index_file_run out env fs st item with
      | Returns st' => index_loop_run out env fs rest st'
      | UnicodeEncodeError line => UnicodeEncodeError line
      end
  end.

Definition _index_files_run (out : Stdout) (env : Env) (fs : FileSystem) (self : CodeParser)
  : outcome (CodeParser * list string) :=
  match index_loop_run out env fs (dict_items (g_node (graph self))) (files self, []) with
  | Returns st => Returns ({| graph := graph self; files := fst st |}, snd st)
  | UnicodeEncodeError line => UnicodeEncodeError line
  end.

(** [parse], with what it prints: the graph it returns and the lines, or
    the exception that leaves it. *)
Definition parse_run (out : Stdout) (env : Env) (fs : FileSystem)
  : outcome (DiGraph * list string) :=
  let self := fst (_collect_files fs new_parser) in
  match _index_files_run out env fs self with
  | Returns r =>
      Returns (graph (_resolve_calls_basic (_add_nodes_and_edges (fst r))), snd r)
  | UnicodeEncodeError line => UnicodeEncodeError line
  end.

(** [ok.py] defines [f]; [café.py] (the name in UTF-8) does not parse. *)
Definition e_acute : string :=
  String (ascii_of_nat 195) (String (ascii_of_nat 169) EmptyString).

Definition cafe_py : string := ("caf" ++ e_acute ++ ".py")%string.

Definition accented_repo : FileSystem :=
  disk [("", ["ok.py"; cafe_py])]
       [("ok.py", [FunctionDef "f" [] [] [] [] 1 2 None])].

(** ** Module names in use *)

(** The module names the analyzed files reference. *)
Definition referenced (fs : FileSystem) (m : string) : Prop :=
  exists r tree, In r (discovered fs) /\ read_parse fs r = Some tree
                 /\ In m (referenced_modules (make_parsed_file r tree)).

(** A module name that at most one analyzed file carries. *)
Definition unambiguous (fs : FileSystem) (m : string) : Prop :=
  forall a b, In a (discovered fs) -> In b (discovered fs) ->
              is_parsed fs a = true -> is_parsed fs b = true ->
              basename a = (m ++ ".py")%string -> basename b = (m ++ ".py")%string ->
              a = b.

(** Two packages, each with its [__init__.py], beside a module that
    [main.py] imports; the packages listed in the two possible orders. *)
Definition packages_sources : dict string (list ast) :=
  [("main.py",
    [ Import [Alias "util" None];
      FunctionDef "main" [] [] [Other [Call (Other [Name "util"]) []]] [] 3 4 None ]);
   ("util.py", [FunctionDef "helper" [] [] [] [] 1 2 None]);
   ("a/__init__.py", []);
   ("b/__init__.py", [])].

Definition packages_repo_ab : FileSystem :=
  disk [("", ["main.py"; "util.py"]); ("a", ["__init__.py"]); ("b", ["__init__.py"])]
       packages_sources.

Definition packages_repo_ba : FileSystem :=
  disk [("", ["main.py"; "util.py"]); ("b", ["__init__.py"]); ("a", ["__init__.py"])]
       packages_sources.

(** * Properties *)

(** ** Loops *)

Lemma fold_left_ind {A B : Type} (P : A -> Prop) (f : A -> B -> A) (l : list B) :
  forall a, P a -> (forall a x, In x l -> P a -> P (f a x)) -> P (fold_left f l a).
Proof.
  induction l as [|x l IH]; simpl; intros a Ha Hstep; [exact Ha|].
  apply IH; [apply Hstep; auto | intros; apply Hstep; auto].
Qed.

(** ** Dictionaries *)

Section DictFacts.
Context {K V : Type} `{EqKey K}.
Implicit Types (k : K) (v : V) (d : dict K V).

Lemma keqb_refl k : keqb k k = true.
Proof. destruct (keqb_spec k k); congruence. Qed.

Lemma keqb_neq k k' : k <> k' -> keqb k k' = false.
Proof. destruct (keqb_spec k k'); congruence. Qed.

Lemma dict_get_set_eq k v d : dict_get k (dict_set k v d) = Some v.
Proof.
  induction d as [|[k' v'] d IH]; simpl.
  - now rewrite keqb_refl.
  - destruct (keqb k k') eqn:E; simpl.
    + now rewrite keqb_refl.
    + now rewrite E.
Qed.

Lemma dict_get_set_neq k k' v d :
  k' <> k -> dict_get k' (dict_set k v d) = dict_get k' d.
Proof.
  intros Hne. induction d as [|[k2 v2] d IH]; simpl.
  - now rewrite keqb_neq.
  - destruct (keqb_spec k k2) as [->|Hk]; simpl.
    + now rewrite keqb_neq.
    + now rewrite IH.
Qed.

Lemma dict_get_set k k' v d :
  dict_get k' (dict_set k v d) = if keqb k' k then Some v else dict_get k' d.
Proof.
  destruct (keqb_spec k' k) as [->|Hne].
  - apply dict_get_set_eq.
  - now apply dict_get_set_neq.
Qed.

Lemma dict_get_In k v d : dict_get k d = Some v -> In (k, v) d.
Proof.
  induction d as [|[k' v'] d IH]; simpl; [discriminate|].
  destruct (keqb_spec k k') as [->|Hne]; intros E.
  - left. congruence.
  - right. auto.
Qed.

Lemma dict_get_None k d : dict_get k d = None <-> ~ In k (dict_keys d).
Proof.
  induction d as [|[k' v'] d IH]; simpl.
  - tauto.
  - destruct (keqb_spec k k') as [->|Hne].
    + split; [discriminate | intros Hn; exfalso; apply Hn; now left].
    + rewrite IH. split; intros Hn; [intros [E|Hi]; [congruence|tauto] | tauto].
Qed.

Lemma dict_get_Some_key k v d : dict_get k d = Some v -> In k (dict_keys d).
Proof. intros E. apply dict_get_In in E. now apply (in_map fst) in E. Qed.

Lemma dict_mem_keys k d : dict_mem k d = true <-> In k (dict_keys d).
Proof.
  unfold dict_mem. destruct (dict_get k d) eqn:E.
  - split; auto. intros _. eapply dict_get_Some_key; eauto.
  - apply dict_get_None in E. split; [discriminate | tauto].
Qed.

Lemma In_dict_get k v d : NoDup (dict_keys d) -> In (k, v) d -> dict_get k d = Some v.
Proof.
  induction d as [|[k' v'] d IH]; simpl; [tauto|].
  intros Hnd [E|Hi].
  - inversion E; subst. now rewrite keqb_refl.
  - inversion Hnd as [|? ? Hni Hnd']; subst.
    destruct (keqb_spec k k') as [->|Hne].
    + exfalso. apply Hni. now apply (in_map fst) in Hi.
    + auto.
Qed.

Lemma dict_keys_set k v d k' :
  In k' (dict_keys (dict_set k v d)) <-> k' = k \/ In k' (dict_keys d).
Proof.
  induction d as [|[k2 v2] d IH]; simpl.
  - intuition.
  - destruct (keqb_spec k k2) as [->|Hne]; simpl.
    + intuition.
    + rewrite IH. intuition.
Qed.

Lemma dict_set_NoDup k v d : NoDup (dict_keys d) -> NoDup (dict_keys (dict_set k v d)).
Proof.
  induction d as [|[k2 v2] d IH]; simpl; intros Hnd.
  - constructor; [simpl; tauto | constructor].
  - inversion Hnd as [|? ? Hni Hnd']; subst.
    destruct (keqb_spec k k2) as [->|Hne]; simpl.
    + now constructor.
    + constructor; auto. unfold dict_keys in *. fold (dict_keys (dict_set k v d)).
      rewrite dict_keys_set. intros [E|Hi]; [congruence | tauto].
Qed.

(** Assigning a new key appends; the order of the older keys stays. *)
Lemma dict_set_new k v d : dict_get k d = None -> dict_set k v d = d ++ [(k, v)].
Proof.
  induction d as [|[k2 v2] d IH]; simpl; auto.
  destruct (keqb k k2); [discriminate|]. intros E. now rewrite IH.
Qed.

(** At most one entry per key. *)
Lemma dict_one_entry_per_key k (p : V -> bool) d :
  NoDup (dict_keys d) ->
  length (filter (fun e => keqb (fst e) k && p (snd e)) d) <= 1.
Proof.
  induction d as [|[k2 v2] d IH]; simpl; intros Hnd; [lia|].
  inversion Hnd as [|? ? Hni Hnd']; subst.
  destruct (keqb_spec k2 k) as [->|Hne]; simpl; auto.
  assert (Hnone : filter (fun e => keqb (fst e) k && p (snd e)) d = []).
  { clear -Hni. induction d as [|[k3 v3] d IH]; simpl in *; auto.
    destruct (keqb_spec k3 k) as [->|Hne]; simpl.
    - exfalso. apply Hni. now left.
    - apply IH. tauto. }
  rewrite Hnone. destruct (p v2); simpl; lia.
Qed.
End DictFacts.

(** ** Strings *)

Lemma chars_append (a b : string) : chars (a ++ b)%string = chars a ++ chars b.
Proof. induction a as [|c a IH]; simpl; [reflexivity | now rewrite <- IH]. Qed.

Lemma chars_inj (a b : string) : chars a = chars b -> a = b.
Proof.
  intros E. rewrite <- (string_of_list_ascii_of_string a), <- (string_of_list_ascii_of_string b).
  unfold chars in E. now rewrite E.
Qed.

Lemma chars_decl_id (r n : string) :
  chars (decl_id r n) = chars r ++ ":"%char :: ":"%char :: chars n.
Proof. unfold decl_id. now rewrite !chars_append. Qed.

Lemma rev_chars_decl_id (r n : string) :
  rev (chars (decl_id r n)) = rev (chars n) ++ ":"%char :: ":"%char :: rev (chars r).
Proof.
  rewrite chars_decl_id, rev_app_distr. simpl. now rewrite <- !app_assoc.
Qed.

Lemma forallb_rev {A : Type} (p : A -> bool) (l : list A) :
  forallb p l = true -> forallb p (rev l) = true.
Proof.
  rewrite !forallb_forall. intros Hl x Hx. apply Hl. now apply in_rev.
Qed.

Lemma drop_ident_app (a rest : list ascii) :
  forallb ident_char a = true ->
  drop_ident (a ++ ":"%char :: rest) = ":"%char :: rest.
Proof.
  induction a as [|c a IH]; simpl; [reflexivity|].
  intros Hc. apply andb_prop in Hc. destruct Hc as [Hc Ha]. rewrite Hc. auto.
Qed.

Lemma file_prefix_decl_id (r n : string) :
  is_identifier n = true -> file_prefix (decl_id r n) = Some r.
Proof.
  intros Hn. unfold file_prefix. rewrite rev_chars_decl_id.
  rewrite drop_ident_app by (apply forallb_rev; exact Hn).
  rewrite rev_involutive. unfold chars. now rewrite string_of_list_ascii_of_string.
Qed.

Lemma decl_id_inj_name (r n1 n2 : string) : decl_id r n1 = decl_id r n2 -> n1 = n2.
Proof.
  intros E. apply (f_equal chars) in E. rewrite !chars_decl_id in E.
  apply app_inv_head in E. apply chars_inj. congruence.
Qed.

Lemma decl_id_inj (r1 n1 r2 n2 : string) :
  is_identifier n1 = true -> is_identifier n2 = true ->
  decl_id r1 n1 = decl_id r2 n2 -> r1 = r2 /\ n1 = n2.
Proof.
  intros H1 H2 E.
  assert (Er : r1 = r2).
  { pose proof (file_prefix_decl_id r1 n1 H1) as P1.
    pose proof (file_prefix_decl_id r2 n2 H2) as P2. congruence. }
  subst. split; [reflexivity | eapply decl_id_inj_name; eauto].
Qed.

Lemma starts_with_app (p x y : list ascii) :
  starts_with p x = true -> starts_with p (x ++ y) = true.
Proof.
  revert x. induction p as [|a p IH]; intros [|b x]; simpl; auto; [discriminate|].
  intros Hs. apply andb_prop in Hs. destruct Hs as [-> Hs]. simpl. auto.
Qed.

Lemma endswith_relpath_join (root fname suffix : string) :
  endswith fname suffix = true -> endswith (relpath_join root fname) suffix = true.
Proof.
  unfold relpath_join, endswith. destruct (String.eqb root ""); auto.
  intros Hs. rewrite !chars_append, !rev_app_distr, <- app_assoc.
  now apply starts_with_app.
Qed.

(** A declaration identifier never looks like a source file. *)
Lemma decl_id_not_py (r n : string) :
  is_identifier n = true -> endswith (decl_id r n) ".py" = false.
Proof.
  intros Hn. unfold endswith. rewrite rev_chars_decl_id.
  apply forallb_rev in Hn. fold (chars n) in Hn.
  change (rev (chars ".py")) with ["y"; "p"; "."]%char.
  destruct (rev (chars n)) as [|a [|b [|c l]]]; cbn [app starts_with forallb] in *.
  - reflexivity.
  - destruct (is_char "y" a); reflexivity.
  - destruct (is_char "y" a), (is_char "p" b); reflexivity.
  - destruct (is_char "." c) eqn:Ec.
    + apply Ascii.eqb_eq in Ec. subst c.
      change (ident_char ".") with false in Hn.
      rewrite !andb_false_r in Hn. discriminate.
    + destruct (is_char "y" a), (is_char "p" b); reflexivity.
Qed.

(** ** Graph operations *)

Lemma or_old_None {A : Type} (x : option A) : or_old x None = x.
Proof. now destruct x. Qed.

Lemma attrs_update_no_attrs (a : NodeAttrs) : attrs_update no_attrs a = a.
Proof. destruct a; unfold attrs_update; simpl. now rewrite !or_old_None. Qed.

Lemma node_get_add_node (g : DiGraph) (n id : string) (a : NodeAttrs) :
  node_get (add_node g n a) id =
  if String.eqb id n
  then Some (attrs_update (match node_get g n with Some o => o | None => no_attrs end) a)
  else node_get g id.
Proof. unfold node_get, add_node, node_update; simpl. now rewrite dict_get_set. Qed.

Lemma touch_node_present (n : string) (d : dict string NodeAttrs) :
  dict_get n d <> None -> touch_node n d = d.
Proof.
  unfold touch_node, dict_mem. destruct (dict_get n d); [reflexivity | congruence].
Qed.

Lemma g_node_add_edge (g : DiGraph) (u v l : string) :
  node_get g u <> None -> node_get g v <> None ->
  g_node (add_edge g u v l) = g_node g.
Proof.
  unfold node_get, add_edge; simpl. intros Hu Hv.
  rewrite (touch_node_present u) by exact Hu. now apply touch_node_present.
Qed.

Lemma edge_get_add_edge (g : DiGraph) (u v l u' v' : string) :
  edge_get (add_edge g u v l) u' v' =
  if keqb (u', v') (u, v) then Some l else edge_get g u' v'.
Proof. unfold edge_get, add_edge; simpl. now rewrite dict_get_set. Qed.

Lemma edge_get_add_edge_same (g : DiGraph) (u v l : string) :
  edge_get (add_edge g u v l) u v = Some l.
Proof. rewrite edge_get_add_edge. now rewrite keqb_refl. Qed.

Lemma edge_get_add_edge_cases (g : DiGraph) (u v l u' v' l' : string) :
  edge_get (add_edge g u v l) u' v' = Some l' ->
  (u' = u /\ v' = v /\ l' = l) \/ edge_get g u' v' = Some l'.
Proof.
  rewrite edge_get_add_edge. destruct (keqb_spec (u', v') (u, v)) as [E|_].
  - inversion E; subst. intros [= <-]. now left.
  - now right.
Qed.

Lemma edge_get_add_edge_mono (g : DiGraph) (u v l u' v' : string) :
  edge_get g u' v' <> None -> edge_get (add_edge g u v l) u' v' <> None.
Proof.
  rewrite edge_get_add_edge. destruct (keqb (u', v') (u, v)); [discriminate | auto].
Qed.

Lemma add_edge_adj_NoDup (g : DiGraph) (u v l : string) :
  NoDup (dict_keys (g_adj g)) -> NoDup (dict_keys (g_adj (add_edge g u v l))).
Proof. simpl. apply dict_set_NoDup. Qed.

(** ** Stage 1: discovery *)

Lemma collect_dir_inv (root fname : string) (st : DiGraph * list string) :
  collect_inv st -> collect_inv (collect_dir root st fname).
Proof.
  intros (Hin & Hout & Hadj & Hpy & Hnd). unfold collect_dir.
  destruct (endswith fname ".py") eqn:Epy; simpl; [|repeat split; assumption].
  set (rel := relpath_join root fname).
  repeat split; simpl.
  - intros id Hid. rewrite node_get_add_node.
    destruct (String.eqb_spec id rel) as [->|Hne].
    + destruct (node_get (fst st) rel) as [o|] eqn:Eo.
      * pose proof (Hin _ (Hout _ _ Eo)) as Eo'. rewrite Eo in Eo'.
        injection Eo' as ->. reflexivity.
      * now rewrite attrs_update_no_attrs.
    + apply in_app_or in Hid. destruct Hid as [Hid|[E|[]]]; [auto | congruence].
  - intros id a. rewrite node_get_add_node.
    destruct (String.eqb_spec id rel) as [->|Hne]; intros E; apply in_or_app.
    + right. now left.
    + left. eauto.
  - exact Hadj.
  - intros id Hid. apply in_app_or in Hid. destruct Hid as [Hid|[<-|[]]]; auto.
    now apply endswith_relpath_join.
  - now apply dict_set_NoDup.
Qed.

Lemma collect_loop_inv (walk : list (string * list string)) (st : DiGraph * list string) :
  collect_inv st -> collect_inv (collect_loop walk st).
Proof.
  intros Hst. unfold collect_loop. apply fold_left_ind; [exact Hst|].
  intros st1 [root fnames] _ H1. simpl. apply fold_left_ind; [exact H1|].
  intros st2 fname _ H2. now apply collect_dir_inv.
Qed.

Lemma collected_inv (fs : FileSystem) :
  collect_inv (graph (collected fs), discovered fs).
Proof.
  unfold collected, discovered, _collect_files; simpl.
  rewrite <- surjective_pairing. apply collect_loop_inv.
  repeat split; simpl; try tauto; try discriminate. constructor.
Qed.

Lemma collected_node (fs : FileSystem) (id : string) :
  In id (discovered fs) -> node_get (graph (collected fs)) id = Some (file_attrs id).
Proof. apply (collected_inv fs). Qed.

Lemma collected_node_inv (fs : FileSystem) (id : string) (a : NodeAttrs) :
  node_get (graph (collected fs)) id = Some a -> In id (discovered fs) /\ a = file_attrs id.
Proof.
  intros E. destruct (collected_inv fs) as (Hin & Hout & _).
  pose proof (Hout _ _ E) as Hd. simpl in *. split; [exact Hd|].
  rewrite (Hin _ Hd) in E. congruence.
Qed.

Lemma collected_no_edges (fs : FileSystem) : g_adj (graph (collected fs)) = [].
Proof. apply (collected_inv fs). Qed.

Lemma discovered_py (fs : FileSystem) (id : string) :
  In id (discovered fs) -> endswith id ".py" = true.
Proof. apply (collected_inv fs). Qed.

(** ** Stage 2: analysis *)

Lemma dict_keys_app {K V : Type} (d1 d2 : dict K V) :
  dict_keys (d1 ++ d2) = dict_keys d1 ++ dict_keys d2.
Proof. apply map_app. Qed.

Lemma index_loop_eq (fs : FileSystem) (items : dict string NodeAttrs) :
  forall fls : dict string ParsedFile,
    NoDup (dict_keys items) ->
    (forall id a, In (id, a) items -> is_file_node a = true) ->
    (forall id, In id (dict_keys items) -> ~ In id (dict_keys fls)) ->
    fold_left (index_file fs) items fls
    = fls ++ flat_map (parsed_entry fs) (dict_keys items).
Proof.
  induction items as [|[id a] items IH]; intros fls Hnd Hfile Hdisj; simpl.
  - now rewrite app_nil_r.
  - inversion Hnd as [|? ? Hni Hnd']; subst.
    rewrite (Hfile id a) by now left. simpl.
    assert (Hpe : parsed_entry fs id
                  = match read_parse fs id with
                    | Some tree => [(id, make_parsed_file id tree)]
                    | None => []
                    end) by reflexivity.
    rewrite Hpe. clear Hpe. destruct (read_parse fs id) as [tree|] eqn:Er.
    + rewrite dict_set_new by (apply dict_get_None, Hdisj; now left).
      rewrite IH; auto.
      * now rewrite <- app_assoc.
      * intros; eapply Hfile; right; eauto.
      * intros id' Hid'. rewrite dict_keys_app. intros Hin.
        apply in_app_or in Hin. destruct Hin as [Hin|[E|[]]].
        -- apply (Hdisj id'); [now right | exact Hin].
        -- simpl in E. subst. contradiction.
    + rewrite IH; auto.
      * intros; eapply Hfile; right; eauto.
      * intros id' Hid'. apply Hdisj. now right.
Qed.

Lemma collected_keys (fs : FileSystem) (id : string) :
  In id (dict_keys (g_node (graph (collected fs)))) <-> In id (discovered fs).
Proof.
  split; intros Hin.
  - destruct (node_get (graph (collected fs)) id) as [a|] eqn:E.
    + now apply collected_node_inv in E.
    + apply dict_get_None in E. contradiction.
  - apply collected_node in Hin. eapply dict_get_Some_key; eauto.
Qed.

Lemma collected_keys_NoDup (fs : FileSystem) :
  NoDup (dict_keys (g_node (graph (collected fs)))).
Proof. apply (collected_inv fs). Qed.

Lemma files_indexed (fs : FileSystem) :
  files (indexed fs)
  = flat_map (parsed_entry fs) (dict_keys (g_node (graph (collected fs)))).
Proof.
  unfold indexed, _index_files; simpl. unfold dict_items.
  change (files (collected fs)) with (@nil (string * ParsedFile)).
  rewrite index_loop_eq; auto.
  - apply collected_keys_NoDup.
  - intros id a Hin. apply In_dict_get in Hin; [|apply collected_keys_NoDup].
    apply collected_node_inv in Hin. destruct Hin as [_ ->]. reflexivity.
Qed.

Lemma keys_flat_map_parsed (fs : FileSystem) (l : list string) :
  dict_keys (flat_map (parsed_entry fs) l) = filter (is_parsed fs) l.
Proof.
  induction l as [|r l IH]; simpl; auto.
  rewrite dict_keys_app, IH. unfold parsed_entry, is_parsed.
  now destruct (read_parse fs r).
Qed.

(** The keys of [self.files]: the analyzed files, in the order in which
    their nodes were created. *)
Lemma files_keys (fs : FileSystem) :
  dict_keys (files (indexed fs))
  = filter (is_parsed fs) (dict_keys (g_node (graph (collected fs)))).
Proof. rewrite files_indexed. apply keys_flat_map_parsed. Qed.

Lemma files_keys_NoDup (fs : FileSystem) : NoDup (dict_keys (files (indexed fs))).
Proof. rewrite files_keys. apply NoDup_filter, collected_keys_NoDup. Qed.

Lemma files_In (fs : FileSystem) (r : string) (pf : ParsedFile) :
  In (r, pf) (files (indexed fs)) <->
  In r (discovered fs) /\ exists tree, read_parse fs r = Some tree /\ pf = make_parsed_file r tree.
Proof.
  rewrite files_indexed, in_flat_map. split.
  - intros (x & Hx & Hin). apply collected_keys in Hx. unfold parsed_entry in Hin.
    destruct (read_parse fs x) as [tree|] eqn:Er; [|contradiction].
    destruct Hin as [E|[]]. inversion E; subst. eauto.
  - intros (Hd & tree & Er & ->). exists r. split; [now apply collected_keys|].
    unfold parsed_entry. rewrite Er. now left.
Qed.

Lemma files_get (fs : FileSystem) (r : string) (pf : ParsedFile) :
  dict_get r (files (indexed fs)) = Some pf <-> In (r, pf) (files (indexed fs)).
Proof.
  split; [apply dict_get_In | apply In_dict_get, files_keys_NoDup].
Qed.

Lemma files_key_In (fs : FileSystem) (r : string) :
  In r (dict_keys (files (indexed fs))) <-> In r (discovered fs) /\ is_parsed fs r = true.
Proof. rewrite files_keys, filter_In, collected_keys. tauto. Qed.

Lemma files_key_py (fs : FileSystem) (r : string) :
  In r (dict_keys (files (indexed fs))) -> endswith r ".py" = true.
Proof. intros Hin. apply files_key_In in Hin. now apply (discovered_py fs). Qed.

(** *** The tables of a file record *)

Lemma index_stmt_functions (t : Tables) (stmt : ast) (f : string) :
  dict_get f (t_functions (index_stmt t stmt))
  = if is_function_named f stmt then Some stmt else dict_get f (t_functions t).
Proof.
  destruct stmt; simpl; try reflexivity.
  - now rewrite dict_get_set.
  - destruct module as [m|]; [now destruct (String.eqb m "") | reflexivity].
Qed.

Lemma index_stmt_classes (t : Tables) (stmt : ast) (c : string) :
  dict_get c (t_classes (index_stmt t stmt))
  = if is_class_named c stmt then Some stmt else dict_get c (t_classes t).
Proof.
  destruct stmt; simpl; try reflexivity.
  - now rewrite dict_get_set.
  - destruct module as [m|]; [now destruct (String.eqb m "") | reflexivity].
Qed.

Lemma index_loop_functions (body : list ast) (f : string) :
  forall t, dict_get f (t_functions (fold_left index_stmt body t))
            = match last_such (is_function_named f) body with
              | Some x => Some x
              | None => dict_get f (t_functions t)
              end.
Proof.
  induction body as [|stmt body IH]; intros t; simpl; auto.
  rewrite IH, index_stmt_functions.
  destruct (last_such (is_function_named f) body); auto.
  now destruct (is_function_named f stmt).
Qed.

Lemma index_loop_classes (body : list ast) (c : string) :
  forall t, dict_get c (t_classes (fold_left index_stmt body t))
            = match last_such (is_class_named c) body with
              | Some x => Some x
              | None => dict_get c (t_classes t)
              end.
Proof.
  induction body as [|stmt body IH]; intros t; simpl; auto.
  rewrite IH, index_stmt_classes.
  destruct (last_such (is_class_named c) body); auto.
  now destruct (is_class_named c stmt).
Qed.

(** The function table holds, for each name, its last top-level definition. *)
Lemma functions_last (rel : string) (tree : list ast) (f : string) :
  dict_get f (functions (make_parsed_file rel tree)) = last_such (is_function_named f) tree.
Proof.
  simpl. unfold index_body. rewrite index_loop_functions.
  now destruct (last_such (is_function_named f) tree).
Qed.

Lemma classes_last (rel : string) (tree : list ast) (c : string) :
  dict_get c (classes (make_parsed_file rel tree)) = last_such (is_class_named c) tree.
Proof.
  simpl. unfold index_body. rewrite index_loop_classes.
  now destruct (last_such (is_class_named c) tree).
Qed.

Lemma last_such_In (p : ast -> bool) (body : list ast) (x : ast) :
  last_such p body = Some x -> In x body /\ p x = true.
Proof.
  induction body as [|stmt body IH]; simpl; [discriminate|].
  destruct (last_such p body) as [y|].
  - intros [= <-]. destruct IH as [Hin Hp]; auto.
  - destruct (p stmt) eqn:Ep; [|discriminate]. intros [= <-]. auto.
Qed.

Lemma last_such_exists (p : ast -> bool) (body : list ast) (x : ast) :
  In x body -> p x = true -> last_such p body <> None.
Proof.
  induction body as [|stmt body IH]; simpl; [tauto|].
  intros [->|Hin] Hp.
  - destruct (last_such p body); [discriminate | now rewrite Hp].
  - specialize (IH Hin Hp). destruct (last_such p body); [discriminate | congruence].
Qed.

Lemma tables_NoDup (body : list ast) :
  forall t, NoDup (dict_keys (t_functions t)) -> NoDup (dict_keys (t_classes t)) ->
            NoDup (dict_keys (t_functions (fold_left index_stmt body t)))
            /\ NoDup (dict_keys (t_classes (fold_left index_stmt body t))).
Proof.
  induction body as [|stmt body IH]; intros t Hf Hc; simpl; auto.
  apply IH; destruct stmt; simpl; auto using dict_set_NoDup;
    destruct module as [m|]; auto; destruct (String.eqb m ""); auto.
Qed.

Lemma parsed_file_NoDup (rel : string) (tree : list ast) :
  NoDup (dict_keys (functions (make_parsed_file rel tree)))
  /\ NoDup (dict_keys (classes (make_parsed_file rel tree))).
Proof. simpl. apply tables_NoDup; constructor. Qed.

Lemma function_named_ok (f : string) (stmt : ast) :
  is_function_named f stmt = true -> stmt_names_ok stmt = true -> is_identifier f = true.
Proof.
  destruct stmt; simpl; try discriminate. intros E. apply String.eqb_eq in E. now subst.
Qed.

Lemma class_named_ok (c : string) (stmt : ast) :
  is_class_named c stmt = true -> stmt_names_ok stmt = true -> is_identifier c = true.
Proof.
  destruct stmt; simpl; try discriminate. intros E. apply String.eqb_eq in E. now subst.
Qed.

(** On a well-formed input every declared name is an identifier. *)
Lemma declared_identifier (rel : string) (tree : list ast) (n : string) :
  forallb stmt_names_ok tree = true ->
  declared (make_parsed_file rel tree) n = true -> is_identifier n = true.
Proof.
  intros Hok Hd. unfold declared, dict_mem in Hd.
  rewrite functions_last, classes_last in Hd. rewrite forallb_forall in Hok.
  destruct (last_such (is_class_named n) tree) as [x|] eqn:Ec.
  - apply last_such_In in Ec. destruct Ec as [Hin Hp].
    eapply class_named_ok; eauto.
  - destruct (last_such (is_function_named n) tree) as [x|] eqn:Ef; [|discriminate].
    apply last_such_In in Ef. destruct Ef as [Hin Hp].
    eapply function_named_ok; eauto.
Qed.

Lemma files_declared_identifier (fs : FileSystem) (r : string) (pf : ParsedFile) (n : string) :
  well_formed fs = true -> In (r, pf) (files (indexed fs)) ->
  declared pf n = true -> is_identifier n = true.
Proof.
  intros Hwf Hin Hd. apply files_In in Hin. destruct Hin as (HD & tree & Er & ->).
  unfold well_formed in Hwf. rewrite forallb_forall in Hwf.
  specialize (Hwf r HD). rewrite Er in Hwf. eapply declared_identifier; eauto.
Qed.

Lemma files_tables_NoDup (fs : FileSystem) (r : string) (pf : ParsedFile) :
  In (r, pf) (files (indexed fs)) ->
  NoDup (dict_keys (functions pf)) /\ NoDup (dict_keys (classes pf)).
Proof.
  intros Hin. apply files_In in Hin. destruct Hin as (_ & tree & _ & ->).
  apply parsed_file_NoDup.
Qed.

(** ** Stage 3: nodes *)

Lemma node_update_get (n id : string) (a : NodeAttrs) (d : dict string NodeAttrs) :
  dict_get id (node_update n a d)
  = if String.eqb id n
    then Some (attrs_update (match dict_get n d with Some o => o | None => no_attrs end) a)
    else dict_get id d.
Proof. unfold node_update. now rewrite dict_get_set. Qed.

Lemma node_update_present (n id : string) (a : NodeAttrs) (d : dict string NodeAttrs) :
  dict_get id d <> None -> dict_get id (node_update n a d) <> None.
Proof. rewrite node_update_get. destruct (String.eqb id n); [discriminate | auto]. Qed.

Lemma decl_fold_present (mk : string -> ast -> NodeAttrs) (r id : string)
      (items : dict string ast) (d : dict string NodeAttrs) :
  dict_get id d <> None -> dict_get id (decl_fold mk r items d) <> None.
Proof.
  intros Hd. unfold decl_fold. apply fold_left_ind; auto.
  intros d' it _ Hd'. now apply node_update_present.
Qed.

(** Other identifiers are left alone. *)
Lemma decl_fold_frame (mk : string -> ast -> NodeAttrs) (r id : string)
      (items : dict string ast) (d : dict string NodeAttrs) :
  (forall n, In n (dict_keys items) -> id <> decl_id r n) ->
  dict_get id (decl_fold mk r items d) = dict_get id d.
Proof.
  intros Hne. unfold decl_fold.
  apply (fold_left_ind (fun d' => dict_get id d' = dict_get id d)); auto.
  intros d' [n x] Hin E. rewrite node_update_get. simpl.
  destruct (String.eqb_spec id (decl_id r n)) as [Heq|_]; auto.
  exfalso. apply (Hne n); auto. now apply (in_map fst) in Hin.
Qed.

(** The node of a name in the table is updated once, with its entry. *)
Lemma decl_fold_get (mk : string -> ast -> NodeAttrs) (r n : string)
      (items : dict string ast) :
  forall d : dict string NodeAttrs,
    NoDup (dict_keys items) ->
    dict_get (decl_id r n) (decl_fold mk r items d)
    = match dict_get n items with
      | Some x =>
          Some (attrs_update
                  (match dict_get (decl_id r n) d with Some o => o | None => no_attrs end)
                  (mk n x))
      | None => dict_get (decl_id r n) d
      end.
Proof.
  induction items as [|[n' x] items IH]; intros d Hnd; simpl; auto.
  inversion Hnd as [|? ? Hni Hnd']; subst.
  change (fold_left _ items ?d0) with (decl_fold mk r items d0).
  destruct (keqb_spec n n') as [<-|Hne].
  - rewrite decl_fold_frame.
    + rewrite node_update_get. simpl. now rewrite !String.eqb_refl.
    + intros m Hm E. apply decl_id_inj_name in E. now subst.
  - rewrite IH by assumption. rewrite node_update_get. simpl.
    rewrite (proj2 (String.eqb_neq n n') Hne).
    destruct (String.eqb_spec (decl_id r n) (decl_id r n')) as [E|_]; auto.
    apply decl_id_inj_name in E. contradiction.
Qed.

Lemma add_class_nodes (r : string) (g : DiGraph) (item : string * ast) :
  node_get g r <> None ->
  g_node (add_class r g item)
  = node_update (decl_id r (fst item)) (class_attrs r (fst item) (snd item)) (g_node g).
Proof.
  destruct item as [c cn]. intros Hr. unfold add_class.
  rewrite g_node_add_edge; auto.
  - rewrite node_get_add_node. destruct (String.eqb r (decl_id r c)); [discriminate | auto].
  - rewrite node_get_add_node, String.eqb_refl. discriminate.
Qed.

Lemma add_function_nodes (r : string) (g : DiGraph) (item : string * ast) :
  node_get g r <> None ->
  g_node (add_function r g item)
  = node_update (decl_id r (fst item)) (function_attrs r (fst item) (snd item)) (g_node g).
Proof.
  destruct item as [f fn]. intros Hr. unfold add_function.
  rewrite g_node_add_edge; auto.
  - rewrite node_get_add_node. destruct (String.eqb r (decl_id r f)); [discriminate | auto].
  - rewrite node_get_add_node, String.eqb_refl. discriminate.
Qed.

Lemma first_match_In (keys : list string) (m t : string) :
  first_match keys m = Some t -> In t keys /\ basename t = (m ++ ".py")%string.
Proof.
  unfold first_match. intros E. apply find_some in E. destruct E as [Hin E].
  apply String.eqb_eq in E. auto.
Qed.

Lemma add_import_nodes (keys : list string) (r : string) (g : DiGraph) (m : string) :
  node_get g r <> None -> (forall k, In k keys -> node_get g k <> None) ->
  g_node (add_import keys r g m) = g_node g.
Proof.
  intros Hr Hk. unfold add_import. destruct (first_match keys m) as [t|] eqn:E; auto.
  apply first_match_In in E. apply g_node_add_edge; auto. apply Hk, E.
Qed.

Lemma fold_add_class_nodes (r : string) (items : dict string ast) :
  forall g, node_get g r <> None ->
            g_node (fold_left (add_class r) items g)
            = decl_fold (class_attrs r) r items (g_node g).
Proof.
  induction items as [|it items IH]; intros g Hr; simpl; auto.
  rewrite IH.
  - now rewrite add_class_nodes.
  - unfold node_get. rewrite add_class_nodes by assumption. now apply node_update_present.
Qed.

Lemma fold_add_function_nodes (r : string) (items : dict string ast) :
  forall g, node_get g r <> None ->
            g_node (fold_left (add_function r) items g)
            = decl_fold (function_attrs r) r items (g_node g).
Proof.
  induction items as [|it items IH]; intros g Hr; simpl; auto.
  rewrite IH.
  - now rewrite add_function_nodes.
  - unfold node_get. rewrite add_function_nodes by assumption. now apply node_update_present.
Qed.

Lemma fold_add_import_nodes (keys : list string) (r : string) (mods : list string) :
  forall g, node_get g r <> None -> (forall k, In k keys -> node_get g k <> None) ->
            g_node (fold_left (add_import keys r) mods g) = g_node g.
Proof.
  induction mods as [|m mods IH]; intros g Hr Hk; simpl; auto.
  pose proof (add_import_nodes keys r g m Hr Hk) as E.
  rewrite IH; unfold node_get in *; rewrite ?E; auto.
Qed.

Lemma file_nodes_present (item : string * ParsedFile) (id : string)
      (d : dict string NodeAttrs) :
  dict_get id d <> None -> dict_get id (file_nodes d item) <> None.
Proof. destruct item as [r pf]. intros Hd. now repeat apply decl_fold_present. Qed.

(** Adding a file changes the node table by the two declaration loops only. *)
Lemma add_file_nodes (keys : list string) (g : DiGraph) (item : string * ParsedFile) :
  In (fst item) keys -> (forall k, In k keys -> node_get g k <> None) ->
  g_node (add_file keys g item) = file_nodes (g_node g) item.
Proof.
  destruct item as [r pf]. simpl. intros Hr Hk.
  assert (Hr1 : node_get g r <> None) by auto.
  rewrite fold_add_import_nodes.
  - rewrite fold_add_function_nodes.
    + now rewrite fold_add_class_nodes.
    + unfold node_get. rewrite fold_add_class_nodes by assumption.
      now apply decl_fold_present.
  - unfold node_get. rewrite fold_add_function_nodes.
    + rewrite fold_add_class_nodes by assumption. now repeat apply decl_fold_present.
    + unfold node_get. rewrite fold_add_class_nodes by assumption.
      now apply decl_fold_present.
  - intros k Hin. unfold node_get. rewrite fold_add_function_nodes.
    + rewrite fold_add_class_nodes by assumption.
      repeat apply decl_fold_present. now apply Hk.
    + unfold node_get. rewrite fold_add_class_nodes by assumption.
      now apply decl_fold_present.
Qed.

Lemma fold_add_file_nodes (keys : list string) (l : list (string * ParsedFile)) :
  forall g, (forall it, In it l -> In (fst it) keys) ->
            (forall k, In k keys -> node_get g k <> None) ->
            g_node (fold_left (add_file keys) l g) = fold_left file_nodes l (g_node g).
Proof.
  induction l as [|it l IH]; intros g Hl Hk; simpl; auto.
  pose proof (add_file_nodes keys g it (Hl it (or_introl eq_refl)) Hk) as E.
  rewrite IH.
  - now rewrite E.
  - intros; apply Hl; now right.
  - intros k Hin. unfold node_get. rewrite E. now apply file_nodes_present, Hk.
Qed.

Lemma collected_files_present (fs : FileSystem) (k : string) :
  In k (dict_keys (files (indexed fs))) -> node_get (graph (collected fs)) k <> None.
Proof.
  intros Hin. apply files_key_In in Hin. destruct Hin as [Hd _].
  rewrite (collected_node fs k Hd). discriminate.
Qed.

(** The node table after stage 3. *)
Lemma built_nodes (fs : FileSystem) :
  g_node (graph (built fs))
  = fold_left file_nodes (files (indexed fs)) (g_node (graph (collected fs))).
Proof.
  unfold built, _add_nodes_and_edges; simpl. unfold dict_items.
  apply fold_add_file_nodes.
  - intros [r pf] Hin. simpl. now apply (in_map fst) in Hin.
  - apply collected_files_present.
Qed.

Lemma declared_keys (pf : ParsedFile) (n : string) :
  declared pf n = true <->
  In n (dict_keys (classes pf)) \/ In n (dict_keys (functions pf)).
Proof. unfold declared. now rewrite orb_true_iff, !dict_mem_keys. Qed.

Lemma file_nodes_frame (r : string) (pf : ParsedFile) (id : string)
      (d : dict string NodeAttrs) :
  (forall n, declared pf n = true -> id <> decl_id r n) ->
  dict_get id (file_nodes d (r, pf)) = dict_get id d.
Proof.
  intros Hne. simpl. rewrite !decl_fold_frame; auto;
    intros n Hn; apply Hne, declared_keys; auto.
Qed.

Lemma file_nodes_own (r : string) (pf : ParsedFile) (n : string)
      (d : dict string NodeAttrs) :
  NoDup (dict_keys (functions pf)) -> NoDup (dict_keys (classes pf)) ->
  dict_get (decl_id r n) d = None ->
  dict_get (decl_id r n) (file_nodes d (r, pf)) = decl_node r pf n.
Proof.
  intros Hf Hc Hd. simpl. rewrite !decl_fold_get by assumption. rewrite Hd.
  unfold decl_node. destruct (dict_get n (classes pf)); [|reflexivity].
  now rewrite attrs_update_no_attrs.
Qed.

Lemma fold_file_nodes_frame (l : list (string * ParsedFile)) (id : string)
      (d : dict string NodeAttrs) :
  (forall r pf n, In (r, pf) l -> declared pf n = true -> id <> decl_id r n) ->
  dict_get id (fold_left file_nodes l d) = dict_get id d.
Proof.
  intros Hne. apply (fold_left_ind (fun d' => dict_get id d' = dict_get id d)); auto.
  intros d' [r pf] Hin E. rewrite file_nodes_frame; eauto.
Qed.

Lemma fold_file_nodes_present (l : list (string * ParsedFile)) (id : string)
      (d : dict string NodeAttrs) :
  dict_get id d <> None -> dict_get id (fold_left file_nodes l d) <> None.
Proof.
  intros Hd. apply fold_left_ind; auto. intros; now apply file_nodes_present.
Qed.

Lemma decl_fold_sound (mk : string -> ast -> NodeAttrs) (r id : string)
      (items : dict string ast) (d : dict string NodeAttrs) :
  dict_get id (decl_fold mk r items d) <> None ->
  dict_get id d <> None \/ exists n, In n (dict_keys items) /\ id = decl_id r n.
Proof.
  unfold decl_fold.
  apply (fold_left_ind
           (fun d' => dict_get id d' <> None ->
                      dict_get id d <> None
                      \/ exists n, In n (dict_keys items) /\ id = decl_id r n)); auto.
  intros d' [n x] Hin IH. rewrite node_update_get. simpl.
  destruct (String.eqb_spec id (decl_id r n)) as [->|_]; auto.
  intros _. right. exists n. split; auto. now apply (in_map fst) in Hin.
Qed.

Lemma fold_file_nodes_sound (l : list (string * ParsedFile)) (id : string)
      (d : dict string NodeAttrs) :
  dict_get id (fold_left file_nodes l d) <> None ->
  dict_get id d <> None
  \/ exists r pf n, In (r, pf) l /\ declared pf n = true /\ id = decl_id r n.
Proof.
  apply (fold_left_ind
           (fun d' => dict_get id d' <> None ->
                      dict_get id d <> None
                      \/ exists r pf n, In (r, pf) l /\ declared pf n = true
                                        /\ id = decl_id r n)); auto.
  intros d' [r pf] Hin IH Hd. simpl in Hd.
  apply decl_fold_sound in Hd. destruct Hd as [Hd|(n & Hn & ->)].
  - apply decl_fold_sound in Hd. destruct Hd as [Hd|(n & Hn & ->)]; auto.
    right. exists r, pf, n. repeat split; auto. apply declared_keys. auto.
  - right. exists r, pf, n. repeat split; auto. apply declared_keys. auto.
Qed.

(** Every node is a discovered file or a declaration of an analyzed file. *)
Lemma built_node_sound (fs : FileSystem) (id : string) :
  node_get (graph (built fs)) id <> None ->
  In id (discovered fs)
  \/ exists r pf n, In (r, pf) (files (indexed fs)) /\ declared pf n = true
                    /\ id = decl_id r n.
Proof.
  unfold node_get. rewrite built_nodes. intros Hd.
  apply fold_file_nodes_sound in Hd. destruct Hd as [Hd|Hd]; auto.
  left. destruct (dict_get id (g_node (graph (collected fs)))) as [a|] eqn:E; [|congruence].
  now apply collected_node_inv in E.
Qed.

Lemma py_not_decl (fs : FileSystem) (id r n : string) (pf : ParsedFile) :
  well_formed fs = true -> endswith id ".py" = true ->
  In (r, pf) (files (indexed fs)) -> declared pf n = true -> id <> decl_id r n.
Proof.
  intros Hwf Hpy Hin Hd ->.
  rewrite decl_id_not_py in Hpy; [discriminate|].
  eapply files_declared_identifier; eauto.
Qed.

(** File nodes keep the attributes they were created with. *)
Lemma built_node_file (fs : FileSystem) (id : string) :
  well_formed fs = true -> In id (discovered fs) ->
  node_get (graph (built fs)) id = Some (file_attrs id).
Proof.
  intros Hwf Hd. unfold node_get. rewrite built_nodes, fold_file_nodes_frame.
  - now apply collected_node.
  - intros r pf n Hin Hdecl. eapply py_not_decl; eauto. now apply (discovered_py fs).
Qed.

Lemma NoDup_keys_split {V : Type} (l1 l2 : dict string V) (r : string) (v : V) :
  NoDup (dict_keys (l1 ++ (r, v) :: l2)) ->
  (forall r' v', In (r', v') l1 -> r' <> r) /\ (forall r' v', In (r', v') l2 -> r' <> r).
Proof.
  rewrite dict_keys_app. simpl. intros Hnd. apply NoDup_remove_2 in Hnd.
  split; intros r' v' Hin ->; apply Hnd, in_or_app; [left|right];
    now apply (in_map fst) in Hin.
Qed.

Lemma fold_file_nodes_own (l : list (string * ParsedFile)) (d : dict string NodeAttrs)
      (r : string) (pf : ParsedFile) (n : string) :
  NoDup (dict_keys l) -> In (r, pf) l ->
  NoDup (dict_keys (functions pf)) -> NoDup (dict_keys (classes pf)) ->
  dict_get (decl_id r n) d = None ->
  (forall r' pf' n', In (r', pf') l -> r' <> r -> declared pf' n' = true ->
                     decl_id r n <> decl_id r' n') ->
  dict_get (decl_id r n) (fold_left file_nodes l d) = decl_node r pf n.
Proof.
  intros Hnd Hin Hf Hc Hd Hother.
  destruct (in_split _ _ Hin) as (l1 & l2 & ->).
  apply NoDup_keys_split in Hnd. destruct Hnd as [H1 H2].
  rewrite fold_left_app. simpl. rewrite fold_file_nodes_frame.
  - apply file_nodes_own; auto. rewrite fold_file_nodes_frame; auto.
    intros r' pf' n' Hin' Hd'. apply (Hother r' pf' n'); eauto.
    apply in_or_app. now left.
  - intros r' pf' n' Hin' Hd'. apply (Hother r' pf' n'); eauto.
    apply in_or_app. right. now right.
Qed.

(** The node of a declaration is written by its own file only. *)
Lemma built_node_decl (fs : FileSystem) (r : string) (pf : ParsedFile) (n : string) :
  well_formed fs = true -> In (r, pf) (files (indexed fs)) -> is_identifier n = true ->
  node_get (graph (built fs)) (decl_id r n) = decl_node r pf n.
Proof.
  intros Hwf Hin Hn. unfold node_get. rewrite built_nodes.
  destruct (files_tables_NoDup fs r pf Hin) as [Hf Hc].
  apply fold_file_nodes_own; auto.
  - apply files_keys_NoDup.
  - destruct (dict_get (decl_id r n) (g_node (graph (collected fs)))) as [a|] eqn:Ea; auto.
    apply collected_node_inv in Ea. destruct Ea as [Hd _].
    apply (discovered_py fs) in Hd. rewrite decl_id_not_py in Hd; [discriminate | auto].
  - intros r' pf' n' Hin' Hne Hd' Eid. apply decl_id_inj in Eid; auto.
    + destruct Eid. congruence.
    + eapply files_declared_identifier; eauto.
Qed.

(** The declarations of a file have their nodes, on any input. *)
Lemma built_decl_present (fs : FileSystem) (r : string) (pf : ParsedFile) (n : string) :
  In (r, pf) (files (indexed fs)) -> declared pf n = true ->
  node_get (graph (built fs)) (decl_id r n) <> None.
Proof.
  intros Hin Hd. unfold node_get. rewrite built_nodes.
  destruct (files_tables_NoDup fs r pf Hin) as [Hf Hc].
  destruct (in_split _ _ Hin) as (l1 & l2 & ->).
  rewrite fold_left_app. simpl fold_left at 1.
  apply fold_file_nodes_present.
  simpl. unfold declared, dict_mem in Hd.
  destruct (dict_get n (functions pf)) as [f|] eqn:Ef.
  - rewrite decl_fold_get, Ef by assumption. discriminate.
  - apply decl_fold_present. rewrite decl_fold_get by assumption.
    destruct (dict_get n (classes pf)); [discriminate|]. simpl in Hd. discriminate.
Qed.

(** ** Stage 4 leaves the nodes alone *)

Lemma resolve_sub_nodes (r : string) (lf : dict string ast) (caller : string)
      (g : DiGraph) (sub : ast) :
  node_get g caller <> None ->
  (forall t, dict_mem t lf = true -> node_get g (decl_id r t) <> None) ->
  g_node (resolve_sub r lf caller g sub) = g_node g.
Proof.
  intros Hc Ht. unfold resolve_sub.
  destruct sub as [| func args | | | | |]; auto.
  destruct func; auto.
  destruct (dict_mem id lf) eqn:E; auto.
  apply g_node_add_edge; auto.
Qed.

Lemma resolve_file_nodes (fs : FileSystem) (g : DiGraph) (item : string * ParsedFile) :
  In item (files (indexed fs)) ->
  g_node g = g_node (graph (built fs)) ->
  g_node (resolve_file g item) = g_node (graph (built fs)).
Proof.
  destruct item as [r pf]. intros Hin Hg. simpl.
  assert (Hpres : forall t, dict_mem t (functions pf) = true ->
                            node_get (graph (built fs)) (decl_id r t) <> None).
  { intros t Ht. eapply built_decl_present; eauto.
    unfold declared. rewrite Ht. apply orb_true_r. }
  apply (fold_left_ind (fun g' => g_node g' = g_node (graph (built fs)))); auto.
  intros g1 [f fn] Hf H1. simpl.
  apply (fold_left_ind (fun g' => g_node g' = g_node (graph (built fs)))); auto.
  intros g2 sub _ H2. rewrite resolve_sub_nodes; auto; unfold node_get; rewrite H2.
  - apply Hpres. apply dict_mem_keys. now apply (in_map fst) in Hf.
  - apply Hpres.
Qed.

Lemma run_parse_nodes (fs : FileSystem) :
  g_node (graph (run_parse fs)) = g_node (graph (built fs)).
Proof.
  unfold run_parse, _resolve_calls_basic; simpl.
  apply (fold_left_ind (fun g' => g_node g' = g_node (graph (built fs)))); auto.
  intros g item Hin Hg. now apply (resolve_file_nodes fs).
Qed.

Lemma parse_node_get (fs : FileSystem) (id : string) :
  node_get (parse fs) id = node_get (graph (built fs)) id.
Proof. unfold parse, node_get. now rewrite run_parse_nodes. Qed.

(** ** Edges: every edge is one of the three kinds *)

Lemma add_class_sound (fs : FileSystem) (r : string) (pf : ParsedFile)
      (g : DiGraph) (item : string * ast) :
  In (r, pf) (files (indexed fs)) -> In item (classes pf) ->
  edges_sound fs g -> edges_sound fs (add_class r g item).
Proof.
  destruct item as [c cn]. intros Hin Hc Hg u v l E. unfold add_class in E.
  apply edge_get_add_edge_cases in E. destruct E as [(-> & -> & ->)|E]; [|now apply Hg].
  left. split; auto. exists pf, c. repeat split; auto.
  apply declared_keys. left. now apply (in_map fst) in Hc.
Qed.

Lemma add_function_sound (fs : FileSystem) (r : string) (pf : ParsedFile)
      (g : DiGraph) (item : string * ast) :
  In (r, pf) (files (indexed fs)) -> In item (functions pf) ->
  edges_sound fs g -> edges_sound fs (add_function r g item).
Proof.
  destruct item as [f fn]. intros Hin Hf Hg u v l E. unfold add_function in E.
  apply edge_get_add_edge_cases in E. destruct E as [(-> & -> & ->)|E]; [|now apply Hg].
  left. split; auto. exists pf, f. repeat split; auto.
  apply declared_keys. right. now apply (in_map fst) in Hf.
Qed.

Lemma add_import_sound (fs : FileSystem) (r : string) (pf : ParsedFile)
      (g : DiGraph) (m : string) :
  In (r, pf) (files (indexed fs)) -> In m (referenced_modules pf) ->
  edges_sound fs g ->
  edges_sound fs (add_import (dict_keys (files (indexed fs))) r g m).
Proof.
  intros Hin Hm Hg u v l E. unfold add_import in E.
  destruct (first_match (dict_keys (files (indexed fs))) m) as [t|] eqn:Et; [|now apply Hg].
  apply edge_get_add_edge_cases in E. destruct E as [(-> & -> & ->)|E]; [|now apply Hg].
  right. left. split; auto. exists pf, m. auto.
Qed.

Lemma add_file_sound (fs : FileSystem) (g : DiGraph) (item : string * ParsedFile) :
  In item (files (indexed fs)) ->
  edges_sound fs g ->
  edges_sound fs (add_file (dict_keys (files (indexed fs))) g item).
Proof.
  destruct item as [r pf]. intros Hin Hg. simpl.
  apply fold_left_ind; [apply fold_left_ind; [apply fold_left_ind|]|]; auto.
  - intros; eapply add_class_sound; eauto.
  - intros; eapply add_function_sound; eauto.
  - intros; eapply add_import_sound; eauto.
Qed.

Lemma built_sound (fs : FileSystem) : edges_sound fs (graph (built fs)).
Proof.
  unfold built, _add_nodes_and_edges; cbn [graph]. apply fold_left_ind.
  - intros u v l. unfold edge_get.
    change (graph (indexed fs)) with (graph (collected fs)).
    rewrite collected_no_edges. discriminate.
  - intros; now apply add_file_sound.
Qed.

Lemma resolve_sub_sound (fs : FileSystem) (r : string) (pf : ParsedFile)
      (f : string) (fnode : ast) (g : DiGraph) (sub : ast) :
  In (r, pf) (files (indexed fs)) -> In (f, fnode) (functions pf) ->
  In sub (walk fnode) ->
  edges_sound fs g ->
  edges_sound fs (resolve_sub r (functions pf) (decl_id r f) g sub).
Proof.
  intros Hin Hf Hsub Hg. unfold resolve_sub.
  destruct sub as [| func args | | | | |]; auto.
  destruct func as [t | | | | | |]; auto.
  destruct (dict_mem t (functions pf)) eqn:Et; auto.
  intros u v l E.
  apply edge_get_add_edge_cases in E. destruct E as [(-> & -> & ->)|E]; [|now apply Hg].
  right. right. split; auto. exists r, pf, f, fnode, t, args. auto 10.
Qed.

Lemma resolve_file_sound (fs : FileSystem) (g : DiGraph) (item : string * ParsedFile) :
  In item (files (indexed fs)) -> edges_sound fs g -> edges_sound fs (resolve_file g item).
Proof.
  destruct item as [r pf]. intros Hin Hg. simpl.
  apply fold_left_ind; auto. intros g1 [f fnode] Hf H1. simpl.
  apply fold_left_ind; auto. intros g2 sub Hsub H2.
  eapply resolve_sub_sound; eauto.
Qed.

Lemma parse_sound (fs : FileSystem) : edges_sound fs (parse fs).
Proof.
  unfold parse, run_parse, _resolve_calls_basic; cbn [graph]. apply fold_left_ind.
  - apply built_sound.
  - intros; now apply resolve_file_sound.
Qed.

(** ** Edges: every edge of the three kinds is there *)

Lemma fold_left_establish {A B : Type} (Q : A -> Prop) (f : A -> B -> A)
      (l : list B) (x : B) (a : A) :
  In x l -> (forall a, Q (f a x)) -> (forall a y, Q a -> Q (f a y)) ->
  Q (fold_left f l a).
Proof.
  intros Hin Hx Hmono. destruct (in_split _ _ Hin) as (l1 & l2 & ->).
  rewrite fold_left_app. simpl. apply fold_left_ind; auto.
Qed.

Lemma fold_left_keeps {A B : Type} (Q : A -> Prop) (f : A -> B -> A)
      (l : list B) (a : A) :
  (forall a y, Q a -> Q (f a y)) -> Q a -> Q (fold_left f l a).
Proof. intros Hmono Ha. apply fold_left_ind; auto. Qed.

Lemma keys_In_item {V : Type} (n : string) (d : dict string V) :
  In n (dict_keys d) -> exists x, In (n, x) d.
Proof.
  unfold dict_keys. rewrite in_map_iff. intros ([n' x] & E & Hin). simpl in E. subst.
  eauto.
Qed.

Section EdgeKept.
Variables u v : string.

Lemma add_class_keeps (r : string) (g : DiGraph) (item : string * ast) :
  has_edge u v g -> has_edge u v (add_class r g item).
Proof. destruct item. intros E. now apply edge_get_add_edge_mono. Qed.

Lemma add_function_keeps (r : string) (g : DiGraph) (item : string * ast) :
  has_edge u v g -> has_edge u v (add_function r g item).
Proof. destruct item. intros E. now apply edge_get_add_edge_mono. Qed.

Lemma add_import_keeps (keys : list string) (r : string) (g : DiGraph) (m : string) :
  has_edge u v g -> has_edge u v (add_import keys r g m).
Proof.
  intros E. unfold add_import. destruct (first_match keys m); auto.
  now apply edge_get_add_edge_mono.
Qed.

Lemma add_file_keeps (keys : list string) (g : DiGraph) (item : string * ParsedFile) :
  has_edge u v g -> has_edge u v (add_file keys g item).
Proof.
  destruct item as [r pf]. intros E. simpl.
  apply fold_left_keeps; [intros; now apply add_import_keeps|].
  apply fold_left_keeps; [intros; now apply add_function_keeps|].
  apply fold_left_keeps; [intros; now apply add_class_keeps|]. exact E.
Qed.

Lemma resolve_sub_keeps (r : string) (lf : dict string ast) (caller : string)
      (g : DiGraph) (sub : ast) :
  has_edge u v g -> has_edge u v (resolve_sub r lf caller g sub).
Proof.
  intros E. unfold resolve_sub.
  destruct sub as [| func args | | | | |]; auto.
  destruct func; auto. destruct (dict_mem id lf); auto.
  now apply edge_get_add_edge_mono.
Qed.

Lemma resolve_function_keeps (r : string) (lf : dict string ast)
      (g : DiGraph) (item : string * ast) :
  has_edge u v g -> has_edge u v (resolve_function r lf g item).
Proof.
  destruct item as [f fn]. intros E. simpl.
  apply fold_left_keeps; auto. intros; now apply resolve_sub_keeps.
Qed.

Lemma resolve_file_keeps (g : DiGraph) (item : string * ParsedFile) :
  has_edge u v g -> has_edge u v (resolve_file g item).
Proof.
  destruct item as [r pf]. intros E. simpl.
  apply fold_left_keeps; auto. intros; now apply resolve_function_keeps.
Qed.

Lemma resolve_keeps (fs : FileSystem) : has_edge u v (graph (built fs)) -> has_edge u v (parse fs).
Proof.
  intros E. unfold parse, run_parse, _resolve_calls_basic; cbn [graph].
  apply fold_left_keeps; auto. intros; now apply resolve_file_keeps.
Qed.
End EdgeKept.

Lemma add_file_defined_in (keys : list string) (g : DiGraph) (r : string)
      (pf : ParsedFile) (n : string) :
  declared pf n = true -> has_edge r (decl_id r n) (add_file keys g (r, pf)).
Proof.
  intros Hd. apply declared_keys in Hd. simpl.
  apply fold_left_keeps; [intros; now apply add_import_keeps|].
  destruct Hd as [Hc|Hf].
  - apply fold_left_keeps; [intros; now apply add_function_keeps|].
    apply keys_In_item in Hc. destruct Hc as [cn Hc].
    apply (fold_left_establish _ _ _ (n, cn)); auto.
    + intros g'. unfold has_edge, add_class. rewrite edge_get_add_edge_same. discriminate.
    + intros; now apply add_class_keeps.
  - apply keys_In_item in Hf. destruct Hf as [fn Hf].
    apply (fold_left_establish _ _ _ (n, fn)); auto.
    + intros g'. unfold has_edge, add_function. rewrite edge_get_add_edge_same. discriminate.
    + intros; now apply add_function_keeps.
Qed.

Lemma add_file_file_import (keys : list string) (g : DiGraph) (r : string)
      (pf : ParsedFile) (m t : string) :
  In m (referenced_modules pf) -> first_match keys m = Some t ->
  has_edge r t (add_file keys g (r, pf)).
Proof.
  intros Hm Ht. simpl. apply (fold_left_establish _ _ _ m); auto.
  - intros g'. unfold has_edge, add_import. rewrite Ht, edge_get_add_edge_same. discriminate.
  - intros; now apply add_import_keeps.
Qed.

Lemma defined_in_exists (fs : FileSystem) (u v : string) :
  is_defined_in fs u v -> edge_get (parse fs) u v <> None.
Proof.
  intros (pf & n & Hin & Hd & ->). apply resolve_keeps.
  unfold built, _add_nodes_and_edges; cbn [graph files].
  apply (fold_left_establish _ _ _ (u, pf)); auto.
  - intros g. now apply add_file_defined_in.
  - intros; now apply add_file_keeps.
Qed.

Lemma file_import_exists (fs : FileSystem) (u v : string) :
  is_file_import fs u v -> edge_get (parse fs) u v <> None.
Proof.
  intros (pf & m & Hin & Hm & Ht). apply resolve_keeps.
  unfold built, _add_nodes_and_edges; cbn [graph files].
  apply (fold_left_establish _ _ _ (u, pf)); auto.
  - intros g. eapply add_file_file_import; eauto.
  - intros; now apply add_file_keeps.
Qed.

Lemma call_exists (fs : FileSystem) (u v : string) :
  is_call fs u v -> edge_get (parse fs) u v <> None.
Proof.
  intros (r & pf & f & fnode & t & args & Hin & Hf & Hsub & Ht & -> & ->).
  unfold parse, run_parse, _resolve_calls_basic; cbn [graph files].
  apply (fold_left_establish (has_edge (decl_id r f) (decl_id r t)) _ _ (r, pf)); auto.
  - intros g. simpl.
    apply (fold_left_establish (has_edge (decl_id r f) (decl_id r t)) _ _ (f, fnode)); auto.
    + intros g1. simpl.
      apply (fold_left_establish (has_edge (decl_id r f) (decl_id r t))
                                 _ _ (Call (Name t) args)); auto.
      * intros g2. unfold has_edge. simpl. rewrite Ht, edge_get_add_edge_same. discriminate.
      * intros; now apply resolve_sub_keeps.
    + intros; now apply resolve_function_keeps.
  - intros; now apply resolve_file_keeps.
Qed.

(** ** Edges: the kind of an edge is read off its end points *)

Lemma files_In_key (fs : FileSystem) (r : string) (pf : ParsedFile) :
  In (r, pf) (files (indexed fs)) -> In r (dict_keys (files (indexed fs))).
Proof. intros Hin. now apply (in_map fst) in Hin. Qed.

Lemma defined_in_shape (fs : FileSystem) (u v : string) :
  well_formed fs = true -> is_defined_in fs u v ->
  endswith u ".py" = true /\ endswith v ".py" = false.
Proof.
  intros Hwf (pf & n & Hin & Hd & ->). split.
  - now apply (files_key_py fs), files_In_key with pf.
  - apply decl_id_not_py. eapply files_declared_identifier; eauto.
Qed.

Lemma file_import_shape (fs : FileSystem) (u v : string) :
  is_file_import fs u v -> endswith u ".py" = true /\ endswith v ".py" = true.
Proof.
  intros (pf & m & Hin & Hm & Ht). split.
  - now apply (files_key_py fs), files_In_key with pf.
  - apply first_match_In in Ht. now apply (files_key_py fs).
Qed.

Lemma call_shape (fs : FileSystem) (u v : string) :
  well_formed fs = true -> is_call fs u v -> endswith u ".py" = false.
Proof.
  intros Hwf (r & pf & f & fnode & t & args & Hin & Hf & _ & _ & -> & _).
  apply decl_id_not_py. eapply files_declared_identifier; eauto.
  apply declared_keys. right. now apply (in_map fst) in Hf.
Qed.

Lemma edge_defined_in (fs : FileSystem) (u v : string) :
  well_formed fs = true -> is_defined_in fs u v ->
  edge_get (parse fs) u v = Some "defined_in".
Proof.
  intros Hwf Hd. pose proof (defined_in_exists fs u v Hd) as Hex.
  destruct (edge_get (parse fs) u v) as [l|] eqn:E; [|congruence].
  destruct (defined_in_shape fs u v Hwf Hd) as [Hu Hv].
  destruct (parse_sound fs u v l E) as [[-> _]|[[_ Hi]|[_ Hc]]]; auto.
  - apply file_import_shape in Hi. destruct Hi. congruence.
  - apply call_shape in Hc; auto. congruence.
Qed.

Lemma edge_file_import (fs : FileSystem) (u v : string) :
  well_formed fs = true -> is_file_import fs u v ->
  edge_get (parse fs) u v = Some "file_import".
Proof.
  intros Hwf Hi. pose proof (file_import_exists fs u v Hi) as Hex.
  destruct (edge_get (parse fs) u v) as [l|] eqn:E; [|congruence].
  destruct (file_import_shape fs u v Hi) as [Hu Hv].
  destruct (parse_sound fs u v l E) as [[_ Hd]|[[-> _]|[_ Hc]]]; auto.
  - apply defined_in_shape in Hd; auto. destruct Hd. congruence.
  - apply call_shape in Hc; auto. congruence.
Qed.

Lemma edge_call (fs : FileSystem) (u v : string) :
  well_formed fs = true -> is_call fs u v ->
  edge_get (parse fs) u v = Some "calls".
Proof.
  intros Hwf Hc. pose proof (call_exists fs u v Hc) as Hex.
  destruct (edge_get (parse fs) u v) as [l|] eqn:E; [|congruence].
  pose proof (call_shape fs u v Hwf Hc) as Hu.
  destruct (parse_sound fs u v l E) as [[_ Hd]|[[_ Hi]|[-> _]]]; auto.
  - apply defined_in_shape in Hd; auto. destruct Hd. congruence.
  - apply file_import_shape in Hi. destruct Hi. congruence.
Qed.

(** The edges of the finished graph, exactly. *)
Lemma parse_edges (fs : FileSystem) (u v l : string) :
  well_formed fs = true ->
  (edge_get (parse fs) u v = Some l <-> edge_spec fs u v l).
Proof.
  intros Hwf. split; [apply parse_sound|].
  intros [[-> H]|[[-> H]|[-> H]]];
    auto using edge_defined_in, edge_file_import, edge_call.
Qed.

(** The nodes of the finished graph, exactly. *)
Lemma parse_node_file (fs : FileSystem) (id : string) :
  well_formed fs = true -> In id (discovered fs) ->
  node_get (parse fs) id = Some (file_attrs id).
Proof. intros. rewrite parse_node_get. now apply built_node_file. Qed.

Lemma parse_node_decl (fs : FileSystem) (r : string) (pf : ParsedFile) (n : string) :
  well_formed fs = true -> In (r, pf) (files (indexed fs)) -> is_identifier n = true ->
  node_get (parse fs) (decl_id r n) = decl_node r pf n.
Proof. intros. rewrite parse_node_get. now apply built_node_decl. Qed.

Lemma parse_node_cases (fs : FileSystem) (id : string) (a : NodeAttrs) :
  well_formed fs = true -> node_get (parse fs) id = Some a ->
  (In id (discovered fs) /\ a = file_attrs id)
  \/ exists r pf n, In (r, pf) (files (indexed fs)) /\ declared pf n = true
                    /\ id = decl_id r n /\ decl_node r pf n = Some a.
Proof.
  intros Hwf E.
  assert (Hs : node_get (graph (built fs)) id <> None)
    by (rewrite <- parse_node_get, E; discriminate).
  apply built_node_sound in Hs. destruct Hs as [Hd|(r & pf & n & Hin & Hd & ->)].
  - left. split; auto. rewrite parse_node_file in E; congruence.
  - right. exists r, pf, n. repeat split; auto.
    rewrite parse_node_decl with (pf := pf) in E; auto.
    eapply files_declared_identifier; eauto.
Qed.

(** ** The iteration order of the file set *)

Lemma find_app_or {A : Type} (p : A -> bool) (l1 l2 : list A) :
  find p (l1 ++ l2) = match find p l1 with Some y => Some y | None => find p l2 end.
Proof.
  induction l1 as [|x l1 IH]; simpl; auto. now destruct (p x).
Qed.

Lemma find_filter {A : Type} (p q : A -> bool) (l : list A) :
  find p (filter q l) = find (fun x => q x && p x) l.
Proof.
  induction l as [|x l IH]; simpl; auto.
  destruct (q x); simpl; auto. now destruct (p x).
Qed.

Lemma dedup_snoc (l : list string) (x : string) :
  dedup (l ++ [x]) = dedup_step (dedup l) x.
Proof. unfold dedup. now rewrite fold_left_app. Qed.

Lemma existsb_eqb_In (x : string) (l : list string) :
  existsb (String.eqb x) l = true <-> In x l.
Proof.
  rewrite existsb_exists. split.
  - intros (y & Hin & E). apply String.eqb_eq in E. now subst.
  - intros Hin. exists x. split; auto. apply String.eqb_refl.
Qed.

Lemma find_dedup (p : string -> bool) (l : list string) :
  find p (dedup l) = find p l.
Proof.
  induction l as [|x l IH] using rev_ind; auto.
  rewrite dedup_snoc, find_app_or. unfold dedup_step.
  destruct (existsb (String.eqb x) (dedup l)) eqn:Ex.
  - rewrite IH. destruct (find p l) eqn:Ef; auto.
    apply existsb_eqb_In in Ex.
    simpl. now rewrite (find_none _ _ IH x Ex).
  - rewrite find_app_or, IH. reflexivity.
Qed.

Lemma dict_keys_set_step {V : Type} (k : string) (v : V) (d : dict string V) :
  dict_keys (dict_set k v d) = dedup_step (dict_keys d) k.
Proof.
  unfold dedup_step. induction d as [|[k' v'] d IH]; simpl; auto.
  destruct (String.eqb_spec k k') as [->|Hne]; simpl; auto.
  rewrite IH. now destruct (existsb (String.eqb k) (dict_keys d)).
Qed.

Lemma collect_dir_order (root fname : string) (st : DiGraph * list string) :
  dict_keys (g_node (fst st)) = dedup (snd st) ->
  dict_keys (g_node (fst (collect_dir root st fname)))
  = dedup (snd (collect_dir root st fname)).
Proof.
  intros E. unfold collect_dir. destruct (endswith fname ".py"); simpl; auto.
  unfold node_update. now rewrite dict_keys_set_step, dedup_snoc, E.
Qed.

Lemma collected_order (fs : FileSystem) :
  dict_keys (g_node (graph (collected fs))) = dedup (discovered fs).
Proof.
  unfold collected, discovered, _collect_files, collect_loop; simpl.
  apply (fold_left_ind (fun st => dict_keys (g_node (fst st)) = dedup (snd st))); auto.
  intros st1 [root fnames] _ H1. simpl.
  apply (fold_left_ind (fun st => dict_keys (g_node (fst st)) = dedup (snd st))); auto.
  intros st2 fname _ H2. now apply collect_dir_order.
Qed.

(** [self.files] lists the analyzed files in discovery order, so the first
    match of the import loop is the first analyzed file discovered under
    the wanted name. *)
Lemma first_match_analyzed (fs : FileSystem) (m : string) :
  first_match (dict_keys (files (indexed fs))) m = first_analyzed_match fs m.
Proof.
  unfold first_match, first_analyzed_match.
  now rewrite files_keys, find_filter, collected_order, find_dedup.
Qed.

(** ** The edge table has one entry per pair of end points *)

Lemma add_file_adj_NoDup (keys : list string) (g : DiGraph) (item : string * ParsedFile) :
  NoDup (dict_keys (g_adj g)) -> NoDup (dict_keys (g_adj (add_file keys g item))).
Proof.
  destruct item as [r pf]. intros Hg. simpl.
  apply fold_left_ind; [apply fold_left_ind; [apply fold_left_ind|]|]; auto.
  - intros g' [c cn] _ Hg'. now apply add_edge_adj_NoDup.
  - intros g' [f fn] _ Hg'. now apply add_edge_adj_NoDup.
  - intros g' m _ Hg'. unfold add_import. destruct (first_match keys m); auto.
    now apply add_edge_adj_NoDup.
Qed.

Lemma resolve_file_adj_NoDup (g : DiGraph) (item : string * ParsedFile) :
  NoDup (dict_keys (g_adj g)) -> NoDup (dict_keys (g_adj (resolve_file g item))).
Proof.
  destruct item as [r pf]. intros Hg. simpl.
  apply fold_left_ind; auto. intros g1 [f fn] _ H1. simpl.
  apply fold_left_ind; auto. intros g2 sub _ H2. unfold resolve_sub.
  destruct sub as [| func args | | | | |]; auto.
  destruct func; auto. destruct (dict_mem id (functions pf)); auto.
  now apply add_edge_adj_NoDup.
Qed.

Lemma parse_adj_NoDup (fs : FileSystem) : NoDup (dict_keys (g_adj (parse fs))).
Proof.
  unfold parse, run_parse, _resolve_calls_basic; cbn [graph].
  apply fold_left_ind; [|intros; now apply resolve_file_adj_NoDup].
  unfold built, _add_nodes_and_edges; cbn [graph].
  apply fold_left_ind; [|intros; now apply add_file_adj_NoDup].
  change (graph (indexed fs)) with (graph (collected fs)).
  rewrite collected_no_edges. constructor.
Qed.

(** ** The sample repository, end to end *)

Example test_repo_edges :
  g_adj (parse test_repo)
  = [ (("file1.py", "file1.py::Character"), "defined_in");
      (("file1.py", "file1.py::Player"), "defined_in");
      (("file1.py", "file1.py::initialize_game"), "defined_in");
      (("file1.py", "file1.py::load_assets"), "defined_in");
      (("file1.py", "file2.py"), "file_import");
      (("file2.py", "file2.py::Vehicle"), "defined_in");
      (("file2.py", "file2.py::Car"), "defined_in");
      (("file2.py", "file2.py::setup_levels"), "defined_in");
      (("file3.py", "file3.py::run_game"), "defined_in");
      (("file3.py", "file3.py::test_player_actions"), "defined_in");
      (("file3.py", "file3.py::test_car_actions"), "defined_in");
      (("file3.py", "file1.py"), "file_import");
      (("file3.py", "file2.py"), "file_import");
      (("file1.py::initialize_game", "file1.py::load_assets"), "calls") ].
Proof. vm_compute. reflexivity. Qed.

Example test_repo_node_types :
  map (fun e => (fst e, a_type (snd e))) (g_node (parse test_repo))
  = [ ("file1.py", Some "file"); ("file2.py", Some "file"); ("file3.py", Some "file");
      ("file1.py::Character", Some "class"); ("file1.py::Player", Some "class");
      ("file1.py::initialize_game", Some "function");
      ("file1.py::load_assets", Some "function");
      ("file2.py::Vehicle", Some "class"); ("file2.py::Car", Some "class");
      ("file2.py::setup_levels", Some "function");
      ("file3.py::run_game", Some "function");
      ("file3.py::test_player_actions", Some "function");
      ("file3.py::test_car_actions", Some "function") ].
Proof. vm_compute. reflexivity. Qed.

(** * The specification, claim by claim *)

(** ** Import edges, call edges *)

(** C1 (as amended): the import loop searches the analyzed files, not all
    discovered files.  For every analyzed file and every root module name
    [m] it references, the first discovered file that was itself analyzed
    and is called [m.py] receives a [file_import] edge from the importing
    file; every [file_import] edge arises this way, so a name matching no
    analyzed file yields no edge; and the analyzed files are the discovered
    files that parse. *)
Theorem C1_import_resolution (fs : FileSystem) :
  well_formed fs = true ->
  (forall r pf m t,
      dict_get r (files (run_parse fs)) = Some pf ->
      In m (referenced_modules pf) ->
      first_analyzed_match fs m = Some t ->
      edge_get (parse fs) r t = Some "file_import")
  /\ (forall r t,
         edge_get (parse fs) r t = Some "file_import" ->
         exists pf m, dict_get r (files (run_parse fs)) = Some pf
                      /\ In m (referenced_modules pf)
                      /\ first_analyzed_match fs m = Some t)
  /\ (forall m, first_match (dict_keys (files (run_parse fs))) m = first_analyzed_match fs m)
  /\ (forall r, In r (dict_keys (files (run_parse fs)))
                <-> In r (discovered fs) /\ is_parsed fs r = true).
Proof.
  intros Hwf. change (files (run_parse fs)) with (files (indexed fs)).
  split; [|split; [|split]].
  - intros r pf m t Hr Hm Ht. apply edge_file_import; auto.
    exists pf, m. rewrite first_match_analyzed. repeat split; auto.
    now apply files_get.
  - intros r t E. apply parse_sound in E.
    destruct E as [[E _]|[[_ (pf & m & Hin & Hm & Ht)]|[E _]]]; try discriminate.
    exists pf, m. rewrite <- first_match_analyzed. repeat split; auto.
    now apply files_get.
  - apply first_match_analyzed.
  - apply files_key_In.
Qed.

Lemma C1_import_resolution_witness :
  well_formed test_repo = true
  /\ edge_get (parse test_repo) "file3.py" "file1.py" = Some "file_import".
Proof.
  split; [reflexivity|].
  apply (proj1 (C1_import_resolution test_repo eq_refl)
               "file3.py" (make_parsed_file "file3.py" file3_py) "file1" "file1.py").
  - reflexivity.
  - simpl. auto.
  - reflexivity.
Defined.

(** C1, as stated, fails: [main.py] is analyzed and imports [util], the
    first discovered file called [util.py] exists, but it does not parse,
    and no edge is added. *)
Lemma C1_counterexample :
  (exists pf, dict_get "main.py" (files (run_parse broken_repo)) = Some pf
              /\ In "util" (referenced_modules pf))
  /\ first_match (discovered broken_repo) "util" = Some "util.py"
  /\ edge_get (parse broken_repo) "main.py" "util.py" = None.
Proof.
  split; [|split; reflexivity].
  exists (make_parsed_file "main.py"
            [ Import [Alias "util" None];
              FunctionDef "main" [] [] [Other [Call (Other [Name "util"]) []]] [] 3 4 None ]).
  split; [reflexivity | simpl; auto].
Qed.

(** C6: every edge labeled [calls] joins two identifiers with the same
    file part, that of an analyzed file. *)
Theorem C6_calls_same_file (fs : FileSystem) (u v : string) :
  well_formed fs = true ->
  edge_get (parse fs) u v = Some "calls" ->
  exists r, file_prefix u = Some r /\ file_prefix v = Some r
            /\ In r (dict_keys (files (run_parse fs))).
Proof.
  intros Hwf E. apply parse_sound in E.
  destruct E as [[E _]|[[E _]|[_ Hc]]]; try discriminate.
  destruct Hc as (r & pf & f & fnode & t & args & Hin & Hf & _ & Ht & -> & ->).
  exists r. repeat split.
  - apply file_prefix_decl_id. eapply files_declared_identifier; eauto.
    apply declared_keys. right. now apply (in_map fst) in Hf.
  - apply file_prefix_decl_id. eapply files_declared_identifier; eauto.
    unfold declared. rewrite Ht. apply orb_true_r.
  - now apply files_In_key with pf.
Qed.

Lemma C6_calls_same_file_witness :
  well_formed test_repo = true
  /\ edge_get (parse test_repo) "file1.py::initialize_game" "file1.py::load_assets"
     = Some "calls"
  /\ exists r, file_prefix "file1.py::initialize_game" = Some r
               /\ file_prefix "file1.py::load_assets" = Some r
               /\ In r (dict_keys (files (run_parse test_repo))).
Proof.
  split; [reflexivity|]. split; [reflexivity|].
  apply (C6_calls_same_file test_repo "file1.py::initialize_game" "file1.py::load_assets");
    reflexivity.
Defined.

(** C7: the finished graph has at most one [file_import] edge from a file
    [A] to a file [B], on every input. *)
Theorem C7_one_file_import_edge (fs : FileSystem) (A B : string) :
  length (filter (fun e => keqb (fst e) (A, B) && String.eqb (snd e) "file_import")
                 (g_adj (parse fs))) <= 1.
Proof.
  apply (dict_one_entry_per_key (A, B) (fun l => String.eqb l "file_import")).
  apply parse_adj_NoDup.
Qed.

(** Four names bound to [util] by three statements: one edge. *)
Example many_aliases_one_edge :
  referenced_modules (make_parsed_file "app.py"
                        [ Import [Alias "util" None; Alias "util.sub" (Some "u")];
                          ImportFrom (Some "util") [Alias "a" None; Alias "b" (Some "c")];
                          ImportFrom (Some "util.sub") [Alias "d" None] ])
  = ["util"; "util"; "util"; "util"; "util"]
  /\ g_adj (parse many_aliases_repo) = [(("app.py", "util.py"), "file_import")].
Proof. split; reflexivity. Qed.



(** ** Containment *)

Lemma decl_node_file (r : string) (pf : ParsedFile) (n : string) (a : NodeAttrs) :
  decl_node r pf n = Some a -> a_file a = Some r.
Proof.
  unfold decl_node. destruct (dict_get n (functions pf)) as [f|].
  - intros [= <-]. reflexivity.
  - destruct (dict_get n (classes pf)) as [c|]; [|discriminate].
    intros [= <-]. reflexivity.
Qed.

Lemma dict_exactly_one_entry {K V : Type} `{EqKey K} (p : K * V -> bool)
      (k0 : K) (v0 : V) (d : dict K V) :
  NoDup (dict_keys d) -> dict_get k0 d = Some v0 -> p (k0, v0) = true ->
  (forall e, In e d -> p e = true -> fst e = k0) ->
  length (filter p d) = 1.
Proof.
  induction d as [|[k v] d IH]; simpl; [discriminate|].
  intros Hnd Hget Hp Hall. inversion Hnd as [|? ? Hni Hnd']; subst.
  destruct (keqb_spec k0 k) as [<-|Hne].
  - injection Hget as ->. rewrite Hp. simpl. f_equal.
    assert (Hnone : filter p d = []).
    { clear IH. destruct (filter p d) as [|e l] eqn:Ef; auto. exfalso.
      assert (He : In e (filter p d)) by (rewrite Ef; now left).
      apply filter_In in He. destruct He as [He Hpe].
      apply Hni. rewrite <- (Hall e (or_intror He) Hpe). now apply (in_map fst). }
    now rewrite Hnone.
  - destruct (p (k, v)) eqn:Epk.
    + exfalso. apply Hne. symmetry. now apply (Hall (k, v)); [left|].
    + apply IH; auto.
Qed.

(** C5: every class or function node is the target of exactly one
    [defined_in] edge, and the source of that edge is the file node named
    by the node's [file] attribute. *)
Theorem C5_containment (fs : FileSystem) (id : string) (a : NodeAttrs) :
  well_formed fs = true ->
  node_get (parse fs) id = Some a ->
  a_type a = Some "class" \/ a_type a = Some "function" ->
  exists src,
    a_file a = Some src
    /\ node_get (parse fs) src = Some (file_attrs src)
    /\ edge_get (parse fs) src id = Some "defined_in"
    /\ (forall s, edge_get (parse fs) s id = Some "defined_in" -> s = src)
    /\ length (filter (fun e => String.eqb (snd (fst e)) id
                                && String.eqb (snd e) "defined_in")
                      (g_adj (parse fs))) = 1.
Proof.
  intros Hwf Hnode Hty.
  destruct (parse_node_cases fs id a Hwf Hnode) as [[_ ->]|(r & pf & n & Hin & Hd & -> & Ha)].
  { destruct Hty as [E|E]; discriminate. }
  assert (Hn : is_identifier n = true) by (eapply files_declared_identifier; eauto).
  assert (Hedge : edge_get (parse fs) r (decl_id r n) = Some "defined_in").
  { apply edge_defined_in; auto. exists pf, n. auto. }
  assert (Huniq : forall s, edge_get (parse fs) s (decl_id r n) = Some "defined_in" -> s = r).
  { intros s E. apply parse_sound in E.
    destruct E as [[_ (pf' & n' & Hin' & Hd' & E)]|[[E _]|[E _]]]; try discriminate.
    apply decl_id_inj in E; auto.
    - now destruct E.
    - eapply files_declared_identifier; eauto. }
  exists r. repeat split; auto.
  - eapply decl_node_file; eauto.
  - apply parse_node_file; auto. apply files_In in Hin. tauto.
  - apply (dict_exactly_one_entry _ (r, decl_id r n) "defined_in").
    + apply parse_adj_NoDup.
    + exact Hedge.
    + simpl. now rewrite !String.eqb_refl.
    + intros [[s t] l] He Hp. simpl in Hp. apply andb_prop in Hp. destruct Hp as [Et El].
      apply String.eqb_eq in Et, El. subst t l.
      apply In_dict_get in He; [|apply parse_adj_NoDup].
      simpl. f_equal. now apply Huniq.
Qed.

Lemma C5_containment_witness :
  well_formed test_repo = true
  /\ exists src,
      a_file (class_attrs "file2.py" "Car" (nth 1 file2_py (Other []))) = Some src
      /\ node_get (parse test_repo) src = Some (file_attrs src)
      /\ edge_get (parse test_repo) src "file2.py::Car" = Some "defined_in"
      /\ (forall s, edge_get (parse test_repo) s "file2.py::Car" = Some "defined_in" -> s = src)
      /\ length (filter (fun e => String.eqb (snd (fst e)) "file2.py::Car"
                                  && String.eqb (snd e) "defined_in")
                        (g_adj (parse test_repo))) = 1.
Proof.
  split; [reflexivity|].
  apply (C5_containment test_repo "file2.py::Car"
           (class_attrs "file2.py" "Car" (nth 1 file2_py (Other [])))).
  - reflexivity.
  - reflexivity.
  - left. reflexivity.
Defined.

(** ** Files that fail to parse *)

Lemma files_In_parsed (fs : FileSystem) (r : string) (pf : ParsedFile) :
  In (r, pf) (files (indexed fs)) -> read_parse fs r <> None.
Proof. intros Hin. apply files_In in Hin. destruct Hin as (_ & tree & -> & _). discriminate. Qed.

Lemma top_level_declared (rel : string) (tree : list ast) (stmt : ast) (n : string) :
  In stmt tree -> is_function_named n stmt = true \/ is_class_named n stmt = true ->
  declared (make_parsed_file rel tree) n = true.
Proof.
  intros Hin Hn. unfold declared, dict_mem. rewrite functions_last, classes_last.
  destruct Hn as [Hn|Hn].
  - pose proof (last_such_exists _ _ _ Hin Hn) as Hex.
    destruct (last_such (is_function_named n) tree); [apply orb_true_r | congruence].
  - pose proof (last_such_exists _ _ _ Hin Hn) as Hex.
    destruct (last_such (is_class_named n) tree); [reflexivity | congruence].
Qed.

(** The loop of [_index_files] with its output.  Where every report can be
    written, it ends with the file table of [index_file] and the reports
    in order. *)
Lemma index_loop_run_returns (out : Stdout) (env : Env) (fs : FileSystem)
      (items : dict string NodeAttrs) :
  forall st : dict string ParsedFile * list string,
    (forall id a, In (id, a) items -> read_parse fs id = None ->
                  accepts out (failure_line env id) = true) ->
    index_loop_run out env fs items st
    = Returns (fold_left (index_file fs) items (fst st),
               snd st ++ flat_map (index_file_print env fs) items).
Proof.
  induction items as [|[id a] items IH]; intros [fls lines] Hacc.
  - simpl. now rewrite app_nil_r.
  - assert (Hrest : forall id' a', In (id', a') items -> read_parse fs id' = None ->
                                   accepts out (failure_line env id') = true)
      by (intros id' a' Hin; apply (Hacc id' a'); now right).
    cbn [index_loop_run index_file_run fold_left flat_map index_file index_file_print fst snd].
    destruct (is_file_node a); cbn [negb].
    + destruct (read_parse fs id) as [tree|] eqn:Er.
      * rewrite IH by exact Hrest. reflexivity.
      * fold (failure_line env id). rewrite (Hacc id a) by (auto; now left).
        rewrite IH by exact Hrest. cbn [fst snd]. now rewrite <- app_assoc.
    + rewrite IH by exact Hrest. reflexivity.
Qed.

(** Where the report of a file cannot be written, the loop ends with the
    exception of the first such report. *)
Lemma index_loop_run_raises (out : Stdout) (env : Env) (fs : FileSystem)
      (items : dict string NodeAttrs) :
  forall (st : dict string ParsedFile * list string) (id : string) (a : NodeAttrs),
    In (id, a) items -> is_file_node a = true -> read_parse fs id = None ->
    accepts out (failure_line env id) = false ->
    exists id' a', In (id', a') items /\ read_parse fs id' = None
                   /\ accepts out (failure_line env id') = false
                   /\ index_loop_run out env fs items st
                      = UnicodeEncodeError (failure_line env id').
Proof.
  induction items as [|[id0 a0] items IH]; intros st id a Hin Hfile Er Hacc; [contradiction|].
  cbn [index_loop_run index_file_run].
  destruct (negb (is_file_node a0)) eqn:E0.
  - destruct Hin as [E|Hin].
    + injection E as -> ->. rewrite Hfile in E0. discriminate.
    + destruct (IH st id a Hin Hfile Er Hacc) as (id' & a' & Hin' & H).
      exists id', a'. split; [now right | exact H].
  - destruct (read_parse fs id0) as [tree|] eqn:Er0.
    + destruct Hin as [E|Hin]; [injection E as -> ->; congruence|].
      destruct (IH (dict_set id0 (make_parsed_file id0 tree) (fst st), snd st)
                   id a Hin Hfile Er Hacc) as (id' & a' & Hin' & H).
      exists id', a'. split; [now right | exact H].
    + destruct (accepts out (failure_line env id0)) eqn:Ea0.
      * destruct Hin as [E|Hin]; [injection E as -> ->; congruence|].
        destruct (IH (fst st, snd st ++ [failure_line env id0])
                     id a Hin Hfile Er Hacc) as (id' & a' & Hin' & H).
        exists id', a'. split; [now right | exact H].
      * exists id0, a0. split; [now left|]. auto.
Qed.

Lemma collected_items (fs : FileSystem) (id : string) (a : NodeAttrs) :
  In (id, a) (dict_items (g_node (graph (collected fs))))
  <-> In id (discovered fs) /\ a = file_attrs id.
Proof.
  split.
  - intros Hin. apply In_dict_get in Hin; [|apply collected_keys_NoDup].
    now apply collected_node_inv in Hin.
  - intros [Hd ->]. apply dict_get_In. now apply collected_node.
Qed.

(** [parse] returns the graph of the run without output, and has printed
    the reports, as soon as every report can be written. *)
Lemma parse_run_returns (out : Stdout) (env : Env) (fs : FileSystem) :
  (forall p, In p (discovered fs) -> read_parse fs p = None ->
             accepts out (failure_line env p) = true) ->
  parse_run out env fs = Returns (parse fs, parse_output env fs).
Proof.
  intros Hacc. unfold parse_run, _index_files_run.
  change (fst (_collect_files fs new_parser)) with (collected fs).
  rewrite index_loop_run_returns.
  - reflexivity.
  - intros id a Hin. apply collected_items in Hin. destruct Hin as [Hd _]. now apply Hacc.
Qed.

(** [parse] raises as soon as one report cannot be written. *)
Lemma parse_run_raises (out : Stdout) (env : Env) (fs : FileSystem) (p : string) :
  In p (discovered fs) -> read_parse fs p = None ->
  accepts out (failure_line env p) = false ->
  exists q, In q (discovered fs) /\ read_parse fs q = None
            /\ accepts out (failure_line env q) = false
            /\ parse_run out env fs = UnicodeEncodeError (failure_line env q).
Proof.
  intros Hp Er Hacc. unfold parse_run, _index_files_run.
  change (fst (_collect_files fs new_parser)) with (collected fs).
  destruct (index_loop_run_raises out env fs (dict_items (g_node (graph (collected fs))))
              (files (collected fs), []) p (file_attrs p))
    as (q & a & Hin & Erq & Haq & ->); auto.
  - apply collected_items. auto.
  - exists q. apply collected_items in Hin. destruct Hin as [Hq _]. auto.
Qed.

Lemma forallb_false_In {A : Type} (f : A -> bool) (l : list A) :
  forallb f l = false -> exists x, In x l /\ f x = false.
Proof.
  induction l as [|x l IH]; simpl; [discriminate|].
  destruct (f x) eqn:Ex; simpl.
  - intros E. destruct (IH E) as (y & Hy & Ey). exists y. auto.
  - intros _. exists x. auto.
Qed.

(** What [parse] returns, when it returns. *)
Lemma parse_run_Returns (out : Stdout) (env : Env) (fs : FileSystem)
      (r : DiGraph * list string) :
  parse_run out env fs = Returns r ->
  r = (parse fs, parse_output env fs)
  /\ forall p, In p (discovered fs) -> read_parse fs p = None ->
               accepts out (failure_line env p) = true.
Proof.
  intros E.
  assert (Hall : forall p, In p (discovered fs) -> read_parse fs p = None ->
                           accepts out (failure_line env p) = true).
  { intros p Hp Er. destruct (accepts out (failure_line env p)) eqn:Ea; auto.
    destruct (parse_run_raises out env fs p Hp Er Ea) as (q & _ & _ & _ & Eq).
    congruence. }
  split; [|exact Hall].
  rewrite parse_run_returns in E by exact Hall. congruence.
Qed.

(** C3 fails on a repository with a broken file whose report standard
    output cannot encode.  [accented_repo] holds [ok.py], which parses and
    defines [f], and [café.py], which does not parse.  With standard output
    in ASCII the [print] of the handler raises [UnicodeEncodeError], the
    exception leaves [parse], and no graph is built: the build does not
    complete for [ok.py].  (With an output that takes the line, [parse]
    returns the graph, with the node of [f] and the file node of
    [café.py].) *)
Theorem C3_unprintable_failure_aborts :
  discovered accented_repo = ["ok.py"; cafe_py]
  /\ read_parse accented_repo cafe_py = None
  /\ read_parse accented_repo "ok.py" = Some [FunctionDef "f" [] [] [] [] 1 2 None]
  /\ accepts ascii_stdout (failure_line sample_env cafe_py) = false
  /\ parse_run ascii_stdout sample_env accented_repo
     = UnicodeEncodeError (failure_line sample_env cafe_py)
  /\ (forall r, parse_run ascii_stdout sample_env accented_repo <> Returns r)
  /\ parse_run lenient_stdout sample_env accented_repo
     = Returns (parse accented_repo, [failure_line sample_env cafe_py])
  /\ node_get (parse accented_repo) "ok.py::f" <> None
  /\ node_get (parse accented_repo) cafe_py = Some (file_attrs cafe_py).
Proof.
  assert (Hraise : parse_run ascii_stdout sample_env accented_repo
                   = UnicodeEncodeError (failure_line sample_env cafe_py))
    by (vm_compute; reflexivity).
  split; [reflexivity|]. split; [reflexivity|]. split; [reflexivity|].
  split; [vm_compute; reflexivity|]. split; [exact Hraise|]. split; [|split; [|split]].
  - intros r E. rewrite Hraise in E. discriminate E.
  - vm_compute. reflexivity.
  - intros E. vm_compute in E. discriminate E.
  - vm_compute. reflexivity.
Qed.

(** ** Calls *)

Lemma resolve_sub_keeps_calls (u v r : string) (lf : dict string ast) (caller : string)
      (g : DiGraph) (sub : ast) :
  edge_get g u v = Some "calls" ->
  edge_get (resolve_sub r lf caller g sub) u v = Some "calls".
Proof.
  intros E. unfold resolve_sub.
  destruct sub as [| func args | | | | |]; auto.
  destruct func; auto. destruct (dict_mem id lf); auto.
  rewrite edge_get_add_edge. now destruct (keqb (u, v) (caller, decl_id r id)).
Qed.

Lemma resolve_function_keeps_calls (u v r : string) (lf : dict string ast)
      (g : DiGraph) (item : string * ast) :
  edge_get g u v = Some "calls" ->
  edge_get (resolve_function r lf g item) u v = Some "calls".
Proof.
  destruct item as [f fn]. intros E. simpl.
  apply (fold_left_keeps (fun g' => edge_get g' u v = Some "calls")); auto.
  intros; now apply resolve_sub_keeps_calls.
Qed.

Lemma resolve_file_keeps_calls (u v : string) (g : DiGraph) (item : string * ParsedFile) :
  edge_get g u v = Some "calls" -> edge_get (resolve_file g item) u v = Some "calls".
Proof.
  destruct item as [r pf]. intros E. simpl.
  apply (fold_left_keeps (fun g' => edge_get g' u v = Some "calls")); auto.
  intros; now apply resolve_function_keeps_calls.
Qed.

(** A resolved call is in the finished graph, on every input. *)
Lemma call_edge (fs : FileSystem) (u v : string) :
  is_call fs u v -> edge_get (parse fs) u v = Some "calls".
Proof.
  intros (r & pf & f & fnode & t & args & Hin & Hf & Hsub & Ht & -> & ->).
  unfold parse, run_parse, _resolve_calls_basic; cbn [graph files].
  set (Q := fun g => edge_get g (decl_id r f) (decl_id r t) = Some "calls").
  apply (fold_left_establish Q _ _ (r, pf)); auto.
  - intros g. simpl. apply (fold_left_establish Q _ _ (f, fnode)); auto.
    + intros g1. simpl. apply (fold_left_establish Q _ _ (Call (Name t) args)); auto.
      * intros g2. unfold Q. simpl. rewrite Ht. apply edge_get_add_edge_same.
      * intros; now apply resolve_sub_keeps_calls.
    + intros; now apply resolve_function_keeps_calls.
  - intros; now apply resolve_file_keeps_calls.
Qed.

(** C9 (as amended): the function table keeps, for each name, the last
    top-level definition only.  If that definition of [f] contains, anywhere
    in its body, a direct call of the bare name [f], the finished graph has
    a [calls] edge from [f]'s node to itself. *)
Theorem C9_self_recursion (fs : FileSystem) (r : string) (tree : list ast)
        (f : string) (ps : list string) (ae body decs : list ast) (l e : Z)
        (d : option string) (args : list ast) :
  In r (discovered fs) ->
  read_parse fs r = Some tree ->
  last_such (is_function_named f) tree = Some (FunctionDef f ps ae body decs l e d) ->
  In (Call (Name f) args) (flat_map walk body) ->
  edge_get (parse fs) (decl_id r f) (decl_id r f) = Some "calls".
Proof.
  intros Hr Htree Hlast Hcall. apply call_edge.
  exists r, (make_parsed_file r tree), f, (FunctionDef f ps ae body decs l e d), f, args.
  assert (Hget : dict_get f (functions (make_parsed_file r tree))
                 = Some (FunctionDef f ps ae body decs l e d))
    by now rewrite functions_last.
  repeat split.
  - apply files_In. eauto.
  - now apply dict_get_In.
  - simpl. right. apply in_or_app. right. apply in_or_app. now left.
  - unfold dict_mem. now rewrite Hget.
Qed.

Lemma C9_self_recursion_witness :
  In "m.py" (discovered recursive_repo)
  /\ edge_get (parse recursive_repo) "m.py::fact" "m.py::fact" = Some "calls".
Proof.
  split; [simpl; auto|].
  apply (C9_self_recursion recursive_repo "m.py"
           [ FunctionDef "fact" ["n"] []
               [Other [Other [Name "n"; Call (Name "fact") [Other [Name "n"]]]]] [] 1 2 None ]
           "fact" ["n"] []
           [Other [Other [Name "n"; Call (Name "fact") [Other [Name "n"]]]]] [] 1 2 None
           [Other [Name "n"]]).
  - simpl. auto.
  - reflexivity.
  - reflexivity.
  - simpl. auto 10.
Defined.

(** C9, as stated, fails: the first top-level [f] of [m.py] calls [f] in
    its body, but a later definition of [f] replaces it in the function
    table, and the graph has no self-loop at [f]'s node. *)
Lemma C9_counterexample :
  read_parse redefined_repo "m.py"
  = Some [ FunctionDef "f" [] [] [Other [Call (Name "f") []]] [] 1 2 None;
           FunctionDef "f" [] [] [] [] 4 5 None ]
  /\ In (Call (Name "f") []) (flat_map walk [Other [Call (Name "f") []]])
  /\ node_get (parse redefined_repo) "m.py::f" <> None
  /\ edge_get (parse redefined_repo) "m.py::f" "m.py::f" = None.
Proof.
  split; [reflexivity|]. split; [simpl; auto|]. split; [discriminate | reflexivity].
Qed.

(** ** Write-once *)

(** C4 fails on a file that declares a class and a function of the same
    name: both get the identifier [m.py::foo]; the class loop creates the
    node with the attributes of the class, and the function loop then
    overwrites its type, display name, line numbers and documentation. *)
Theorem C4_same_name_overwrites :
  let pf := make_parsed_file "m.py"
              [ ClassDef "foo" [] [] [] 1 2 (Some "a class");
                FunctionDef "foo" ["x"] [] [] [] 4 5 None ] in
  let after_classes :=
    fold_left (add_class "m.py") (dict_items (classes pf)) (graph (indexed same_name_repo)) in
  dict_get "m.py" (files (indexed same_name_repo)) = Some pf
  /\ node_get (graph (indexed same_name_repo)) "m.py::foo" = None
  /\ node_get after_classes "m.py::foo"
     = Some {| a_type := Some "class"; a_display_name := Some "foo";
               a_file := Some "m.py"; a_lineno := Some 1%Z; a_end_lineno := Some 2%Z;
               a_loc := Some 2%Z; a_params := None; a_doc := Some "a class" |}
  /\ node_get (parse same_name_repo) "m.py::foo"
     = Some {| a_type := Some "function"; a_display_name := Some "foo()";
               a_file := Some "m.py"; a_lineno := Some 4%Z; a_end_lineno := Some 5%Z;
               a_loc := Some 2%Z; a_params := Some ["x"]; a_doc := Some "" |}.
Proof. repeat split; reflexivity. Qed.

(** ** Import extraction *)

Lemma root_module_first_segment (s : string) : root_module s = spec_first_segment s.
Proof.
  unfold root_module. induction s as [|c s IH]; simpl; auto.
  destruct (is_char "." c); simpl; auto.
  rewrite <- IH. now destruct (split_dots s).
Qed.

Lemma dict_get_app {V : Type} (k : string) (d1 d2 : dict string V) :
  dict_get k (d1 ++ d2)
  = match dict_get k d1 with Some v => Some v | None => dict_get k d2 end.
Proof.
  induction d1 as [|[k' v'] d1 IH]; simpl; auto. now destruct (String.eqb k k').
Qed.

Lemma spec_lookup_app (k : string) (l1 l2 : list (string * string)) :
  spec_lookup k (l1 ++ l2)
  = match spec_lookup k l2 with Some v => Some v | None => spec_lookup k l1 end.
Proof. unfold spec_lookup. now rewrite rev_app_distr, dict_get_app. Qed.

Lemma spec_lookup_cons (k : string) (b : string * string) (l : list (string * string)) :
  spec_lookup k (b :: l)
  = match spec_lookup k l with
    | Some v => Some v
    | None => if String.eqb k (fst b) then Some (snd b) else None
    end.
Proof.
  change (b :: l) with ([b] ++ l). rewrite spec_lookup_app.
  destruct b as [k' v']. reflexivity.
Qed.

Lemma index_import_binding (d : dict string string) (a : alias) :
  alias_ok a = true ->
  index_import d a = dict_set (fst (spec_plain_binding a)) (snd (spec_plain_binding a)) d.
Proof.
  unfold index_import, spec_plain_binding, alias_ok, str_or. simpl.
  rewrite root_module_first_segment.
  destruct (alias_asname a) as [y|]; auto.
  destruct (String.eqb y ""); [discriminate | reflexivity].
Qed.

Lemma index_from_binding (x : string) (d : dict string string) (a : alias) :
  alias_ok a = true ->
  index_from (root_module x) d a
  = dict_set (fst (spec_from_binding x a)) (snd (spec_from_binding x a)) d.
Proof.
  unfold index_from, spec_from_binding, alias_ok, str_or. simpl.
  rewrite root_module_first_segment.
  destruct (alias_asname a) as [y|]; auto.
  destruct (String.eqb y ""); [discriminate | reflexivity].
Qed.

(** A loop of assignments reads back as the last binding of the key. *)
Lemma fold_bindings_get {A : Type} (step : dict string string -> A -> dict string string)
      (binding : A -> string * string) (k : string) (l : list A) :
  (forall d a, In a l -> step d a = dict_set (fst (binding a)) (snd (binding a)) d) ->
  forall d, dict_get k (fold_left step l d)
            = match spec_lookup k (map binding l) with
              | Some v => Some v
              | None => dict_get k d
              end.
Proof.
  induction l as [|a l IH]; intros Hstep d; simpl; auto.
  rewrite IH by (intros; apply Hstep; now right).
  rewrite spec_lookup_cons. destruct (spec_lookup k (map binding l)); auto.
  rewrite Hstep by now left. rewrite dict_get_set. cbn [keqb string_EqKey].
  now destruct (String.eqb k (fst (binding a))).
Qed.

Lemma index_stmt_imports (t : Tables) (stmt : ast) (k : string) :
  stmt_aliases_ok stmt = true ->
  dict_get k (t_imports (index_stmt t stmt))
  = match spec_lookup k (spec_plain_bindings stmt) with
    | Some v => Some v
    | None => dict_get k (t_imports t)
    end.
Proof.
  intros Hok. destruct stmt; simpl; auto.
  - apply fold_bindings_get. intros d a Ha. apply index_import_binding.
    simpl in Hok. rewrite forallb_forall in Hok. auto.
  - destruct module as [m|]; [now destruct (String.eqb m "") | reflexivity].
Qed.

Lemma index_stmt_from_imports (t : Tables) (stmt : ast) (k : string) :
  stmt_aliases_ok stmt = true ->
  dict_get k (t_from_imports (index_stmt t stmt))
  = match spec_lookup k (spec_from_bindings stmt) with
    | Some v => Some v
    | None => dict_get k (t_from_imports t)
    end.
Proof.
  intros Hok. destruct stmt; simpl; auto.
  simpl in Hok. apply andb_prop in Hok. destruct Hok as [Hm Hnames].
  destruct module as [x|]; simpl; auto.
  destruct (String.eqb x ""); [discriminate|]. simpl.
  apply fold_bindings_get. intros d a Ha. apply index_from_binding.
  rewrite forallb_forall in Hnames. auto.
Qed.

Lemma index_loop_imports (body : list ast) (k : string) :
  forallb stmt_aliases_ok body = true ->
  forall t,
    dict_get k (t_imports (fold_left index_stmt body t))
    = match spec_lookup k (flat_map spec_plain_bindings body) with
      | Some v => Some v
      | None => dict_get k (t_imports t)
      end
    /\ dict_get k (t_from_imports (fold_left index_stmt body t))
       = match spec_lookup k (flat_map spec_from_bindings body) with
         | Some v => Some v
         | None => dict_get k (t_from_imports t)
         end.
Proof.
  induction body as [|stmt body IH]; intros Hok t; simpl; auto.
  simpl in Hok. apply andb_prop in Hok. destruct Hok as [Hs Hb].
  destruct (IH Hb (index_stmt t stmt)) as [E1 E2].
  rewrite E1, E2, !spec_lookup_app, index_stmt_imports, index_stmt_from_imports by assumption.
  split.
  - now destruct (spec_lookup k (flat_map spec_plain_bindings body)).
  - now destruct (spec_lookup k (flat_map spec_from_bindings body)).
Qed.

(** C8: the two import tables of a file hold exactly the bindings the
    specification describes.  A plain import binds its as-name, or else the
    first dotted segment of its path, to that first segment; a from-import
    binds each as-name, or else each imported name, to the first dotted
    segment of the source module; a from-import without a module changes
    nothing. *)
Theorem C8_import_extraction (body : list ast) :
  forallb stmt_aliases_ok body = true ->
  (forall k, dict_get k (t_imports (index_body body))
             = spec_lookup k (flat_map spec_plain_bindings body))
  /\ (forall k, dict_get k (t_from_imports (index_body body))
                = spec_lookup k (flat_map spec_from_bindings body))
  /\ (forall t names, index_stmt t (ImportFrom None names) = t)
  /\ (forall s, root_module s = spec_first_segment s).
Proof.
  intros Hok. split; [|split; [|split]].
  - intros k. unfold index_body.
    rewrite (proj1 (index_loop_imports body k Hok no_tables)).
    now destruct (spec_lookup k (flat_map spec_plain_bindings body)).
  - intros k. unfold index_body.
    rewrite (proj2 (index_loop_imports body k Hok no_tables)).
    now destruct (spec_lookup k (flat_map spec_from_bindings body)).
  - reflexivity.
  - apply root_module_first_segment.
Qed.

Lemma C8_import_extraction_witness :
  forallb stmt_aliases_ok
          [ Import [Alias "pkg.sub" None; Alias "os.path" (Some "p")];
            ImportFrom (Some "a.b") [Alias "x" None; Alias "y" (Some "z")];
            ImportFrom None [Alias "w" None] ] = true
  /\ t_imports (index_body
                  [ Import [Alias "pkg.sub" None; Alias "os.path" (Some "p")];
                    ImportFrom (Some "a.b") [Alias "x" None; Alias "y" (Some "z")];
                    ImportFrom None [Alias "w" None] ])
     = [("pkg", "pkg"); ("p", "os")]
  /\ t_from_imports (index_body
                       [ Import [Alias "pkg.sub" None; Alias "os.path" (Some "p")];
                         ImportFrom (Some "a.b") [Alias "x" None; Alias "y" (Some "z")];
                         ImportFrom None [Alias "w" None] ])
     = [("x", "a"); ("z", "a")]
  /\ forall k, dict_get k (t_imports (index_body
                  [ Import [Alias "pkg.sub" None; Alias "os.path" (Some "p")];
                    ImportFrom (Some "a.b") [Alias "x" None; Alias "y" (Some "z")];
                    ImportFrom None [Alias "w" None] ]))
               = spec_lookup k [("pkg", "pkg"); ("p", "os")].
Proof.
  split; [reflexivity|]. split; [reflexivity|]. split; [reflexivity|].
  apply (proj1 (C8_import_extraction
                  [ Import [Alias "pkg.sub" None; Alias "os.path" (Some "p")];
                    ImportFrom (Some "a.b") [Alias "x" None; Alias "y" (Some "z")];
                    ImportFrom None [Alias "w" None] ] eq_refl)).
Defined.

(** ** Discovery order *)

Lemma same_files_sym (fs1 fs2 : FileSystem) : same_files fs1 fs2 -> same_files fs2 fs1.
Proof. intros [Hd Hr]. split; intros p; [symmetry; apply Hd | symmetry; apply Hr]. Qed.

Lemma same_files_well_formed (fs1 fs2 : FileSystem) :
  same_files fs1 fs2 -> well_formed fs1 = true -> well_formed fs2 = true.
Proof.
  intros [Hd Hr] Hwf. unfold well_formed in *. rewrite forallb_forall in *.
  intros rel Hin. rewrite <- Hr. apply Hwf, Hd, Hin.
Qed.

Lemma same_files_In (fs1 fs2 : FileSystem) (r : string) (pf : ParsedFile) :
  same_files fs1 fs2 ->
  In (r, pf) (files (indexed fs1)) -> In (r, pf) (files (indexed fs2)).
Proof.
  intros [Hd Hr] Hin. apply files_In in Hin. destruct Hin as (HD & tree & Er & ->).
  apply files_In. split; [now apply Hd|]. exists tree. now rewrite <- Hr.
Qed.

Lemma same_files_is_parsed (fs1 fs2 : FileSystem) (p : string) :
  same_files fs1 fs2 -> is_parsed fs1 p = is_parsed fs2 p.
Proof. intros [_ Hr]. unfold is_parsed. now rewrite Hr. Qed.

Lemma same_files_referenced (fs1 fs2 : FileSystem) (m : string) :
  same_files fs1 fs2 -> referenced fs1 m -> referenced fs2 m.
Proof.
  intros [Hd Hr] (r & tree & Hin & Er & Hm). exists r, tree.
  split; [now apply Hd|]. split; [now rewrite <- Hr | exact Hm].
Qed.

Lemma files_In_referenced (fs : FileSystem) (r : string) (pf : ParsedFile) (m : string) :
  In (r, pf) (files (indexed fs)) -> In m (referenced_modules pf) -> referenced fs m.
Proof.
  intros Hin Hm. apply files_In in Hin. destruct Hin as (Hd & tree & Er & ->).
  exists r, tree. auto.
Qed.

Lemma first_analyzed_match_Some (fs : FileSystem) (m t : string) :
  first_analyzed_match fs m = Some t ->
  In t (discovered fs) /\ is_parsed fs t = true /\ basename t = (m ++ ".py")%string.
Proof.
  unfold first_analyzed_match. intros E. apply find_some in E. destruct E as [Hin E].
  apply andb_prop in E. destruct E as [E1 E2]. apply String.eqb_eq in E2. auto.
Qed.

Lemma first_analyzed_match_None (fs : FileSystem) (m p : string) :
  first_analyzed_match fs m = None -> In p (discovered fs) -> is_parsed fs p = true ->
  basename p <> (m ++ ".py")%string.
Proof.
  unfold first_analyzed_match. intros E Hin Hp Hb.
  pose proof (find_none _ _ E p Hin) as Hn. simpl in Hn.
  rewrite Hp, Hb, String.eqb_refl in Hn. discriminate.
Qed.

(** Whether a name has a match at all does not depend on the order. *)
Lemma same_files_no_match (fs1 fs2 : FileSystem) (m : string) :
  same_files fs1 fs2 ->
  first_analyzed_match fs1 m = None -> first_analyzed_match fs2 m = None.
Proof.
  intros Hsame E1. pose proof Hsame as [Hd _].
  destruct (first_analyzed_match fs2 m) as [b|] eqn:E2; auto. exfalso.
  apply first_analyzed_match_Some in E2. destruct E2 as (Hb & Hpb & Hbb).
  apply (first_analyzed_match_None fs1 m b E1); auto.
  - now apply Hd.
  - now rewrite (same_files_is_parsed fs1 fs2).
Qed.

(** Where a name is carried by one analyzed file at most, the first match
    does not depend on the order. *)
Lemma unambiguous_first_match (fs1 fs2 : FileSystem) (m : string) :
  same_files fs1 fs2 -> unambiguous fs1 m ->
  first_analyzed_match fs1 m = first_analyzed_match fs2 m.
Proof.
  intros Hsame Huniq. pose proof Hsame as [Hd Hr].
  destruct (first_analyzed_match fs1 m) as [a|] eqn:E1.
  - destruct (first_analyzed_match fs2 m) as [b|] eqn:E2.
    + apply first_analyzed_match_Some in E1, E2.
      destruct E1 as (Ha & Hpa & Hba), E2 as (Hb & Hpb & Hbb).
      f_equal. apply Huniq; auto.
      * now apply Hd.
      * now rewrite (same_files_is_parsed fs1 fs2).
    + apply (same_files_no_match fs2 fs1) in E2; [congruence | now apply same_files_sym].
  - symmetry. now apply (same_files_no_match fs1 fs2).
Qed.

(** The edges of one run are edges of the other; for a [file_import] edge
    this asks that the names in use have the same first match. *)
Lemma same_files_edge_spec (fs1 fs2 : FileSystem) (u v l : string) :
  same_files fs1 fs2 ->
  (l = "file_import" ->
   forall m, referenced fs1 m -> first_analyzed_match fs1 m = first_analyzed_match fs2 m) ->
  edge_spec fs1 u v l -> edge_spec fs2 u v l.
Proof.
  intros Hsame Hfirst [[-> H]|[[-> H]|[-> H]]].
  - left. split; auto. destruct H as (pf & n & Hin & Hd & ->).
    exists pf, n. repeat split; auto. eapply same_files_In; eauto.
  - right. left. split; auto. destruct H as (pf & m & Hin & Hm & Ht).
    exists pf, m. repeat split; auto.
    + eapply same_files_In; eauto.
    + rewrite first_match_analyzed in *. rewrite <- Hfirst; auto.
      now apply (files_In_referenced fs1 u pf m).
  - right. right. split; auto.
    destruct H as (r & pf & f & fnode & t & args & Hin & H).
    exists r, pf, f, fnode, t, args. split; auto. eapply same_files_In; eauto.
Qed.

Lemma same_files_edge (fs1 fs2 : FileSystem) (u v l : string) :
  well_formed fs2 = true -> same_files fs1 fs2 ->
  (l = "file_import" ->
   forall m, referenced fs1 m -> first_analyzed_match fs1 m = first_analyzed_match fs2 m) ->
  edge_get (parse fs1) u v = Some l -> edge_get (parse fs2) u v = Some l.
Proof.
  intros Hwf Hsame Hfirst E. apply parse_edges; auto.
  eapply same_files_edge_spec; eauto. now apply parse_sound.
Qed.

Lemma same_files_node (fs1 fs2 : FileSystem) (id : string) (a : NodeAttrs) :
  well_formed fs1 = true -> well_formed fs2 = true -> same_files fs1 fs2 ->
  node_get (parse fs1) id = Some a -> node_get (parse fs2) id = Some a.
Proof.
  intros Hwf1 Hwf2 Hsame E.
  destruct (parse_node_cases fs1 id a Hwf1 E) as [[Hd ->]|(r & pf & n & Hin & Hd & -> & Ha)].
  - apply parse_node_file; auto. now apply Hsame.
  - rewrite <- Ha. apply parse_node_decl; auto.
    + eapply same_files_In; eauto.
    + apply (files_declared_identifier fs1 r pf n); auto.
Qed.

Lemma option_eq_of_transfer {A : Type} (x y : option A) :
  (forall a, x = Some a -> y = Some a) -> (forall a, y = Some a -> x = Some a) -> x = y.
Proof.
  intros H1 H2. destruct x as [a|].
  - symmetry. now apply H1.
  - destruct y as [b|]; [now apply H2 | reflexivity].
Qed.

(** Two runs with the same edges gave every name in use the same first
    match: the edge of the importing file shows which file it was. *)
Lemma same_edges_first_match (fs1 fs2 : FileSystem) (m : string) :
  well_formed fs1 = true -> same_files fs1 fs2 ->
  (forall u v, edge_get (parse fs1) u v = edge_get (parse fs2) u v) ->
  referenced fs1 m ->
  first_analyzed_match fs1 m = first_analyzed_match fs2 m.
Proof.
  intros Hwf Hsame He (r & tree & Hin & Er & Hm).
  destruct (first_analyzed_match fs1 m) as [t|] eqn:E1.
  - assert (Hedge : edge_get (parse fs1) r t = Some "file_import").
    { apply edge_file_import; auto. exists (make_parsed_file r tree), m.
      rewrite first_match_analyzed. repeat split; auto. apply files_In; eauto. }
    rewrite He in Hedge. apply parse_sound in Hedge.
    destruct Hedge as [[E _]|[[_ (pf & m' & _ & _ & Ht)]|[E _]]]; try discriminate.
    rewrite first_match_analyzed in Ht.
    apply first_analyzed_match_Some in E1. destruct E1 as (_ & _ & Hb).
    destruct (first_analyzed_match_Some _ _ _ Ht) as (_ & _ & Hb').
    assert (Hname : (m ++ ".py")%string = (m' ++ ".py")%string) by congruence.
    symmetry. unfold first_analyzed_match in *. rewrite Hname. exact Ht.
  - symmetry. now apply (same_files_no_match fs1 fs2).
Qed.

(** C2 (as amended): two runs over the same files, discovered in different
    orders, build graphs with the same nodes and attributes and the same
    [defined_in] and [calls] edges.  The whole graphs, [file_import] edges
    included, are the same exactly when every module name that an analyzed
    file references has the same first match in both orders; this is so
    whenever no such name is the file name of two analyzed files.  (Import
    resolution takes the first match, so with two files of a name that is
    imported the edge depends on the order.) *)
Theorem C2_order_independence (fs1 fs2 : FileSystem) :
  well_formed fs1 = true ->
  Permutation (discovered fs1) (discovered fs2) ->
  (forall p, read_parse fs1 p = read_parse fs2 p) ->
  (forall id, node_get (parse fs1) id = node_get (parse fs2) id)
  /\ (forall u v l, l <> "file_import" ->
                    (edge_get (parse fs1) u v = Some l <-> edge_get (parse fs2) u v = Some l))
  /\ (same_graph (parse fs1) (parse fs2)
      <-> forall m, referenced fs1 m ->
                    first_analyzed_match fs1 m = first_analyzed_match fs2 m)
  /\ ((forall m, referenced fs1 m -> unambiguous fs1 m) ->
      same_graph (parse fs1) (parse fs2)).
Proof.
  intros Hwf1 Hperm Hread.
  assert (Hsame : same_files fs1 fs2).
  { split; auto. intros p. split; apply Permutation_in; auto. now apply Permutation_sym. }
  pose proof (same_files_sym _ _ Hsame) as Hsame'.
  pose proof (same_files_well_formed _ _ Hsame Hwf1) as Hwf2.
  assert (Hnodes : forall id, node_get (parse fs1) id = node_get (parse fs2) id).
  { intros id. apply option_eq_of_transfer; intros a; now apply same_files_node. }
  assert (Hgraph : (forall m, referenced fs1 m ->
                      first_analyzed_match fs1 m = first_analyzed_match fs2 m) ->
                   same_graph (parse fs1) (parse fs2)).
  { intros Hfirst. split; [exact Hnodes|].
    intros u v. apply option_eq_of_transfer; intros l; apply same_files_edge; auto.
    intros _ m Hm. symmetry. apply Hfirst. now apply (same_files_referenced fs2 fs1). }
  split; [exact Hnodes|]. split; [|split].
  - intros u v l Hl. split; apply same_files_edge; auto; intros E; congruence.
  - split; [|exact Hgraph].
    intros [_ He] m Hm. now apply same_edges_first_match.
  - intros Huniq. apply Hgraph. intros m Hm.
    apply unambiguous_first_match; auto.
Qed.

Lemma C2_order_independence_witness :
  well_formed packages_repo_ab = true
  /\ Permutation (discovered packages_repo_ab) (discovered packages_repo_ba)
  /\ basename "a/__init__.py" = basename "b/__init__.py"
  /\ dict_keys (g_node (parse packages_repo_ab)) <> dict_keys (g_node (parse packages_repo_ba))
  /\ same_graph (parse packages_repo_ab) (parse packages_repo_ba).
Proof.
  assert (Hperm : Permutation (discovered packages_repo_ab) (discovered packages_repo_ba)).
  { change (Permutation ["main.py"; "util.py"; "a/__init__.py"; "b/__init__.py"]
                        ["main.py"; "util.py"; "b/__init__.py"; "a/__init__.py"]).
    apply perm_skip, perm_skip, perm_swap. }
  split; [reflexivity|]. split; [exact Hperm|]. split; [reflexivity|].
  split; [intros E; vm_compute in E; discriminate E|].
  apply (C2_order_independence packages_repo_ab packages_repo_ba eq_refl Hperm).
  - reflexivity.
  - intros m (r & tree & Hr & Er & Hm).
    assert (Eu : m = "util").
    { simpl in Hr. destruct Hr as [<-|[<-|[<-|[<-|[]]]]];
        injection Er as <-; vm_compute in Hm; intuition congruence. }
    subst m. intros a b Ha Hb _ _ Ea Eb. simpl in Ha, Hb.
    destruct Ha as [<-|[<-|[<-|[<-|[]]]]]; try (vm_compute in Ea; discriminate Ea);
      destruct Hb as [<-|[<-|[<-|[<-|[]]]]]; try (vm_compute in Eb; discriminate Eb);
      reflexivity.
Defined.

(** C2, as stated, fails: with [a/util.py] and [b/util.py] both present,
    the [file_import] edge of [main.py] goes to whichever is discovered
    first. *)
Lemma C2_counterexample :
  Permutation (discovered ambiguous_repo_ab) (discovered ambiguous_repo_ba)
  /\ (forall p, read_parse ambiguous_repo_ab p = read_parse ambiguous_repo_ba p)
  /\ edge_get (parse ambiguous_repo_ab) "main.py" "a/util.py" = Some "file_import"
  /\ edge_get (parse ambiguous_repo_ba) "main.py" "a/util.py" = None
  /\ ~ same_graph (parse ambiguous_repo_ab) (parse ambiguous_repo_ba).
Proof.
  split; [|split; [|split; [|split]]].
  - change (Permutation ["main.py"; "a/util.py"; "b/util.py"]
                        ["main.py"; "b/util.py"; "a/util.py"]).
    apply perm_skip, perm_swap.
  - reflexivity.
  - reflexivity.
  - reflexivity.
  - intros [_ He]. specialize (He "main.py" "a/util.py"). discriminate.
Qed.

(** * Further properties of the parser *)

(** ** Stage 1 *)

Lemma collect_dir_paths (root : string) (fnames : list string) :
  forall st, snd (fold_left (collect_dir root) fnames st)
             = snd st ++ map (relpath_join root)
                             (filter (fun fname => endswith fname ".py") fnames).
Proof.
  induction fnames as [|fname fnames IH]; intros st; simpl.
  - now rewrite app_nil_r.
  - rewrite IH. unfold collect_dir.
    destruct (endswith fname ".py"); simpl; auto. now rewrite <- app_assoc.
Qed.

Lemma collect_loop_paths (walk : list (string * list string)) :
  forall st, snd (collect_loop walk st) = snd st ++ walk_paths walk.
Proof.
  unfold collect_loop, walk_paths.
  induction walk as [|[root fnames] walk IH]; intros st; simpl.
  - now rewrite app_nil_r.
  - rewrite IH, collect_dir_paths. now rewrite <- app_assoc.
Qed.

Lemma discovered_paths (fs : FileSystem) : discovered fs = walk_paths (os_walk fs).
Proof. unfold discovered, _collect_files. simpl. now rewrite collect_loop_paths. Qed.

(** [_collect_files] returns the listed names that end in [.py], joined to
    their directories, in listing order; the graph then holds one bare file
    node per returned path, in order of first occurrence, no other node
    and no edge, and the file table is still empty. *)
Theorem collect_files_spec (fs : FileSystem) :
  snd (_collect_files fs new_parser) = walk_paths (os_walk fs)
  /\ (forall id, In id (walk_paths (os_walk fs)) ->
                 node_get (graph (fst (_collect_files fs new_parser))) id
                 = Some (file_attrs id)
                 /\ endswith id ".py" = true)
  /\ (forall id, ~ In id (walk_paths (os_walk fs)) ->
                 node_get (graph (fst (_collect_files fs new_parser))) id = None)
  /\ dict_keys (g_node (graph (fst (_collect_files fs new_parser))))
     = dedup (walk_paths (os_walk fs))
  /\ g_adj (graph (fst (_collect_files fs new_parser))) = []
  /\ files (fst (_collect_files fs new_parser)) = [].
Proof.
  pose proof (discovered_paths fs) as E.
  fold (discovered fs). fold (collected fs). rewrite <- E.
  split; [reflexivity|]. split; [|split; [|split; [|split]]].
  - intros id Hin. split; [now apply collected_node | now apply (discovered_py fs)].
  - intros id Hni. destruct (node_get (graph (collected fs)) id) as [a|] eqn:Ea; auto.
    apply collected_node_inv in Ea. tauto.
  - apply collected_order.
  - apply collected_no_edges.
  - reflexivity.
Qed.

(** ** Stage 2 *)

(** After [_index_files] the file table has one record per discovered
    path that reads and parses, built from that file's own tree, under its
    own path; it has no entry for any other path and no key twice; the
    graph is as stage 1 left it. *)
Theorem index_files_spec (fs : FileSystem) :
  (forall r pf,
      dict_get r (files (_index_files fs (collected fs))) = Some pf <->
      In r (discovered fs)
      /\ exists tree, read_parse fs r = Some tree /\ pf = make_parsed_file r tree)
  /\ (forall r pf, dict_get r (files (_index_files fs (collected fs))) = Some pf ->
                   path pf = r)
  /\ NoDup (dict_keys (files (_index_files fs (collected fs))))
  /\ dict_keys (files (_index_files fs (collected fs)))
     = filter (is_parsed fs) (dedup (discovered fs))
  /\ graph (_index_files fs (collected fs)) = graph (collected fs).
Proof.
  fold (indexed fs). split; [|split; [|split; [|split]]].
  - intros r pf. rewrite files_get. apply files_In.
  - intros r pf E. apply files_get, files_In in E.
    destruct E as (_ & tree & _ & ->). reflexivity.
  - apply files_keys_NoDup.
  - rewrite files_keys. now rewrite collected_order.
  - reflexivity.
Qed.

Lemma last_such_split (p : ast -> bool) (body : list ast) :
  match last_such p body with
  | Some x => exists pre post, body = pre ++ x :: post /\ p x = true
                               /\ forall y, In y post -> p y = false
  | None => forall y, In y body -> p y = false
  end.
Proof.
  induction body as [|stmt body IH]; simpl; [tauto|].
  destruct (last_such p body) as [x|].
  - destruct IH as (pre & post & -> & Hp & Hpost).
    exists (stmt :: pre), post. auto.
  - destruct (p stmt) eqn:Ep.
    + exists [], body. auto.
    + intros y [<-|Hy]; auto.
Qed.

(** The function table of a file maps a name to the last top-level
    [FunctionDef] of that name, and has no entry for a name that no
    top-level statement defines: definitions nested in classes, functions
    or blocks never enter it.  The class table likewise. *)
Theorem tables_hold_last_top_level (tree : list ast) (n : string) :
  match dict_get n (t_functions (index_body tree)) with
  | Some x => exists pre post, tree = pre ++ x :: post
                               /\ is_function_named n x = true
                               /\ forall y, In y post -> is_function_named n y = false
  | None => forall y, In y tree -> is_function_named n y = false
  end
  /\ match dict_get n (t_classes (index_body tree)) with
     | Some x => exists pre post, tree = pre ++ x :: post
                                  /\ is_class_named n x = true
                                  /\ forall y, In y post -> is_class_named n y = false
     | None => forall y, In y tree -> is_class_named n y = false
     end.
Proof.
  pose proof (functions_last "" tree n) as Ef. pose proof (classes_last "" tree n) as Ec.
  simpl in Ef, Ec. rewrite Ef, Ec. split; apply last_such_split.
Qed.

Lemma split_dots_head_no_dot (s : string) : contains_char "." (root_module s) = false.
Proof.
  unfold root_module. induction s as [|c s IH]; simpl; auto.
  destruct (is_char "." c) eqn:Ec; simpl; auto.
  destruct (split_dots s) as [|seg segs]; simpl in *; rewrite Ec; simpl; auto.
Qed.

Lemma dict_set_values {V : Type} (P : V -> Prop) (k : string) (v : V) (d : dict string V) :
  P v -> (forall k' v', dict_get k' d = Some v' -> P v') ->
  forall k' v', dict_get k' (dict_set k v d) = Some v' -> P v'.
Proof.
  intros Hv Hd k' v'. rewrite dict_get_set.
  destruct (keqb k' k); [intros [= <-]; exact Hv | apply Hd].
Qed.

Lemma index_stmt_dot_free (t : Tables) (stmt : ast) :
  (forall k v, dict_get k (t_imports t) = Some v -> contains_char "." v = false) ->
  (forall k v, dict_get k (t_from_imports t) = Some v -> contains_char "." v = false) ->
  (forall k v, dict_get k (t_imports (index_stmt t stmt)) = Some v ->
               contains_char "." v = false)
  /\ (forall k v, dict_get k (t_from_imports (index_stmt t stmt)) = Some v ->
                  contains_char "." v = false).
Proof.
  intros Hi Hf. destruct stmt; simpl; auto.
  - split; auto. apply fold_left_ind; auto.
    intros d a _ Hd. unfold index_import.
    apply dict_set_values; auto. apply split_dots_head_no_dot.
  - destruct module as [m|]; auto. destruct (String.eqb m ""); auto.
    simpl. split; auto. apply fold_left_ind; auto.
    intros d a _ Hd. unfold index_from.
    apply dict_set_values; auto. apply split_dots_head_no_dot.
Qed.

(** Both import tables only ever hold root module names: no recorded
    module contains a dot, so [import a.b] is looked up as [a.py] and as
    nothing else. *)
Theorem import_tables_dot_free (body : list ast) (k v : string) :
  dict_get k (t_imports (index_body body)) = Some v
  \/ dict_get k (t_from_imports (index_body body)) = Some v ->
  contains_char "." v = false.
Proof.
  assert (H : (forall k v, dict_get k (t_imports (index_body body)) = Some v ->
                           contains_char "." v = false)
              /\ (forall k v, dict_get k (t_from_imports (index_body body)) = Some v ->
                              contains_char "." v = false)).
  { unfold index_body. apply fold_left_ind.
    - split; intros k' v'; discriminate.
    - intros t stmt _ [Hi Hf]. now apply index_stmt_dot_free. }
  destruct H as [Hi Hf]. intros [E|E]; eauto.
Qed.

Lemma import_tables_dot_free_witness :
  dict_get "p" (t_imports (index_body [Import [Alias "os.path" (Some "p")]])) = Some "os"
  /\ contains_char "." "os" = false.
Proof.
  split; [reflexivity|].
  apply (import_tables_dot_free [Import [Alias "os.path" (Some "p")]] "p" "os").
  left. reflexivity.
Defined.

(** ** Stages 3 and 4: nodes *)

Lemma class_attrs_ok (old : NodeAttrs) (r c : string) (cn : ast) :
  node_ok (attrs_update old (class_attrs r c cn)).
Proof.
  repeat split; simpl; auto; try discriminate.
  intros z [= <-]. apply Z.le_max_l.
Qed.

Lemma function_attrs_ok (old : NodeAttrs) (r f : string) (fn : ast) :
  node_ok (attrs_update old (function_attrs r f fn)).
Proof.
  repeat split; simpl; auto; try discriminate.
  intros z [= <-]. apply Z.le_max_l.
Qed.

Lemma file_attrs_ok (rel : string) : node_ok (file_attrs rel).
Proof. repeat split; simpl; auto; discriminate. Qed.

Lemma file_nodes_ok (d : dict string NodeAttrs) (item : string * ParsedFile) :
  (forall id a, dict_get id d = Some a -> node_ok a) ->
  forall id a, dict_get id (file_nodes d item) = Some a -> node_ok a.
Proof.
  destruct item as [r pf]. intros Hd. simpl. unfold decl_fold.
  apply fold_left_ind; [apply fold_left_ind; auto|].
  - intros d' [c cn] _ Hd'. unfold node_update. simpl.
    apply dict_set_values; auto. apply class_attrs_ok.
  - intros d' [f fn] _ Hd'. unfold node_update. simpl.
    apply dict_set_values; auto. apply function_attrs_ok.
Qed.

Lemma parse_node_typed (fs : FileSystem) (id : string) (a : NodeAttrs) :
  node_get (parse fs) id = Some a -> node_ok a.
Proof.
  rewrite parse_node_get. unfold node_get. rewrite built_nodes. revert id a.
  apply fold_left_ind.
  - intros id a E. apply collected_node_inv in E. destruct E as [_ ->].
    apply file_attrs_ok.
  - intros d item _ Hd. now apply file_nodes_ok.
Qed.

(** Every node of the finished graph, on every input, carries one of the
    three types and a display name, and a line count, if any, that is not
    negative: no call of [add_edge] ever made a node of its own. *)
Theorem parse_nodes_ok (fs : FileSystem) (id : string) (a : NodeAttrs) :
  node_get (parse fs) id = Some a -> node_ok a.
Proof.
  rewrite parse_node_get. unfold node_get. rewrite built_nodes. revert id a.
  apply fold_left_ind.
  - intros id a E. apply collected_node_inv in E. destruct E as [_ ->].
    repeat split; simpl; auto; discriminate.
  - intros d [r pf] _ Hd. simpl. unfold decl_fold.
    apply fold_left_ind; [apply fold_left_ind; auto|].
    + intros d' [c cn] _ Hd'. unfold node_update. simpl.
      apply dict_set_values; auto. apply class_attrs_ok.
    + intros d' [f fn] _ Hd'. unfold node_update. simpl.
      apply dict_set_values; auto. apply function_attrs_ok.
Qed.

Lemma parse_nodes_ok_witness :
  node_get (parse same_name_repo) "m.py::foo"
  = Some {| a_type := Some "function"; a_display_name := Some "foo()";
            a_file := Some "m.py"; a_lineno := Some 4%Z; a_end_lineno := Some 5%Z;
            a_loc := Some 2%Z; a_params := Some ["x"]; a_doc := Some "" |}
  /\ node_ok {| a_type := Some "function"; a_display_name := Some "foo()";
                a_file := Some "m.py"; a_lineno := Some 4%Z; a_end_lineno := Some 5%Z;
                a_loc := Some 2%Z; a_params := Some ["x"]; a_doc := Some "" |}.
Proof.
  split; [reflexivity|].
  apply (parse_nodes_ok same_name_repo "m.py::foo"). reflexivity.
Defined.

Lemma built_file_present (fs : FileSystem) (r : string) :
  In r (dict_keys (files (indexed fs))) -> node_get (graph (built fs)) r <> None.
Proof.
  intros Hin. unfold node_get. rewrite built_nodes.
  apply fold_file_nodes_present. now apply collected_files_present.
Qed.

(** Every edge of the finished graph, on every input, has one of the three
    labels, and both its end points are nodes of the graph. *)
Theorem parse_edges_closed (fs : FileSystem) (u v l : string) :
  edge_get (parse fs) u v = Some l ->
  (l = "defined_in" \/ l = "file_import" \/ l = "calls")
  /\ node_get (parse fs) u <> None
  /\ node_get (parse fs) v <> None.
Proof.
  intros E. apply parse_sound in E. rewrite !parse_node_get.
  destruct E as [[-> (pf & n & Hin & Hd & ->)]
                |[[-> (pf & m & Hin & Hm & Ht)]
                 |[-> (r & pf & f & fnode & t & args & Hin & Hf & _ & Ht & -> & ->)]]].
  - split; auto. split.
    + apply built_file_present. now apply files_In_key with pf.
    + eapply built_decl_present; eauto.
  - split; auto. split.
    + apply built_file_present. now apply files_In_key with pf.
    + apply built_file_present. now apply first_match_In in Ht.
  - split; auto. split.
    + eapply built_decl_present; eauto. apply declared_keys. right.
      now apply (in_map fst) in Hf.
    + eapply built_decl_present; eauto. unfold declared. rewrite Ht. apply orb_true_r.
Qed.

Lemma parse_edges_closed_witness :
  edge_get (parse test_repo) "file3.py" "file1.py" = Some "file_import"
  /\ node_get (parse test_repo) "file3.py" <> None
  /\ node_get (parse test_repo) "file1.py" <> None.
Proof.
  split; [reflexivity|].
  apply (parse_edges_closed test_repo "file3.py" "file1.py" "file_import"). reflexivity.
Defined.

Lemma declared_top_level (rel : string) (tree : list ast) (n : string) :
  declared (make_parsed_file rel tree) n = true ->
  exists stmt, In stmt tree
               /\ (is_function_named n stmt = true \/ is_class_named n stmt = true).
Proof.
  unfold declared, dict_mem. rewrite functions_last, classes_last.
  destruct (last_such (is_class_named n) tree) as [x|] eqn:Ec.
  - intros _. apply last_such_In in Ec. exists x. tauto.
  - destruct (last_such (is_function_named n) tree) as [x|] eqn:Ef; [|discriminate].
    intros _. apply last_such_In in Ef. exists x. tauto.
Qed.

(** Only top-level definitions become nodes: every node of the finished
    graph that is not a file node is [rel::n] for an analyzed file [rel]
    and the name [n] of one of its top-level statements.  Methods and
    nested functions have no node. *)
Theorem declaration_nodes_top_level (fs : FileSystem) (id : string) (a : NodeAttrs) :
  well_formed fs = true ->
  node_get (parse fs) id = Some a ->
  a_type a <> Some "file" ->
  exists r tree n stmt,
    In r (discovered fs) /\ read_parse fs r = Some tree /\ In stmt tree
    /\ (is_function_named n stmt = true \/ is_class_named n stmt = true)
    /\ id = decl_id r n /\ a_file a = Some r.
Proof.
  intros Hwf E Hty.
  destruct (parse_node_cases fs id a Hwf E) as [[_ ->]|(r & pf & n & Hin & Hd & -> & Ha)].
  { exfalso. now apply Hty. }
  apply files_In in Hin. destruct Hin as (HD & tree & Er & ->).
  destruct (declared_top_level r tree n Hd) as (stmt & Hs & Hn).
  exists r, tree, n, stmt. repeat split; auto. eapply decl_node_file; eauto.
Qed.

Lemma declaration_nodes_top_level_witness :
  well_formed test_repo = true
  /\ exists r tree n stmt,
      In r (discovered test_repo) /\ read_parse test_repo r = Some tree /\ In stmt tree
      /\ (is_function_named n stmt = true \/ is_class_named n stmt = true)
      /\ "file2.py::Car" = decl_id r n
      /\ a_file (class_attrs "file2.py" "Car" (nth 1 file2_py (Other []))) = Some r.
Proof.
  split; [reflexivity|].
  apply (declaration_nodes_top_level test_repo "file2.py::Car"
           (class_attrs "file2.py" "Car" (nth 1 file2_py (Other [])))).
  - reflexivity.
  - reflexivity.
  - discriminate.
Defined.

Lemma named_function_identifier (fs : FileSystem) (r : string) (tree : list ast)
      (n : string) (x : ast) :
  well_formed fs = true -> In r (discovered fs) -> read_parse fs r = Some tree ->
  last_such (is_function_named n) tree = Some x \/ last_such (is_class_named n) tree = Some x ->
  is_identifier n = true.
Proof.
  intros Hwf HD Er Hx. unfold well_formed in Hwf. rewrite forallb_forall in Hwf.
  specialize (Hwf r HD). rewrite Er in Hwf. rewrite forallb_forall in Hwf.
  destruct Hx as [Hx|Hx]; apply last_such_In in Hx; destruct Hx as [Hin Hp].
  - eapply function_named_ok; eauto.
  - eapply class_named_ok; eauto.
Qed.



(** The node of a class: for the last top-level definition of [c] in an
    analyzed file that has no top-level function of that name, the finished
    graph holds at [rel::c] the attributes of that class, and no parameter
    list. *)
Theorem class_node_attributes (fs : FileSystem) (r : string) (tree : list ast)
        (c : string) (bases body decs : list ast) (l e : Z) (d : option string) :
  well_formed fs = true ->
  In r (discovered fs) ->
  read_parse fs r = Some tree ->
  last_such (is_class_named c) tree = Some (ClassDef c bases body decs l e d) ->
  last_such (is_function_named c) tree = None ->
  node_get (parse fs) (decl_id r c)
  = Some {| a_type := Some "class"; a_display_name := Some c;
            a_file := Some r; a_lineno := Some l; a_end_lineno := Some e;
            a_loc := Some (Z.max 0 (e - l + 1)); a_params := None;
            a_doc := Some (match d with
                           | Some s => if String.eqb s "" then "" else s
                           | None => ""
                           end) |}.
Proof.
  intros Hwf HD Er Hlast Hnone.
  rewrite (parse_node_decl fs r (make_parsed_file r tree) c); auto.
  - unfold decl_node. rewrite functions_last, classes_last, Hlast, Hnone. reflexivity.
  - apply files_In. eauto.
  - eapply named_function_identifier; eauto.
Qed.

Lemma class_node_attributes_witness :
  well_formed test_repo = true
  /\ node_get (parse test_repo) (decl_id "file2.py" "Vehicle")
     = Some {| a_type := Some "class"; a_display_name := Some "Vehicle";
               a_file := Some "file2.py"; a_lineno := Some 1%Z; a_end_lineno := Some 9%Z;
               a_loc := Some (Z.max 0 (9 - 1 + 1)); a_params := None;
               a_doc := Some "" |}.
Proof.
  split; [reflexivity|].
  apply (class_node_attributes test_repo "file2.py" file2_py "Vehicle" []
           [method "__init__" 2 3; method "start_engine" 5 6; method "stop_engine" 8 9]
           [] 1 9 None).
  - reflexivity.
  - simpl. auto.
  - reflexivity.
  - reflexivity.
  - reflexivity.
Defined.

(** ** Stages 3 and 4: edges *)

(** The [calls] edges, exactly, on every input: [u] calls [v] in the
    finished graph if and only if they are [rel::f] and [rel::t] for an
    analyzed file [rel], the last top-level definition of [f] has
    somewhere below it a call whose callee is the bare name [t], and [t] is
    also a top-level function of that file.  A call through an attribute, a
    call of a class, of an imported or of an unknown name gives no edge. *)
Theorem calls_edge_iff (fs : FileSystem) (u v : string) :
  edge_get (parse fs) u v = Some "calls" <->
  exists r tree f fnode t args,
    In r (discovered fs) /\ read_parse fs r = Some tree
    /\ last_such (is_function_named f) tree = Some fnode
    /\ In (Call (Name t) args) (walk fnode)
    /\ last_such (is_function_named t) tree <> None
    /\ u = decl_id r f /\ v = decl_id r t.
Proof.
  split.
  - intros E. apply parse_sound in E.
    destruct E as [[E _]|[[E _]|[_ Hc]]]; try discriminate.
    destruct Hc as (r & pf & f & fnode & t & args & Hin & Hf & Hsub & Ht & -> & ->).
    pose proof (files_tables_NoDup fs r pf Hin) as [Hnd _].
    apply files_In in Hin. destruct Hin as (HD & tree & Er & ->).
    exists r, tree, f, fnode, t, args. repeat split; auto.
    + rewrite <- functions_last with (rel := r). now apply In_dict_get.
    + rewrite <- functions_last with (rel := r). unfold dict_mem in Ht.
      destruct (dict_get t (functions (make_parsed_file r tree))); [discriminate|discriminate].
  - intros (r & tree & f & fnode & t & args & HD & Er & Hf & Hsub & Ht & -> & ->).
    apply call_edge. exists r, (make_parsed_file r tree), f, fnode, t, args.
    repeat split; auto.
    + apply files_In. eauto.
    + apply dict_get_In. now rewrite functions_last.
    + unfold dict_mem. rewrite functions_last.
      destruct (last_such (is_function_named t) tree); [reflexivity | congruence].
Qed.

(** The [defined_in] edges, exactly: [u] has one to [v] if and only if [u]
    is an analyzed file and [v] is [u::n] for the name [n] of one of its
    top-level definitions. *)
Theorem defined_in_edge_iff (fs : FileSystem) (u v : string) :
  well_formed fs = true ->
  (edge_get (parse fs) u v = Some "defined_in" <->
   exists tree n stmt,
     In u (discovered fs) /\ read_parse fs u = Some tree /\ In stmt tree
     /\ (is_function_named n stmt = true \/ is_class_named n stmt = true)
     /\ v = decl_id u n).
Proof.
  intros Hwf. split.
  - intros E. apply parse_sound in E.
    destruct E as [[_ (pf & n & Hin & Hd & ->)]|[[E _]|[E _]]]; try discriminate.
    apply files_In in Hin. destruct Hin as (HD & tree & Er & ->).
    destruct (declared_top_level u tree n Hd) as (stmt & Hs & Hn).
    exists tree, n, stmt. auto.
  - intros (tree & n & stmt & HD & Er & Hs & Hn & ->).
    apply edge_defined_in; auto. exists (make_parsed_file u tree), n.
    repeat split; auto.
    + apply files_In. eauto.
    + eapply top_level_declared; eauto.
Qed.

Lemma defined_in_edge_iff_witness :
  well_formed test_repo = true
  /\ (edge_get (parse test_repo) "file1.py" "file1.py::load_assets" = Some "defined_in" <->
      exists tree n stmt,
        In "file1.py" (discovered test_repo)
        /\ read_parse test_repo "file1.py" = Some tree /\ In stmt tree
        /\ (is_function_named n stmt = true \/ is_class_named n stmt = true)
        /\ "file1.py::load_assets" = decl_id "file1.py" n).
Proof.
  split; [reflexivity|].
  apply (defined_in_edge_iff test_repo "file1.py" "file1.py::load_assets"). reflexivity.
Defined.

Lemma decl_node_type (r : string) (pf : ParsedFile) (n : string) (a : NodeAttrs) :
  decl_node r pf n = Some a ->
  (a_type a = Some "class" \/ a_type a = Some "function")
  /\ (dict_mem n (functions pf) = true -> a_type a = Some "function").
Proof.
  unfold decl_node, dict_mem. destruct (dict_get n (functions pf)) as [f|].
  - intros [= <-]. simpl. auto.
  - destruct (dict_get n (classes pf)) as [c|]; [|discriminate].
    intros [= <-]. simpl. split; [auto | discriminate].
Qed.

Lemma parse_node_declared (fs : FileSystem) (r : string) (pf : ParsedFile) (n : string) :
  well_formed fs = true -> In (r, pf) (files (indexed fs)) -> declared pf n = true ->
  exists a, node_get (parse fs) (decl_id r n) = Some a /\ decl_node r pf n = Some a.
Proof.
  intros Hwf Hin Hd.
  rewrite (parse_node_decl fs r pf n); auto.
  - destruct (decl_node r pf n) as [a|] eqn:Ea; eauto.
    exfalso. unfold decl_node, declared, dict_mem in *.
    destruct (dict_get n (functions pf)); [discriminate|].
    destruct (dict_get n (classes pf)); discriminate.
  - eapply files_declared_identifier; eauto.
Qed.

(** The kinds of the end points: a [defined_in] edge goes from a file
    node to a class or function node of that file, a [file_import] edge
    from a file node to a file node, a [calls] edge from a function node to
    a function node of the same file. *)
Theorem edge_end_point_types (fs : FileSystem) (u v l : string) :
  well_formed fs = true ->
  edge_get (parse fs) u v = Some l ->
  exists a b,
    node_get (parse fs) u = Some a /\ node_get (parse fs) v = Some b
    /\ ((l = "defined_in" /\ a_type a = Some "file"
         /\ (a_type b = Some "class" \/ a_type b = Some "function")
         /\ a_file b = Some u)
        \/ (l = "file_import" /\ a_type a = Some "file" /\ a_type b = Some "file")
        \/ (l = "calls" /\ a_type a = Some "function" /\ a_type b = Some "function"
            /\ a_file a = a_file b)).
Proof.
  intros Hwf E. apply parse_sound in E.
  destruct E as [[-> (pf & n & Hin & Hd & ->)]
                |[[-> (pf & m & Hin & Hm & Ht)]
                 |[-> (r & pf & f & fnode & t & args & Hin & Hf & _ & Ht & -> & ->)]]].
  - destruct (parse_node_declared fs u pf n Hwf Hin Hd) as (b & Eb & Hb).
    exists (file_attrs u), b. split; [|split; auto].
    + apply parse_node_file; auto. apply files_In in Hin. tauto.
    + left. repeat split; auto.
      * apply (decl_node_type u pf n b Hb).
      * eapply decl_node_file; eauto.
  - exists (file_attrs u), (file_attrs v). split; [|split].
    + apply parse_node_file; auto. apply files_In in Hin. tauto.
    + apply parse_node_file; auto. apply first_match_In in Ht.
      destruct Ht as [Ht _]. apply files_key_In in Ht. tauto.
    + right. left. auto.
  - assert (Hdf : declared pf f = true).
    { apply declared_keys. right. now apply (in_map fst) in Hf. }
    assert (Hmf : dict_mem f (functions pf) = true).
    { apply dict_mem_keys. now apply (in_map fst) in Hf. }
    assert (Hdt : declared pf t = true) by (unfold declared; rewrite Ht; apply orb_true_r).
    destruct (parse_node_declared fs r pf f Hwf Hin Hdf) as (a & Ea & Ha).
    destruct (parse_node_declared fs r pf t Hwf Hin Hdt) as (b & Eb & Hb).
    exists a, b. split; auto. split; auto. right. right. repeat split.
    + now apply (decl_node_type r pf f a Ha).
    + now apply (decl_node_type r pf t b Hb).
    + rewrite (decl_node_file _ _ _ _ Ha), (decl_node_file _ _ _ _ Hb). reflexivity.
Qed.

Lemma edge_end_point_types_witness :
  well_formed test_repo = true
  /\ edge_get (parse test_repo) "file1.py::initialize_game" "file1.py::load_assets"
     = Some "calls"
  /\ exists a b,
      node_get (parse test_repo) "file1.py::initialize_game" = Some a
      /\ node_get (parse test_repo) "file1.py::load_assets" = Some b
      /\ (("calls" = "defined_in" /\ a_type a = Some "file"
           /\ (a_type b = Some "class" \/ a_type b = Some "function")
           /\ a_file b = Some "file1.py::initialize_game")
          \/ ("calls" = "file_import" /\ a_type a = Some "file" /\ a_type b = Some "file")
          \/ ("calls" = "calls" /\ a_type a = Some "function" /\ a_type b = Some "function"
              /\ a_file a = a_file b)).
Proof.
  split; [reflexivity|]. split; [reflexivity|].
  apply (edge_end_point_types test_repo "file1.py::initialize_game"
           "file1.py::load_assets" "calls"); reflexivity.
Defined.

(** Call resolution adds no node and changes no attribute; it removes no
    edge; and every edge of the finished graph that is not labeled [calls]
    was there, with its label, before call resolution. *)
Theorem resolve_calls_spec (fs : FileSystem) :
  g_node (graph (_resolve_calls_basic (built fs))) = g_node (graph (built fs))
  /\ (forall u v, edge_get (graph (built fs)) u v <> None ->
                  edge_get (graph (_resolve_calls_basic (built fs))) u v <> None)
  /\ (forall u v l, edge_get (graph (_resolve_calls_basic (built fs))) u v = Some l ->
                    l = "calls" \/ edge_get (graph (built fs)) u v = Some l).
Proof.
  fold (run_parse fs). fold (parse fs). split; [|split].
  - apply run_parse_nodes.
  - intros u v. apply resolve_keeps.
  - unfold parse, run_parse, _resolve_calls_basic; cbn [graph].
    apply (fold_left_ind
             (fun g => forall u v l, edge_get g u v = Some l ->
                                     l = "calls" \/ edge_get (graph (built fs)) u v = Some l));
      auto.
    intros g [r pf] _ Hg. simpl.
    apply fold_left_ind; auto. intros g1 [f fn] _ H1. simpl.
    apply fold_left_ind; auto. intros g2 sub _ H2. unfold resolve_sub.
    destruct sub as [| func args | | | | |]; auto.
    destruct func; auto. destruct (dict_mem id (functions pf)); auto.
    intros u v l E. apply edge_get_add_edge_cases in E.
    destruct E as [(_ & _ & ->)|E]; auto.
Qed.

(** ** Repositories with nothing to analyze *)

Lemma parse_unfold (fs : FileSystem) :
  parse fs
  = fold_left resolve_file (files (indexed fs))
              (fold_left (add_file (dict_keys (files (indexed fs))))
                         (files (indexed fs)) (graph (collected fs))).
Proof. reflexivity. Qed.

Lemma parse_without_records (fs : FileSystem) :
  (forall r, In r (discovered fs) -> read_parse fs r = None) ->
  parse fs = graph (collected fs).
Proof.
  intros Hnone.
  assert (Hfiles : files (indexed fs) = []).
  { rewrite files_indexed.
    assert (H : forall l, (forall r, In r l -> In r (discovered fs)) ->
                          flat_map (parsed_entry fs) l = []).
    { induction l as [|r l IH]; intros Hl; simpl; auto.
      unfold parsed_entry at 1. rewrite (Hnone r) by (apply Hl; now left).
      apply IH. intros; apply Hl; now right. }
    apply H. intros r. apply collected_keys. }
  rewrite parse_unfold, Hfiles. reflexivity.
Qed.

(** When no discovered file can be read and parsed, the finished graph is
    the graph of stage 1: the bare file nodes and no edge. *)
Theorem parse_all_files_broken (fs : FileSystem) :
  (forall r, In r (discovered fs) -> read_parse fs r = None) ->
  parse fs = graph (collected fs)
  /\ g_adj (parse fs) = []
  /\ (forall id, node_get (parse fs) id
                 = if existsb (String.eqb id) (discovered fs)
                   then Some (file_attrs id) else None).
Proof.
  intros Hnone. pose proof (parse_without_records fs Hnone) as E.
  rewrite E. split; [reflexivity|]. split; [apply collected_no_edges|].
  intros id. destruct (existsb (String.eqb id) (discovered fs)) eqn:Ex.
  - apply collected_node. now apply existsb_eqb_In.
  - destruct (node_get (graph (collected fs)) id) as [a|] eqn:Ea; auto.
    apply collected_node_inv in Ea. destruct Ea as [Hin _].
    apply existsb_eqb_In in Hin. congruence.
Qed.

Lemma parse_all_files_broken_witness :
  parse (disk [("", ["a.py"; "notes.txt"]); ("pkg", ["b.py"])] [])
  = {| g_node := [("a.py", file_attrs "a.py"); ("pkg/b.py", file_attrs "pkg/b.py")];
       g_adj := [] |}.
Proof.
  destruct (parse_all_files_broken (disk [("", ["a.py"; "notes.txt"]); ("pkg", ["b.py"])] []))
    as (E & _).
  - intros r _. reflexivity.
  - rewrite E. reflexivity.
Defined.

Lemma walk_paths_none (walk : list (string * list string)) :
  (forall root fnames fname, In (root, fnames) walk -> In fname fnames ->
                             endswith fname ".py" = false) ->
  walk_paths walk = [].
Proof.
  unfold walk_paths. induction walk as [|[root fnames] walk IH]; intros Hno; simpl; auto.
  rewrite IH by (intros; eapply Hno; [right|]; eauto).
  rewrite app_nil_r.
  assert (Hf : forall l, (forall fname, In fname l -> endswith fname ".py" = false) ->
                         filter (fun fname => endswith fname ".py") l = []).
  { induction l as [|x l IHl]; intros Hl; simpl; auto.
    rewrite (Hl x) by now left. apply IHl. intros; apply Hl; now right. }
  rewrite Hf; auto. intros fname Hin. eapply Hno; [left|]; eauto.
Qed.

(** A tree without any file whose name ends in [.py] gives the empty
    graph. *)
Theorem parse_no_source_files (fs : FileSystem) :
  (forall root fnames fname, In (root, fnames) (os_walk fs) -> In fname fnames ->
                             endswith fname ".py" = false) ->
  parse fs = empty_graph /\ files (run_parse fs) = [].
Proof.
  intros Hno. pose proof (discovered_paths fs) as Epaths.
  pose proof (collected_order fs) as Ekeys. pose proof (collected_no_edges fs) as Eadj.
  rewrite (walk_paths_none _ Hno) in Epaths. rewrite Epaths in Ekeys.
  assert (Eg : graph (collected fs) = empty_graph).
  { destruct (graph (collected fs)) as [nodes adj]. simpl in *. subst adj.
    destruct nodes; [reflexivity | discriminate]. }
  assert (E : parse fs = graph (collected fs)).
  { apply parse_without_records. rewrite Epaths. intros r []. }
  split; [now rewrite E|].
  change (files (run_parse fs)) with (files (indexed fs)).
  rewrite files_indexed, Eg. reflexivity.
Qed.

Lemma parse_no_source_files_witness :
  parse (disk [("", ["README.md"; "setup.cfg"]); ("docs", ["index.rst"; "py"])] [])
  = empty_graph.
Proof.
  apply (parse_no_source_files
           (disk [("", ["README.md"; "setup.cfg"]); ("docs", ["index.rst"; "py"])] [])).
  intros root fnames fname Hin Hf. simpl in Hin.
  destruct Hin as [E|[E|[]]]; inversion E; subst; simpl in Hf;
    repeat (destruct Hf as [<-|Hf]; [reflexivity|]); contradiction.
Defined.

(** ** Import matching goes by file name alone *)

Lemma contains_char_app (c : ascii) (a b : string) :
  contains_char c (a ++ b)%string = contains_char c a || contains_char c b.
Proof.
  induction a as [|d a IH]; simpl; auto. now rewrite IH, orb_assoc.
Qed.

Lemma basename_no_slash (s : string) : contains_char "/" s = false -> basename s = s.
Proof.
  destruct s as [|c t]; simpl; auto. intros E. apply orb_false_elim in E.
  destruct E as [Ec Et]. now rewrite Et, Ec.
Qed.

Lemma basename_dir_slash (dir fname : string) :
  contains_char "/" fname = false -> basename (dir ++ "/" ++ fname)%string = fname.
Proof.
  intros Hf. induction dir as [|c dir IH]; simpl.
  - now rewrite Hf.
  - rewrite contains_char_app. simpl. now rewrite orb_true_r.
Qed.

(** The base name of a discovered path is the listed file name, whatever
    the directory. *)
Lemma basename_relpath_join (root fname : string) :
  contains_char "/" fname = false ->
  basename (relpath_join root fname) = fname.
Proof.
  intros Hf. unfold relpath_join. destruct (String.eqb root "").
  - now apply basename_no_slash.
  - now apply basename_dir_slash.
Qed.

Lemma find_unique {A : Type} (q : A -> bool) (l : list A) (t : A) :
  In t l -> q t = true -> (forall x, In x l -> q x = true -> x = t) ->
  find q l = Some t.
Proof.
  intros Hin Hq Huniq. destruct (find q l) as [x|] eqn:E.
  - apply find_some in E. destruct E as [Hx Hqx]. f_equal. now apply Huniq.
  - rewrite (find_none _ _ E t Hin) in Hq. discriminate.
Qed.

(** So a module is found in any directory: if an analyzed file references
    the root module [m], and [m.py] was listed in some directory, parsed,
    and is the only analyzed file of that name, the importing file gets its
    [file_import] edge to it. *)
Theorem import_resolves_in_any_directory (fs : FileSystem) (r : string)
        (tree : list ast) (m root : string) :
  well_formed fs = true ->
  In r (discovered fs) ->
  read_parse fs r = Some tree ->
  In m (referenced_modules (make_parsed_file r tree)) ->
  contains_char "/" m = false ->
  In (relpath_join root (m ++ ".py")) (discovered fs) ->
  is_parsed fs (relpath_join root (m ++ ".py")) = true ->
  (forall p, In p (discovered fs) -> is_parsed fs p = true ->
             basename p = (m ++ ".py")%string -> p = relpath_join root (m ++ ".py")) ->
  edge_get (parse fs) r (relpath_join root (m ++ ".py")) = Some "file_import".
Proof.
  intros Hwf Hr Er Hm Hslash Ht Hparsed Huniq.
  apply edge_file_import; auto.
  exists (make_parsed_file r tree), m. repeat split; auto.
  - apply files_In. eauto.
  - rewrite first_match_analyzed. unfold first_analyzed_match.
    apply find_unique; auto.
    + rewrite Hparsed. simpl. apply String.eqb_eq.
      apply basename_relpath_join. rewrite contains_char_app, Hslash. reflexivity.
    + intros p Hp Hq. apply andb_prop in Hq. destruct Hq as [Hq1 Hq2].
      apply String.eqb_eq in Hq2. auto.
Qed.

Lemma import_resolves_in_any_directory_witness :
  well_formed package_repo = true
  /\ edge_get (parse package_repo) "main.py" "pkg/util.py" = Some "file_import".
Proof.
  split; [reflexivity|].
  apply (import_resolves_in_any_directory package_repo "main.py"
           [ImportFrom (Some "util") [Alias "helper" None]] "util" "pkg").
  - reflexivity.
  - simpl. auto.
  - reflexivity.
  - simpl. auto.
  - reflexivity.
  - simpl. auto.
  - reflexivity.
  - intros p Hp _ Hb. simpl in Hp. destruct Hp as [<-|[<-|[]]].
    + discriminate Hb.
    + reflexivity.
Defined.

(** * The knowledge store *)

(** ** Statistics *)

Lemma parse_nodes_NoDup (fs : FileSystem) : NoDup (dict_keys (g_node (parse fs))).
Proof.
  unfold parse. rewrite run_parse_nodes, built_nodes.
  apply fold_left_ind; [apply collected_keys_NoDup|].
  intros d [r pf] _ Hd. simpl. unfold decl_fold.
  apply fold_left_ind; [apply fold_left_ind; auto|];
    intros d' it _ Hd'; unfold node_update; now apply dict_set_NoDup.
Qed.

Lemma has_type_count (a : NodeAttrs) :
  (if Store.has_type "file" a then 1 else 0)
  + (if Store.has_type "function" a then 1 else 0)
  + (if Store.has_type "class" a then 1 else 0) <= 1
  /\ (node_ok a ->
      (if Store.has_type "file" a then 1 else 0)
      + (if Store.has_type "function" a then 1 else 0)
      + (if Store.has_type "class" a then 1 else 0) = 1).
Proof.
  unfold Store.has_type, node_ok. destruct (a_type a) as [t|].
  - destruct (String.eqb_spec t "file") as [->|Hf]; [simpl; split; auto|].
    destruct (String.eqb_spec t "function") as [->|Hg]; [simpl; split; auto|].
    destruct (String.eqb_spec t "class") as [->|Hc]; [simpl; split; auto|].
    simpl. split; [lia|]. intros [[E|[E|E]] _]; congruence.
  - simpl. split; [lia|]. intros [[E|[E|E]] _]; discriminate.
Qed.

Lemma filter_length_cons {A : Type} (p : A -> bool) (x : A) (l : list A) :
  length (filter p (x :: l)) = (if p x then 1 else 0) + length (filter p l).
Proof. simpl. now destruct (p x). Qed.

Lemma count_type_sum (d : dict string NodeAttrs) :
  length (filter (fun item => Store.has_type "file" (snd item)) d)
  + length (filter (fun item => Store.has_type "function" (snd item)) d)
  + length (filter (fun item => Store.has_type "class" (snd item)) d) <= length d
  /\ ((forall id a, In (id, a) d -> node_ok a) ->
      length (filter (fun item => Store.has_type "file" (snd item)) d)
      + length (filter (fun item => Store.has_type "function" (snd item)) d)
      + length (filter (fun item => Store.has_type "class" (snd item)) d) = length d).
Proof.
  induction d as [|[id a] d [IH1 IH2]].
  - simpl. split; auto.
  - rewrite !filter_length_cons. cbn [snd length].
    destruct (has_type_count a) as [H1 H2]. split.
    + lia.
    + intros Hok. specialize (H2 (Hok id a (or_introl eq_refl))).
      specialize (IH2 (fun id' a' H => Hok id' a' (or_intror H))). lia.
Qed.

(** The three counts of [get_stats] never exceed the number of nodes, on
    any graph; on a graph built by [parse] they add up to it, as every node
    is a file, a function or a class. *)
Theorem get_stats_partition :
  (forall self : Store.KnowledgeStore,
      Store.num_files (Store.get_stats self)
      + Store.num_functions (Store.get_stats self)
      + Store.num_classes (Store.get_stats self)
      <= Store.num_nodes (Store.get_stats self))
  /\ (forall (fs : FileSystem) (dir : string),
         let stats := Store.get_stats {| Store.cache_dir := dir;
                                         Store.graph := Some (parse fs) |} in
         Store.num_files stats + Store.num_functions stats + Store.num_classes stats
         = Store.num_nodes stats).
Proof.
  split.
  - intros [dir [g|]]; simpl; [|lia]. apply (count_type_sum (g_node g)).
  - intros fs dir. simpl. apply (count_type_sum (g_node (parse fs))).
    intros id a Hin. apply (parse_node_typed fs id).
    apply In_dict_get; auto. apply parse_nodes_NoDup.
Qed.

Lemma NoDup_keys_filter {V : Type} (p : string * V -> bool) (d : dict string V) :
  NoDup (dict_keys d) -> NoDup (dict_keys (filter p d)).
Proof.
  induction d as [|[k v] d IH]; simpl; auto.
  intros Hnd. inversion Hnd as [|? ? Hni Hnd']; subst.
  destruct (p (k, v)); simpl; auto. constructor; auto.
  intros Hin. apply Hni. unfold dict_keys in *. apply in_map_iff in Hin.
  destruct Hin as (x & E & Hx). apply filter_In in Hx. apply in_map_iff. exists x. tauto.
Qed.

Lemma count_by_keys {V : Type} (p : string * V -> bool) (d : dict string V)
      (keys : list string) :
  NoDup (dict_keys d) -> NoDup keys ->
  (forall k, In k keys <-> exists v, In (k, v) d /\ p (k, v) = true) ->
  length (filter p d) = length keys.
Proof.
  intros Hd Hk Hiff.
  rewrite <- (length_map fst (filter p d)).
  apply Permutation_length, NoDup_Permutation; auto.
  - now apply (NoDup_keys_filter p) in Hd.
  - intros k. rewrite Hiff, in_map_iff. split.
    + intros ([k' v] & E & Hx). simpl in E. subst. apply filter_In in Hx. eauto.
    + intros (v & Hin & Hp). exists (k, v). split; auto. apply filter_In. auto.
Qed.

Lemma dedup_NoDup_In (fs : FileSystem) :
  NoDup (dedup (discovered fs))
  /\ forall id, In id (dedup (discovered fs)) <-> In id (discovered fs).
Proof.
  rewrite <- collected_order. split; [apply collected_keys_NoDup|].
  intros id. apply collected_keys.
Qed.

(** [Files] counts the distinct discovered source paths, whether they
    parsed or not. *)
Theorem stats_num_files (fs : FileSystem) :
  well_formed fs = true ->
  Store.num_files (stats_of (parse fs)) = length (dedup (discovered fs)).
Proof.
  intros Hwf. simpl. unfold Store.count_type, dict_items.
  destruct (dedup_NoDup_In fs) as [Hnd Hin].
  apply count_by_keys; auto; [apply parse_nodes_NoDup|].
  intros id. rewrite Hin. split.
  - intros Hd. exists (file_attrs id). split; [|reflexivity].
    apply dict_get_In. now apply parse_node_file.
  - intros (a & Ha & Hp). apply In_dict_get in Ha; [|apply parse_nodes_NoDup].
    destruct (parse_node_cases fs id a Hwf Ha) as [[Hd _]|(r & pf & n & _ & _ & _ & Hn)]; auto.
    apply decl_node_type in Hn. destruct Hn as [[E|E] _];
      simpl in Hp; unfold Store.has_type in Hp; rewrite E in Hp; discriminate.
Qed.

Lemma stats_num_files_witness :
  well_formed broken_repo = true
  /\ Store.num_files (stats_of (parse broken_repo)) = 2.
Proof.
  split; [reflexivity|]. apply (stats_num_files broken_repo). reflexivity.
Defined.

Lemma NoDup_app_intro {A : Type} (l1 l2 : list A) :
  NoDup l1 -> NoDup l2 -> (forall x, In x l1 -> ~ In x l2) -> NoDup (l1 ++ l2).
Proof.
  induction l1 as [|x l1 IH]; simpl; auto.
  intros H1 H2 Hd. inversion H1 as [|? ? Hni H1']; subst. constructor.
  - intros Hin. apply in_app_or in Hin. destruct Hin as [Hin|Hin]; auto.
    apply (Hd x); auto.
  - apply IH; auto.
Qed.

Lemma NoDup_map_decl_id (r : string) (names : list string) :
  NoDup names -> NoDup (map (decl_id r) names).
Proof.
  induction names as [|n names IH]; simpl; intros Hnd; [constructor|].
  inversion Hnd as [|? ? Hni Hnd']; subst. constructor; auto.
  intros Hin. apply in_map_iff in Hin. destruct Hin as (n' & E & Hn').
  apply decl_id_inj_name in E. now subst.
Qed.

(** The identifiers of the declarations that [names] selects in each file
    record. *)
Lemma decl_ids_NoDup (fs : FileSystem) (names : ParsedFile -> list string)
      (l : list (string * ParsedFile)) :
  well_formed fs = true ->
  (forall r pf, In (r, pf) (files (indexed fs)) ->
                NoDup (names pf) /\ forall n, In n (names pf) -> declared pf n = true) ->
  (forall it, In it l -> In it (files (indexed fs))) ->
  NoDup (dict_keys l) ->
  NoDup (flat_map (fun it => map (decl_id (fst it)) (names (snd it))) l).
Proof.
  intros Hwf Hnames. induction l as [|[r pf] l IH]; simpl; intros Hsub Hnd; [constructor|].
  inversion Hnd as [|? ? Hni Hnd']; subst.
  destruct (Hnames r pf (Hsub _ (or_introl eq_refl))) as [Hn Hdecl].
  apply NoDup_app_intro.
  - now apply NoDup_map_decl_id.
  - apply IH; auto.
  - intros id Hin Hin'. apply in_map_iff in Hin. destruct Hin as (n & <- & Hn1).
    apply in_flat_map in Hin'. destruct Hin' as ([r' pf'] & Hit & Hin').
    simpl in Hin'. apply in_map_iff in Hin'. destruct Hin' as (n' & E & Hn2).
    assert (Hf' : In (r', pf') (files (indexed fs))) by auto.
    apply decl_id_inj in E.
    + destruct E as [-> _]. apply Hni. now apply (in_map fst) in Hit.
    + apply (files_declared_identifier fs r' pf' n'); auto. now apply (Hnames r' pf').
    + apply (files_declared_identifier fs r pf n); auto.
Qed.

Lemma decl_ids_length (names : ParsedFile -> list string) (l : list (string * ParsedFile)) :
  length (flat_map (fun it => map (decl_id (fst it)) (names (snd it))) l)
  = list_sum (map (fun it => length (names (snd it))) l).
Proof.
  induction l as [|it l IH]; simpl; auto. now rewrite length_app, length_map, IH.
Qed.

Lemma decl_node_function_iff (r : string) (pf : ParsedFile) (n : string) (a : NodeAttrs) :
  decl_node r pf n = Some a ->
  (Store.has_type "function" a = true <-> In n (dict_keys (functions pf)))
  /\ (Store.has_type "class" a = true <->
      In n (dict_keys (classes pf)) /\ dict_mem n (functions pf) = false).
Proof.
  rewrite <- !dict_mem_keys. unfold decl_node, dict_mem, Store.has_type.
  destruct (dict_get n (functions pf)) as [f|].
  - intros [= <-]. simpl. split; split; auto; try discriminate. intros [_ E]. discriminate.
  - destruct (dict_get n (classes pf)) as [c|]; [|discriminate].
    intros [= <-]. simpl. split; split; auto; discriminate.
Qed.

Lemma count_decl_type (fs : FileSystem) (ty : string) (names : ParsedFile -> list string) :
  well_formed fs = true ->
  ty <> "file" ->
  (forall r pf, In (r, pf) (files (indexed fs)) ->
                NoDup (names pf) /\ forall n, In n (names pf) -> declared pf n = true) ->
  (forall r pf n a, decl_node r pf n = Some a ->
                    (Store.has_type ty a = true <-> In n (names pf))) ->
  Store.count_type ty (parse fs)
  = list_sum (map (fun it => length (names (snd it))) (files (indexed fs))).
Proof.
  intros Hwf Hty Hnames Htype. rewrite <- decl_ids_length.
  unfold Store.count_type, dict_items. apply count_by_keys.
  - apply parse_nodes_NoDup.
  - apply (decl_ids_NoDup fs); auto. apply files_keys_NoDup.
  - intros id. rewrite in_flat_map. split.
    + intros ([r pf] & Hin & Hid). simpl in Hid. apply in_map_iff in Hid.
      destruct Hid as (n & <- & Hn).
      destruct (Hnames r pf Hin) as [_ Hdecl].
      destruct (parse_node_declared fs r pf n Hwf Hin (Hdecl n Hn)) as (a & Ea & Ha).
      exists a. split; [now apply dict_get_In|]. simpl. now apply (Htype r pf n a Ha).
    + intros (a & Ha & Hp). apply In_dict_get in Ha; [|apply parse_nodes_NoDup].
      destruct (parse_node_cases fs id a Hwf Ha) as [[_ ->]|(r & pf & n & Hin & _ & -> & Hn)].
      * exfalso. cbn [snd] in Hp. unfold Store.has_type in Hp.
        cbn [a_type file_attrs] in Hp. apply String.eqb_eq in Hp. congruence.
      * exists (r, pf). split; auto. simpl. apply in_map.
        now apply (Htype r pf n a Hn).
Qed.

(** [Functions] counts, over the analyzed files, the distinct names of
    top-level functions; [Classes] counts the distinct names of top-level
    classes that are not also the name of a top-level function of the same
    file. *)
Theorem stats_num_declarations (fs : FileSystem) :
  well_formed fs = true ->
  Store.num_functions (stats_of (parse fs))
  = list_sum (map (fun it => length (dict_keys (functions (snd it)))) (files (run_parse fs)))
  /\ Store.num_classes (stats_of (parse fs))
     = list_sum (map (fun it =>
                        length (filter (fun c => negb (dict_mem c (functions (snd it))))
                                       (dict_keys (classes (snd it)))))
                     (files (run_parse fs))).
Proof.
  intros Hwf. change (files (run_parse fs)) with (files (indexed fs)). simpl. split.
  - apply (count_decl_type fs "function" (fun pf => dict_keys (functions pf))); auto.
    + discriminate.
    + intros r pf Hin. split; [apply (files_tables_NoDup fs r pf Hin)|].
      intros n Hn. apply declared_keys. auto.
    + intros r pf n a Ha. apply (decl_node_function_iff r pf n a Ha).
  - apply (count_decl_type fs "class"
             (fun pf => filter (fun c => negb (dict_mem c (functions pf)))
                               (dict_keys (classes pf)))); auto.
    + discriminate.
    + intros r pf Hin. split.
      * apply NoDup_filter. apply (files_tables_NoDup fs r pf Hin).
      * intros n Hn. apply filter_In in Hn. apply declared_keys. tauto.
    + intros r pf n a Ha. rewrite filter_In, negb_true_iff.
      apply (decl_node_function_iff r pf n a Ha).
Qed.

Lemma stats_num_declarations_witness :
  well_formed same_name_repo = true
  /\ Store.num_functions (stats_of (parse same_name_repo)) = 1
  /\ Store.num_classes (stats_of (parse same_name_repo)) = 0.
Proof.
  split; [reflexivity|]. apply (stats_num_declarations same_name_repo). reflexivity.
Defined.

(** ** Saving and loading *)


Lemma string_app_inv_tail (a b s : string) : (a ++ s)%string = (b ++ s)%string -> a = b.
Proof.
  intros E. apply (f_equal chars) in E. rewrite !chars_append in E.
  apply app_inv_tail in E. now apply chars_inj.
Qed.

Lemma string_app_inv_head (s a b : string) : (s ++ a)%string = (s ++ b)%string -> a = b.
Proof.
  intros E. apply (f_equal chars) in E. rewrite !chars_append in E.
  apply app_inv_head in E. now apply chars_inj.
Qed.

Lemma starts_with_slash_app (a b : string) :
  a <> EmptyString ->
  starts_with (chars "/") (chars (a ++ b)) = starts_with (chars "/") (chars a).
Proof. destruct a as [|c a]; [congruence | reflexivity]. Qed.

Lemma path_join_relative (a b : string) :
  starts_with (chars "/") (chars a) = false ->
  starts_with (chars "/") (chars b) = false ->
  starts_with (chars "/") (chars (path_join a b)) = false.
Proof.
  intros Ha Hb. unfold path_join. rewrite Hb.
  destruct a as [|c a]; [simpl; exact Hb|].
  destruct (String.eqb (String c a) "" || endswith (String c a) "/"); exact Ha.
Qed.

Lemma cache_name_relative (codebase_id : string) :
  starts_with (chars "/") (chars (codebase_id ++ "_graph.pkl"))
  = starts_with (chars "/") (chars codebase_id).
Proof. destruct codebase_id as [|c s]; reflexivity. Qed.

Lemma path_join_inj (a b1 b2 : string) :
  starts_with (chars "/") (chars b1) = starts_with (chars "/") (chars b2) ->
  path_join a b1 = path_join a b2 -> b1 = b2.
Proof.
  unfold path_join. intros ->. destruct (starts_with (chars "/") (chars b2)); auto.
  destruct (String.eqb a "" || endswith a "/"); intros E.
  - now apply string_app_inv_head in E.
  - apply string_app_inv_head in E. now apply (string_app_inv_head "/") in E.
Qed.

(** Two identifiers have the same cache file only if they are equal,
    provided the cache directory is relative, or neither identifier starts
    with a slash. *)
Lemma cache_path_inj (self : Store.KnowledgeStore) (id1 id2 : string) :
  starts_with (chars "/") (chars (Store.cache_dir self)) = false
  \/ (starts_with (chars "/") (chars id1) = false
      /\ starts_with (chars "/") (chars id2) = false) ->
  Store._cache_path self id1 = Store._cache_path self id2 -> id1 = id2.
Proof.
  intros Hrel E. unfold Store._cache_path in E.
  destruct (starts_with (chars "/") (chars id1)) eqn:E1;
    destruct (starts_with (chars "/") (chars id2)) eqn:E2.
  - apply path_join_inj in E; [|now rewrite !cache_name_relative, E1, E2].
    now apply string_app_inv_tail in E.
  - exfalso. destruct Hrel as [Hdir|[H _]]; [|discriminate].
    pose proof (path_join_relative (Store.cache_dir self) (id2 ++ "_graph.pkl") Hdir) as Hr.
    rewrite cache_name_relative, E2 in Hr. specialize (Hr eq_refl). rewrite <- E in Hr.
    unfold path_join in Hr. rewrite cache_name_relative, E1 in Hr.
    rewrite cache_name_relative, E1 in Hr. discriminate.
  - exfalso. destruct Hrel as [Hdir|[_ H]]; [|discriminate].
    pose proof (path_join_relative (Store.cache_dir self) (id1 ++ "_graph.pkl") Hdir) as Hr.
    rewrite cache_name_relative, E1 in Hr. specialize (Hr eq_refl). rewrite E in Hr.
    unfold path_join in Hr. rewrite cache_name_relative, E2 in Hr.
    rewrite cache_name_relative, E2 in Hr. discriminate.
  - apply path_join_inj in E; [|now rewrite !cache_name_relative, E1, E2].
    now apply string_app_inv_tail in E.
Qed.

Lemma load_other_saved (self other : Store.KnowledgeStore) (disk : Store.Disk)
        (id1 id2 : string) (g : DiGraph) :
  Store.cache_dir other = Store.cache_dir self ->
  starts_with (chars "/") (chars (Store.cache_dir self)) = false
  \/ (starts_with (chars "/") (chars id1) = false
      /\ starts_with (chars "/") (chars id2) = false) ->
  id1 <> id2 ->
  Store.load_graph other (snd (Store.save_graph self disk id1 g)) id2
  = Store.load_graph other disk id2.
Proof.
  intros Hdir Hrel Hne.
  assert (Hp : Store._cache_path other id2 <> Store._cache_path self id1).
  { intros E. apply Hne. symmetry. apply (cache_path_inj self); [tauto|].
    unfold Store._cache_path in *. now rewrite Hdir in E. }
  unfold Store.load_graph, Store.save_graph. cbn [snd].
  now rewrite dict_get_set_neq.
Qed.

(** * The command line *)

Lemma index_file_print_loop (env : Env) (fs : FileSystem) (items : dict string NodeAttrs) :
  (forall id a, In (id, a) items -> is_file_node a = true) ->
  flat_map (index_file_print env fs) items
  = map (fun rel => ("[parser] Failed to parse " ++ rel ++ ": " ++ failure_text env rel)%string)
        (filter (fun rel => negb (is_parsed fs rel)) (dict_keys items)).
Proof.
  induction items as [|[id a] items IH]; intros Hfile; simpl; auto.
  rewrite (Hfile id a) by now left. simpl.
  rewrite IH by (intros; eapply Hfile; right; eauto).
  unfold is_parsed. now destruct (read_parse fs id).
Qed.

(** The parser reports one line per distinct discovered file that fails to
    read or parse, in discovery order, and nothing about the others. *)
Theorem parse_output_spec (env : Env) (fs : FileSystem) :
  parse_output env fs
  = map (fun rel => ("[parser] Failed to parse " ++ rel ++ ": " ++ failure_text env rel)%string)
        (filter (fun rel => negb (is_parsed fs rel)) (dedup (discovered fs))).
Proof.
  unfold parse_output, dict_items. rewrite index_file_print_loop.
  - now rewrite collected_order.
  - intros id a Hin. apply In_dict_get in Hin; [|apply collected_keys_NoDup].
    apply collected_node_inv in Hin. destruct Hin as [_ ->]. reflexivity.
Qed.



Lemma cmd_index_disk (env : Env) (disk disk' : Store.Disk) (repo_path : string)
      (out : list string) :
  cmd_index env disk repo_path = Ok (disk', out) ->
  disk' = snd (Store.save_graph (Store.new Store.default_cache_dir) disk
                 (_codebase_id_from_path env repo_path)
                 (parse (repo_view env (abspath env repo_path)))).
Proof.
  unfold cmd_index. destruct (isdir env repo_path); [|discriminate]. cbn [negb].
  intros [= <- _]. reflexivity.
Qed.

(** Indexing one repository leaves the statistics of every repository
    with another identifier as they were. *)
Theorem index_keeps_other_repositories (env : Env) (disk disk' : Store.Disk)
        (repo_path other_path : string) (out : list string) :
  cmd_index env disk repo_path = Ok (disk', out) ->
  _codebase_id_from_path env other_path <> _codebase_id_from_path env repo_path ->
  cmd_stats env disk' other_path = cmd_stats env disk other_path.
Proof.
  intros Hidx Hne. apply cmd_index_disk in Hidx. subst disk'. unfold cmd_stats.
  rewrite (load_other_saved (Store.new Store.default_cache_dir)
             (Store.new Store.default_cache_dir)); auto.
Qed.

Lemma index_keeps_other_repositories_witness :
  cmd_stats sample_env
    (fst (match cmd_index sample_env [] "game" with
          | Ok r => r
          | Raise _ => ([], [])
          end))
    "other"
  = Ok ["[stats] No cached graph found. Run 'index' first."].
Proof.
  rewrite (index_keeps_other_repositories sample_env []
             (fst (match cmd_index sample_env [] "game" with
                   | Ok r => r
                   | Raise _ => ([], [])
                   end))
             "game" "other"
             (snd (match cmd_index sample_env [] "game" with
                   | Ok r => r
                   | Raise _ => ([], [])
                   end))).
  - reflexivity.
  - reflexivity.
  - discriminate.
Defined.

(** * The file nodes of the finished graph *)

(** The file nodes of the finished graph are the discovered paths, each
    with the two attributes it was created with: no later stage touches
    them, and nothing else has type [file]. *)
Theorem file_nodes_spec (fs : FileSystem) (id : string) (a : NodeAttrs) :
  well_formed fs = true ->
  (node_get (parse fs) id = Some a /\ a_type a = Some "file"
   <-> In id (discovered fs) /\ a = file_attrs id).
Proof.
  intros Hwf. split.
  - intros [E Hty].
    destruct (parse_node_cases fs id a Hwf E) as [H|(r & pf & n & _ & _ & _ & Hn)]; auto.
    apply decl_node_type in Hn. destruct Hn as [[Hc|Hf] _]; congruence.
  - intros [Hd ->]. split; [now apply parse_node_file | reflexivity].
Qed.

Lemma file_nodes_spec_witness :
  well_formed broken_repo = true
  /\ (node_get (parse broken_repo) "util.py" = Some (file_attrs "util.py")
      /\ a_type (file_attrs "util.py") = Some "file"
      <-> In "util.py" (discovered broken_repo)
          /\ file_attrs "util.py" = file_attrs "util.py").
Proof.
  split; [reflexivity|].
  apply (file_nodes_spec broken_repo "util.py" (file_attrs "util.py")). reflexivity.
Defined.

(** * The run with its output *)

(** [parse] returns exactly when the report of every discovered file that
    fails can be written; it then returns the graph of [parse] and has
    printed the reports.  Otherwise the [print] of a report that cannot be
    written raises, and the exception leaves [parse]: there is no graph. *)
Theorem parse_run_spec (out : Stdout) (env : Env) (fs : FileSystem) :
  ((forall p, In p (discovered fs) -> read_parse fs p = None ->
              accepts out (failure_line env p) = true)
   <-> parse_run out env fs = Returns (parse fs, parse_output env fs))
  /\ (forall r, parse_run out env fs = Returns r -> r = (parse fs, parse_output env fs))
  /\ ((exists p, In p (discovered fs) /\ read_parse fs p = None
                 /\ accepts out (failure_line env p) = false)
      <-> exists q, In q (discovered fs) /\ read_parse fs q = None
                    /\ accepts out (failure_line env q) = false
                    /\ parse_run out env fs = UnicodeEncodeError (failure_line env q)).
Proof.
  split; [|split].
  - split; [apply parse_run_returns|].
    intros E. now apply parse_run_Returns in E.
  - intros r E. now apply parse_run_Returns in E.
  - split.
    + intros (p & Hp & Er & Ea). now apply (parse_run_raises out env fs p).
    + intros (q & Hq & Er & Ea & _). exists q. auto.
Qed.

Lemma parse_output_In (env : Env) (fs : FileSystem) (p : string) :
  In p (discovered fs) -> read_parse fs p = None ->
  In (failure_line env p) (parse_output env fs).
Proof.
  intros Hp Er. unfold parse_output. apply in_flat_map.
  exists (p, file_attrs p). split.
  - apply collected_items. auto.
  - simpl. rewrite Er. now left.
Qed.

Lemma failed_file_no_edge_in (fs : FileSystem) (p u : string) :
  well_formed fs = true -> In p (discovered fs) -> read_parse fs p = None ->
  edge_get (parse fs) u p = None.
Proof.
  intros Hwf Hp Er. destruct (edge_get (parse fs) u p) as [l|] eqn:E; auto. exfalso.
  pose proof (discovered_py fs p Hp) as Hpy.
  apply parse_sound in E.
  destruct E as [[_ (pf & n & Hin & Hd & Ev)]|[[_ (pf & m & Hin & Hm & Ht)]|[_ Hc]]].
  - rewrite Ev in Hpy. rewrite decl_id_not_py in Hpy; [discriminate|].
    eapply files_declared_identifier; eauto.
  - apply first_match_In in Ht. destruct Ht as [Ht _].
    apply files_key_In in Ht. destruct Ht as [_ Ht].
    unfold is_parsed in Ht. rewrite Er in Ht. discriminate.
  - destruct Hc as (r & pf & f & fnode & t & args & Hin & _ & _ & Ht & _ & Ev).
    rewrite Ev in Hpy. rewrite decl_id_not_py in Hpy; [discriminate|].
    apply (files_declared_identifier fs r pf t); auto.
    unfold declared. rewrite Ht. apply orb_true_r.
Qed.

Lemma failed_file_no_edge_out (fs : FileSystem) (p v : string) :
  well_formed fs = true -> In p (discovered fs) -> read_parse fs p = None ->
  edge_get (parse fs) p v = None.
Proof.
  intros Hwf Hp Er. destruct (edge_get (parse fs) p v) as [l|] eqn:E; auto. exfalso.
  apply parse_sound in E.
  destruct E as [[_ (pf & n & Hin & _)]|[[_ (pf & m & Hin & _)]|[_ Hc]]].
  - now apply files_In_parsed in Hin.
  - now apply files_In_parsed in Hin.
  - apply call_shape in Hc; auto. apply (discovered_py fs) in Hp. congruence.
Qed.

(** A discovered file that fails to parse, in a build that completes: its
    report is printed; it keeps its file node; no class or function node
    carries its path; no edge leaves or enters it; and the files that
    parse are built in full: each top-level definition has its node and its
    [defined_in] edge, each referenced module with a match its
    [file_import] edge, and each resolved call its [calls] edge. *)
Theorem failed_file_isolated (out : Stdout) (env : Env) (fs : FileSystem) (p : string)
        (g : DiGraph) (lines : list string) :
  well_formed fs = true ->
  In p (discovered fs) ->
  read_parse fs p = None ->
  parse_run out env fs = Returns (g, lines) ->
  In (failure_line env p) lines
  /\ node_get g p = Some (file_attrs p)
  /\ (forall id a,
         node_get g id = Some a ->
         a_type a = Some "class" \/ a_type a = Some "function" ->
         file_prefix id <> Some p /\ a_file a <> Some p)
  /\ (forall v, edge_get g p v = None /\ edge_get g v p = None)
  /\ (forall r tree,
         In r (discovered fs) -> read_parse fs r = Some tree ->
         (forall stmt n,
             In stmt tree ->
             is_function_named n stmt = true \/ is_class_named n stmt = true ->
             node_get g (decl_id r n) = decl_node r (make_parsed_file r tree) n
             /\ node_get g (decl_id r n) <> None
             /\ edge_get g r (decl_id r n) = Some "defined_in")
         /\ (forall m t,
                In m (referenced_modules (make_parsed_file r tree)) ->
                first_analyzed_match fs m = Some t ->
                edge_get g r t = Some "file_import")
         /\ (forall f fnode t args,
                In (f, fnode) (functions (make_parsed_file r tree)) ->
                In (Call (Name t) args) (walk fnode) ->
                dict_mem t (functions (make_parsed_file r tree)) = true ->
                edge_get g (decl_id r f) (decl_id r t) = Some "calls")).
Proof.
  intros Hwf Hp Hfail Hrun. apply parse_run_Returns in Hrun.
  destruct Hrun as [E _]. injection E as -> ->.
  split; [now apply parse_output_In|]. split; [now apply parse_node_file|].
  split; [|split].
  - intros id a Hnode Hty.
    destruct (parse_node_cases fs id a Hwf Hnode) as [[_ ->]|(r & pf & n & Hin & Hd & -> & Ha)].
    { destruct Hty as [E|E]; discriminate. }
    assert (Hr : r <> p) by (intros ->; now apply files_In_parsed in Hin).
    rewrite file_prefix_decl_id by (eapply files_declared_identifier; eauto).
    rewrite (decl_node_file _ _ _ _ Ha). split; congruence.
  - intros v. split; [now apply failed_file_no_edge_out | now apply failed_file_no_edge_in].
  - intros r tree Hr Htree.
    assert (Hin : In (r, make_parsed_file r tree) (files (indexed fs)))
      by (apply files_In; eauto).
    split; [|split].
    + intros stmt n Hstmt Hn.
      assert (Hd : declared (make_parsed_file r tree) n = true)
        by (eapply top_level_declared; eauto).
      assert (Hid : is_identifier n = true)
        by (eapply files_declared_identifier; eauto).
      split; [now apply parse_node_decl|]. split.
      * rewrite parse_node_get. eapply built_decl_present; eauto.
      * apply edge_defined_in; auto. exists (make_parsed_file r tree), n. auto.
    + intros m t Hm Ht. apply edge_file_import; auto.
      exists (make_parsed_file r tree), m. rewrite first_match_analyzed. auto.
    + intros f fnode t args Hf Hcall Ht. apply call_edge.
      exists r, (make_parsed_file r tree), f, fnode, t, args. auto 10.
Qed.

Lemma failed_file_isolated_witness :
  well_formed broken_repo = true
  /\ In "util.py" (discovered broken_repo)
  /\ read_parse broken_repo "util.py" = None
  /\ parse_run lenient_stdout sample_env broken_repo
     = Returns (parse broken_repo, ["[parser] Failed to parse util.py: invalid syntax"])
  /\ node_get (parse broken_repo) "util.py" = Some (file_attrs "util.py")
  /\ (forall v, edge_get (parse broken_repo) "util.py" v = None
                /\ edge_get (parse broken_repo) v "util.py" = None)
  /\ edge_get (parse broken_repo) "main.py" "main.py::main" = Some "defined_in".
Proof.
  assert (Hin : In "util.py" (discovered broken_repo)) by (simpl; auto).
  assert (Hrun : parse_run lenient_stdout sample_env broken_repo
                 = Returns (parse broken_repo,
                            ["[parser] Failed to parse util.py: invalid syntax"]))
    by (vm_compute; reflexivity).
  split; [reflexivity|]. split; [exact Hin|]. split; [reflexivity|]. split; [exact Hrun|].
  destruct (failed_file_isolated lenient_stdout sample_env broken_repo "util.py"
              (parse broken_repo) ["[parser] Failed to parse util.py: invalid syntax"]
              eq_refl Hin eq_refl Hrun)
    as (_ & Hnode & _ & Hedge & Hrest).
  split; [exact Hnode|]. split; [exact Hedge|].
  destruct (Hrest "main.py"
              [ Import [Alias "util" None];
                FunctionDef "main" [] [] [Other [Call (Other [Name "util"]) []]] [] 3 4 None ])
    as (Hdef & _ & _).
  - simpl. auto.
  - reflexivity.
  - apply (Hdef (FunctionDef "main" [] [] [Other [Call (Other [Name "util"]) []]] [] 3 4 None)
                "main").
    + simpl. auto.
    + left. reflexivity.
Defined.
